(** * Data-slot firmware driver (src/firmware/dataslot.c)

    A shallow embedding of the Analogue Pocket data-slot driver: the
    completion waiter [dataslot_wait_complete] and the slot operations
    [dataslot_open_file], [dataslot_read], [dataslot_write] and
    [dataslot_load] built on top of it.

    The driver talks to the bridge through memory-mapped registers.  Stores
    to the registers are recorded in a register file, loads from the
    volatile status register are answered by a device function, and the
    [term_printf] diagnostics are recorded as a trace of events. *)

From Stdlib Require Import ZArith List Lia Bool String Ascii.
From Equations Require Import Equations.
Import ListNotations.
Open Scope Z_scope.

(** ** Machine integers

    The target is a 32-bit RISC-V core: [uint32_t], [uint16_t] and [int]
    are modelled as [Z] with the conversions written out. *)

Definition uint32 (x : Z) : Z := x mod 2 ^ 32.
Definition uint16 (x : Z) : Z := x mod 2 ^ 16.
Definition uint8 (x : Z) : Z := x mod 2 ^ 8.
Definition int32 (x : Z) : Z := (x + 2 ^ 31) mod 2 ^ 32 - 2 ^ 31.

(** ** dataslot.h

    The header is not among the translated sources, so every constant,
    macro and type it supplies is a field of this record. *)

Record dataslot_h : Type := {
  DS_STATUS_ACK : Z;
  DS_STATUS_DONE : Z;
  DS_STATUS_ERR_MASK : Z;
  DS_STATUS_ERR_SHIFT : Z;
  DS_CMD_READ : Z;
  DS_CMD_WRITE : Z;
  DS_CMD_OPENFILE : Z;
  CPU_TO_BRIDGE_ADDR : Z -> Z
}.

(** Constants of dataslot.c itself. *)

Definition PARAM_BUFFER_ADDR : Z := 0x10F00000.
Definition RESP_BUFFER_ADDR : Z := 0x10F01000.
Definition TIMEOUT_LOOPS : Z := 200000000.

(** Modelled from the spec: the layout of [dataslot_open_param_t], declared
    in the absent header: a 256-byte filename field followed by the 32-bit
    open flags and the 32-bit requested size. *)

Definition FILENAME_SIZE : Z := 256.
Definition OFFSET_flags : Z := 256.
Definition OFFSET_size : Z := 260.
Definition SIZEOF_open_param : nat := 264.

(** ** Registers, trace and world *)

(** The write side of the register block.  [DS_COMMAND] is a trigger: each
    store starts a command, so it holds the log of the stores, newest
    first. *)

Record Regs : Type := {
  DS_SLOT_ID : Z;
  DS_SLOT_OFFSET : Z;
  DS_BRIDGE_ADDR : Z;
  DS_LENGTH : Z;
  DS_PARAM_ADDR : Z;
  DS_RESP_ADDR : Z;
  DS_COMMAND : list Z
}.

(** One event per [term_printf] call of the driver, carrying the printed
    arguments. *)

Inductive term_msg : Type :=
| wait_initial_status (s : Z)
| wait_ACK_high
| wait_timeout_at_clear (t : Z)
| wait_ACK_cleared
| wait_timeout_at_ack (t : Z)
| wait_got_ACK
| wait_timeout_at_done (t s : Z)
| wait_got_DONE
| wait_final_status (s err : Z)
| DS_parameters (slot off br len : Z)
| DS_status_before (s : Z)
| DS_status_after (s result : Z)
| DS_data (p : list Z).

(** [polls] counts the loads from the status register, [spins] the
    evaluations of the conditions of the three busy-wait loops (a ghost
    counter), [term] is the diagnostic trace, newest first. *)

Record World : Type := {
  regs : Regs;
  mem : Z -> Z;
  polls : nat;
  spins : nat;
  term : list term_msg
}.

(** The bridge: the value a load from the status register returns, given
    the registers written so far and the number of earlier loads. *)

Definition Device : Type := Regs -> nat -> Z.

(** ** A state monad over the world *)

Definition M (A : Type) : Type := World -> A * World.

Definition ret {A} (a : A) : M A := fun w => (a, w).

Definition bind {A B} (m : M A) (k : A -> M B) : M B :=
  fun w => let (a, w') := m w in k a w'.

Notation "x <- m ;; k" := (bind m (fun x => k))
  (at level 61, m at next level, right associativity).
Notation "m ;; k" := (bind m (fun _ => k))
  (at level 61, right associativity).

Definition set_regs (f : Regs -> Regs) : M unit :=
  fun w => (tt, {| regs := f (regs w); mem := mem w; polls := polls w;
                   spins := spins w; term := term w |}).

Definition set_mem (f : (Z -> Z) -> Z -> Z) : M unit :=
  fun w => (tt, {| regs := regs w; mem := f (mem w); polls := polls w;
                   spins := spins w; term := term w |}).

Definition term_printf (msg : term_msg) : M unit :=
  fun w => (tt, {| regs := regs w; mem := mem w; polls := polls w;
                   spins := spins w; term := msg :: term w |}).

Definition load8 (a : Z) : M Z := fun w => (mem w a, w).

(** Register stores. *)

Definition write_SLOT_ID (v : Z) : M unit :=
  set_regs (fun r => {| DS_SLOT_ID := uint32 v; DS_SLOT_OFFSET := DS_SLOT_OFFSET r;
    DS_BRIDGE_ADDR := DS_BRIDGE_ADDR r; DS_LENGTH := DS_LENGTH r;
    DS_PARAM_ADDR := DS_PARAM_ADDR r; DS_RESP_ADDR := DS_RESP_ADDR r;
    DS_COMMAND := DS_COMMAND r |}).

Definition write_SLOT_OFFSET (v : Z) : M unit :=
  set_regs (fun r => {| DS_SLOT_ID := DS_SLOT_ID r; DS_SLOT_OFFSET := uint32 v;
    DS_BRIDGE_ADDR := DS_BRIDGE_ADDR r; DS_LENGTH := DS_LENGTH r;
    DS_PARAM_ADDR := DS_PARAM_ADDR r; DS_RESP_ADDR := DS_RESP_ADDR r;
    DS_COMMAND := DS_COMMAND r |}).

Definition write_BRIDGE_ADDR (v : Z) : M unit :=
  set_regs (fun r => {| DS_SLOT_ID := DS_SLOT_ID r; DS_SLOT_OFFSET := DS_SLOT_OFFSET r;
    DS_BRIDGE_ADDR := uint32 v; DS_LENGTH := DS_LENGTH r;
    DS_PARAM_ADDR := DS_PARAM_ADDR r; DS_RESP_ADDR := DS_RESP_ADDR r;
    DS_COMMAND := DS_COMMAND r |}).

Definition write_LENGTH (v : Z) : M unit :=
  set_regs (fun r => {| DS_SLOT_ID := DS_SLOT_ID r; DS_SLOT_OFFSET := DS_SLOT_OFFSET r;
    DS_BRIDGE_ADDR := DS_BRIDGE_ADDR r; DS_LENGTH := uint32 v;
    DS_PARAM_ADDR := DS_PARAM_ADDR r; DS_RESP_ADDR := DS_RESP_ADDR r;
    DS_COMMAND := DS_COMMAND r |}).

Definition write_PARAM_ADDR (v : Z) : M unit :=
  set_regs (fun r => {| DS_SLOT_ID := DS_SLOT_ID r; DS_SLOT_OFFSET := DS_SLOT_OFFSET r;
    DS_BRIDGE_ADDR := DS_BRIDGE_ADDR r; DS_LENGTH := DS_LENGTH r;
    DS_PARAM_ADDR := uint32 v; DS_RESP_ADDR := DS_RESP_ADDR r;
    DS_COMMAND := DS_COMMAND r |}).

Definition write_RESP_ADDR (v : Z) : M unit :=
  set_regs (fun r => {| DS_SLOT_ID := DS_SLOT_ID r; DS_SLOT_OFFSET := DS_SLOT_OFFSET r;
    DS_BRIDGE_ADDR := DS_BRIDGE_ADDR r; DS_LENGTH := DS_LENGTH r;
    DS_PARAM_ADDR := DS_PARAM_ADDR r; DS_RESP_ADDR := uint32 v;
    DS_COMMAND := DS_COMMAND r |}).

Definition write_COMMAND (v : Z) : M unit :=
  set_regs (fun r => {| DS_SLOT_ID := DS_SLOT_ID r; DS_SLOT_OFFSET := DS_SLOT_OFFSET r;
    DS_BRIDGE_ADDR := DS_BRIDGE_ADDR r; DS_LENGTH := DS_LENGTH r;
    DS_PARAM_ADDR := DS_PARAM_ADDR r; DS_RESP_ADDR := DS_RESP_ADDR r;
    DS_COMMAND := uint32 v :: DS_COMMAND r |}).

(** ** libc: memset and strncpy on the byte memory *)

Definition store8 (a v : Z) (m : Z -> Z) : Z -> Z :=
  fun x => if x =? a then uint8 v else m x.

(** Little-endian 32-bit store. *)
Definition store32 (a v : Z) (m : Z -> Z) : Z -> Z :=
  store8 (a + 3) (Z.shiftr v 24)
    (store8 (a + 2) (Z.shiftr v 16)
      (store8 (a + 1) (Z.shiftr v 8) (store8 a v m))).

Fixpoint memset (s c : Z) (n : nat) (m : Z -> Z) : Z -> Z :=
  match n with
  | O => m
  | S n' => memset (s + 1) c n' (store8 s c m)
  end.

Definition char_code (c : ascii) : Z := Z.of_nat (nat_of_ascii c).

(** [strncpy dest src n]: copies the characters of [src] up to its
    terminator (the first NUL, or the end of the text) and pads with NUL
    up to [n] bytes; writes exactly [n] bytes, and no terminator when the
    source has [n] characters or more. *)
Fixpoint strncpy (dest : Z) (src : string) (n : nat) (m : Z -> Z) {struct n}
  : Z -> Z :=
  match n with
  | O => m
  | S n' =>
      match src with
      | EmptyString => memset dest 0 (S n') m
      | String c rest =>
          if char_code c =? 0 then memset dest 0 (S n') m
          else strncpy (dest + 1) rest n' (store8 dest (char_code c) m)
      end
  end.

(** The C string held by [src]: its characters before the terminator. *)
Fixpoint c_str (src : string) : list Z :=
  match src with
  | EmptyString => []
  | String c rest => if char_code c =? 0 then [] else char_code c :: c_str rest
  end.

Definition strlen (src : string) : nat := List.length (c_str src).

(** ** The driver *)

Definition inspect {A} (a : A) : {b : A | a = b} := exist _ a eq_refl.

(** How a busy-wait loop ends: its condition became false ([Exited]), or
    the countdown reached zero ([TimedOut]); both carry the value of
    [timeout] at that moment. *)
Inductive spin_result : Type :=
| Exited (timeout : Z)
| TimedOut (timeout : Z).

Section Driver.

Variable hdr : dataslot_h.
Variable bridge : Device.

(** A load from the volatile status register. *)
Definition status_of (w : World) : Z := uint32 (bridge (regs w) (polls w)).

Definition DS_STATUS : M Z :=
  fun w => (status_of w,
            {| regs := regs w; mem := mem w; polls := S (polls w);
               spins := spins w; term := term w |}).

(** The world after one evaluation of a loop condition. *)
Definition spun (w : World) : World :=
  {| regs := regs w; mem := mem w; polls := S (polls w);
     spins := S (spins w); term := term w |}.

(** The three loops of the waiter have one shape,
    [while (cond(DS_STATUS)) { if (--timeout <= 0) return ...; }].
    The countdown starts at [TIMEOUT_LOOPS] and stops at zero, so the
    [int] arithmetic on it never wraps. *)
Equations? spin (cond : Z -> bool) (timeout : Z) (w : World)
  : spin_result * World by wf (Z.to_nat timeout) lt :=
  spin cond timeout w with inspect (cond (status_of w)) := {
    | exist _ false _ => (Exited timeout, spun w)
    | exist _ true _ with inspect (timeout - 1 <=? 0) := {
        | exist _ true _ => (TimedOut (timeout - 1), spun w)
        | exist _ false _ => spin cond (timeout - 1) (spun w) } }.
Proof. apply Z.leb_gt in e0. lia. Qed.

Definition spin_while (cond : Z -> bool) (timeout : Z) : M spin_result :=
  spin cond timeout.

(** [status & DS_STATUS_ACK] and [status & DS_STATUS_DONE] as C truth
    values. *)
Definition ack_set (status : Z) : bool :=
  negb (Z.land status (DS_STATUS_ACK hdr) =? 0).

Definition done_set (status : Z) : bool :=
  negb (Z.land status (DS_STATUS_DONE hdr) =? 0).

(** [(final_status & DS_STATUS_ERR_MASK) >> DS_STATUS_ERR_SHIFT],
    converted to [int]. *)
Definition err_field (final_status : Z) : Z :=
  Z.shiftr (Z.land final_status (DS_STATUS_ERR_MASK hdr)) (DS_STATUS_ERR_SHIFT hdr).

(** Lines 51-65: wait for done, then check the error code. *)
Definition wait_done : M Z :=
  o <- spin_while (fun s => negb (done_set s)) TIMEOUT_LOOPS ;;
  match o with
  | TimedOut t =>
      s <- DS_STATUS ;;
      term_printf (wait_timeout_at_done t s) ;;
      ret (-2)
  | Exited _ =>
      term_printf wait_got_DONE ;;
      final_status <- DS_STATUS ;;
      let err := int32 (err_field final_status) in
      term_printf (wait_final_status final_status err) ;;
      ret (if err =? 0 then 0 else int32 (- err))
  end.

(** Lines 41-49: wait for this command's ack. *)
Definition wait_ack : M Z :=
  o <- spin_while (fun s => negb (ack_set s)) TIMEOUT_LOOPS ;;
  match o with
  | TimedOut t =>
      term_printf (wait_timeout_at_ack t) ;;
      ret (-1)
  | Exited _ =>
      term_printf wait_got_ACK ;;
      wait_done
  end.

Definition dataslot_wait_complete : M Z :=
  s0 <- DS_STATUS ;;
  term_printf (wait_initial_status s0) ;;
  status <- DS_STATUS ;;
  if ack_set status then
    term_printf wait_ACK_high ;;
    o <- spin_while ack_set TIMEOUT_LOOPS ;;
    match o with
    | TimedOut t =>
        term_printf (wait_timeout_at_clear t) ;;
        ret (-3)
    | Exited _ =>
        term_printf wait_ACK_cleared ;;
        wait_ack
    end
  else wait_ack.

(** [dataslot_open_file(filename, flags, size)] *)
Definition dataslot_open_file (filename : string) (flags size : Z) : M Z :=
  let param := PARAM_BUFFER_ADDR in
  set_mem (memset param 0 SIZEOF_open_param) ;;
  set_mem (strncpy param filename 255) ;;
  set_mem (store8 (param + 255) 0) ;;
  set_mem (store32 (param + OFFSET_flags) (uint32 flags)) ;;
  set_mem (store32 (param + OFFSET_size) (uint32 size)) ;;
  write_SLOT_ID 0 ;;
  write_PARAM_ADDR (CPU_TO_BRIDGE_ADDR hdr PARAM_BUFFER_ADDR) ;;
  write_RESP_ADDR (CPU_TO_BRIDGE_ADDR hdr RESP_BUFFER_ADDR) ;;
  write_COMMAND (DS_CMD_OPENFILE hdr) ;;
  dataslot_wait_complete.

(** The address test shared by [dataslot_read] and [dataslot_write]:
    [addr < 0x10000000 || addr >= 0x14000000]. *)
Definition outside_sdram (addr : Z) : bool :=
  (addr <? 0x10000000) || (addr >=? 0x14000000).

(** [dataslot_read(slot_id, offset, dest, length)]; the pointer [dest] is
    its 32-bit address. *)
Definition dataslot_read (slot_id offset dest length : Z) : M Z :=
  let dest_addr := uint32 dest in
  if outside_sdram dest_addr then ret (-10)
  else
    let bridge_addr := uint32 (CPU_TO_BRIDGE_ADDR hdr dest_addr) in
    term_printf (DS_parameters (uint32 slot_id) (uint32 offset) bridge_addr
                   (uint32 length)) ;;
    s <- DS_STATUS ;;
    term_printf (DS_status_before s) ;;
    write_SLOT_ID slot_id ;;
    write_SLOT_OFFSET offset ;;
    write_BRIDGE_ADDR bridge_addr ;;
    write_LENGTH length ;;
    write_COMMAND (DS_CMD_READ hdr) ;;
    result <- dataslot_wait_complete ;;
    s <- DS_STATUS ;;
    term_printf (DS_status_after s result) ;;
    p0 <- load8 dest_addr ;; p1 <- load8 (dest_addr + 1) ;;
    p2 <- load8 (dest_addr + 2) ;; p3 <- load8 (dest_addr + 3) ;;
    p4 <- load8 (dest_addr + 4) ;; p5 <- load8 (dest_addr + 5) ;;
    p6 <- load8 (dest_addr + 6) ;; p7 <- load8 (dest_addr + 7) ;;
    term_printf (DS_data [p0; p1; p2; p3; p4; p5; p6; p7]) ;;
    ret result.

(** [dataslot_write(slot_id, offset, src, length)]; [slot_id] is a
    [uint16_t] here. *)
Definition dataslot_write (slot_id offset src length : Z) : M Z :=
  let src_addr := uint32 src in
  if outside_sdram src_addr then ret (-10)
  else
    write_SLOT_ID (uint16 slot_id) ;;
    write_SLOT_OFFSET offset ;;
    write_BRIDGE_ADDR (CPU_TO_BRIDGE_ADDR hdr src_addr) ;;
    write_LENGTH length ;;
    write_COMMAND (DS_CMD_WRITE hdr) ;;
    dataslot_wait_complete.

(** [dataslot_load(slot_id, dest, max_length)]; [slot_id] is a
    [uint16_t], the result an [int32_t]. *)
Definition dataslot_load (slot_id dest max_length : Z) : M Z :=
  result <- dataslot_read (uint16 slot_id) 0 dest max_length ;;
  if result <? 0 then ret result
  else ret (int32 (uint32 max_length)).

End Driver.

(** ** A sample platform and some bridges *)

(** Modelled from the spec: the constants of the absent dataslot.h, for the
    sample runs.  The spec gives the status register an ACK bit, a DONE bit
    and an error-code field with a defined shift and width, and names 3 as
    a value of that field; here ACK is bit 0, DONE bit 1 and the error code
    the three bits above them, and the bridge sees the SDRAM at offset 0
    where the CPU sees it at [0x10000000]. *)
Definition pocket_h : dataslot_h := {|
  DS_STATUS_ACK := 1;
  DS_STATUS_DONE := 2;
  DS_STATUS_ERR_MASK := 28;
  DS_STATUS_ERR_SHIFT := 2;
  DS_CMD_READ := 1;
  DS_CMD_WRITE := 2;
  DS_CMD_OPENFILE := 3;
  CPU_TO_BRIDGE_ADDR := fun a => a - 0x10000000
|}.

(** A bridge whose status register always reads [s]. *)
Definition stuck_bridge (s : Z) : Device := fun _ _ => s.

(** A bridge that is idle (status 0) for the first [n] loads and then shows
    ACK and DONE with error code [e]. *)
Definition prompt_bridge (n : nat) (e : Z) : Device :=
  fun _ k => if (k <? n)%nat then 0 else 3 + 4 * e.

(** A bridge that is idle for the first [n] loads and then shows ACK
    only. *)
Definition acking_bridge (n : nat) : Device :=
  fun _ k => if (k <? n)%nat then 0 else 1.

(** A bridge that shows a stale ACK for the first three loads and no ACK
    and no DONE from then on. *)
Definition retiring_bridge : Device :=
  fun _ k => if (k <? 3)%nat then 1 else 0.

(** A bridge that shows a stale ACK, drops it at load 2 only and shows ACK
    again from load 3 on, never DONE. *)
Definition blink_bridge : Device :=
  fun _ k => if (k =? 2)%nat then 0 else 1.

Definition regs0 : Regs := {|
  DS_SLOT_ID := 0; DS_SLOT_OFFSET := 0; DS_BRIDGE_ADDR := 0; DS_LENGTH := 0;
  DS_PARAM_ADDR := 0; DS_RESP_ADDR := 0; DS_COMMAND := []
|}.

Definition world0 : World := {|
  regs := regs0; mem := fun _ => 0; polls := 0; spins := 0; term := []
|}.

(** ** What a run is described by *)

(** The status the bridge shows at load number [k], the registers being
    those of world [w]. *)
Definition status_at (bridge : Device) (w : World) (k : nat) : Z :=
  uint32 (bridge (regs w) k).

(** The world after [n] evaluations of a loop condition. *)
Definition spun_n (n : nat) (w : World) : World :=
  {| regs := regs w; mem := mem w; polls := (polls w + n)%nat;
     spins := (spins w + n)%nat; term := term w |}.

(** The per-phase budget as a number of polls. *)
Definition budget : nat := S (Z.to_nat (TIMEOUT_LOOPS - 1)).

(** The waiter only reads the status register and prints: it takes a world
    [w] to [after w loads loops new], with [loads] more status loads,
    [loops] more loop polls and the events [new] printed. *)
Definition after (w : World) (loads loops : nat) (new : list term_msg) : World :=
  {| regs := regs w; mem := mem w; polls := (polls w + loads)%nat;
     spins := (spins w + loops)%nat; term := new ++ term w |}.

(** The four [return] statements of [dataslot_wait_complete]: the three
    time-outs, and the normal end, which carries the last status read. *)
Inductive wait_exit : Type :=
| exit_clear_timeout
| exit_ack_timeout
| exit_done_timeout (s : Z)
| exit_done (final_status : Z).

(** The register file once a transfer has been programmed and its command
    triggered. *)
Definition programmed (cmd slot off br len : Z) (r : Regs) : Regs :=
  {| DS_SLOT_ID := uint32 slot; DS_SLOT_OFFSET := uint32 off;
     DS_BRIDGE_ADDR := uint32 br; DS_LENGTH := uint32 len;
     DS_PARAM_ADDR := DS_PARAM_ADDR r; DS_RESP_ADDR := DS_RESP_ADDR r;
     DS_COMMAND := uint32 cmd :: DS_COMMAND r |}.

(** The polls of one busy-wait loop
    [while (cond) { if (--timeout <= 0) return ...; }] whose countdown
    starts at [TIMEOUT_LOOPS], [cond k] being the condition at its poll
    number [k]: the loop makes [n] polls when the condition holds at every
    poll before the last; it times out when the condition still holds at
    its poll number [TIMEOUT_LOOPS], and ends at the first poll where the
    condition fails otherwise. *)
Definition loop_polls (cond : nat -> bool) (n : nat) (timed_out : bool) : Prop :=
  (1 <= n)%nat /\ Z.of_nat n <= TIMEOUT_LOOPS /\
  (forall k, (S k < n)%nat -> cond k = true) /\
  (if timed_out
   then Z.of_nat n = TIMEOUT_LOOPS /\ cond (n - 1)%nat = true
   else cond (n - 1)%nat = false).

Section Observations.

Variable hdr : dataslot_h.
Variable bridge : Device.

Local Abbreviation st := (status_at bridge).

(** The value [dataslot_wait_complete] returns once DONE has been seen
    and the status register read [final_status]. *)
Definition result_of (final_status : Z) : Z :=
  let err := int32 (err_field hdr final_status) in
  if err =? 0 then 0 else int32 (- err).

Definition exit_code (e : wait_exit) : Z :=
  match e with
  | exit_clear_timeout => -3
  | exit_ack_timeout => -1
  | exit_done_timeout _ => -2
  | exit_done fs => result_of fs
  end.

(** What the waiter prints up to the acknowledgment phase; [d] tells
    whether ACK was pending at the start. *)
Definition drain_trace (s0 : Z) (d : bool) : list term_msg :=
  if d then [wait_ACK_cleared; wait_ACK_high; wait_initial_status s0]
  else [wait_initial_status s0].

(** What it prints from the acknowledgment phase on. *)
Definition ack_trace (e : wait_exit) : list term_msg :=
  match e with
  | exit_clear_timeout => []
  | exit_ack_timeout => [wait_timeout_at_ack 0]
  | exit_done_timeout s => [wait_timeout_at_done 0 s; wait_got_ACK]
  | exit_done fs =>
      [wait_final_status fs (int32 (err_field hdr fs)); wait_got_DONE;
       wait_got_ACK]
  end.

Definition exit_trace (s0 : Z) (d : bool) (e : wait_exit) : list term_msg :=
  match e with
  | exit_clear_timeout =>
      [wait_timeout_at_clear 0; wait_ACK_high; wait_initial_status s0]
  | _ => ack_trace e ++ drain_trace s0 d
  end.

(** Status loads outside the loops made after the acknowledgment phase. *)
Definition tail_loads (e : wait_exit) : nat :=
  match e with
  | exit_done_timeout _ | exit_done _ => 1
  | _ => 0
  end.

(** How the polls of the acknowledgment phase ([n2]) and of the
    completion phase ([n3]) relate to the exit taken. *)
Definition ack_exit_ok (w : World) (e : wait_exit) (n2 n3 : nat) : Prop :=
  match e with
  | exit_clear_timeout => False
  | exit_ack_timeout => n2 = budget /\ n3 = 0%nat
  | exit_done_timeout s =>
      n3 = budget /\ s = st w (polls w + n2 + n3)
  | exit_done fs =>
      (1 <= n3)%nat /\ fs = st w (polls w + n2 + n3) /\
      done_set hdr (st w (polls w + n2 + n3 - 1)) = true
  end.

(** How the polls of the three phases ([n1] drain, [n2] acknowledgment,
    [n3] completion) relate to the exit taken: a phase times out exactly
    when its own polls use up the budget, whatever the earlier phases
    used. *)
Definition wait_exit_ok (w : World) (e : wait_exit) (n1 n2 n3 : nat) : Prop :=
  match e with
  | exit_clear_timeout =>
      ack_set hdr (st w (polls w + 1)) = true /\
      n1 = budget /\ n2 = 0%nat /\ n3 = 0%nat
  | exit_ack_timeout => n2 = budget /\ n3 = 0%nat
  | exit_done_timeout s =>
      n3 = budget /\ s = st w (polls w + 2 + n1 + n2 + n3)
  | exit_done fs =>
      (1 <= n3)%nat /\ fs = st w (polls w + 2 + n1 + n2 + n3) /\
      done_set hdr (st w (polls w + 2 + n1 + n2 + n3 - 1)) = true
  end.

(** The acknowledgment and completion loops, [s k] being the status at
    load [k] counted from the first poll of the acknowledgment loop: each
    loop is a loop of its own countdown, the completion loop starts where
    the acknowledgment loop ended, and the status read after it is the
    next load. *)
Definition ack_done_polls (s : nat -> Z) (e : wait_exit) (n2 n3 : nat) : Prop :=
  match e with
  | exit_clear_timeout => False
  | exit_ack_timeout =>
      loop_polls (fun k => negb (ack_set hdr (s k))) n2 true /\ n3 = 0%nat
  | exit_done_timeout s' =>
      loop_polls (fun k => negb (ack_set hdr (s k))) n2 false /\
      loop_polls (fun k => negb (done_set hdr (s (n2 + k)%nat))) n3 true /\
      s' = s (n2 + n3)%nat
  | exit_done fs =>
      loop_polls (fun k => negb (ack_set hdr (s k))) n2 false /\
      loop_polls (fun k => negb (done_set hdr (s (n2 + k)%nat))) n3 false /\
      fs = s (n2 + n3)%nat
  end.

(** The drain loop: not entered when the status sampled at the start (the
    second load of the call) has ACK clear, and a loop of its own
    countdown over the loads that follow otherwise. *)
Definition drain_polls (w : World) (n1 : nat) (timed_out : bool) : Prop :=
  if ack_set hdr (st w (polls w + 1))
  then loop_polls (fun k => ack_set hdr (st w (polls w + 2 + k))) n1 timed_out
  else n1 = 0%nat /\ timed_out = false.

(** The polls of the three loops of a call that leaves through [e], by
    what the bridge showed: the exit and the three numbers are determined
    by the statuses. *)
Definition phases (w : World) (e : wait_exit) (n1 n2 n3 : nat) : Prop :=
  match e with
  | exit_clear_timeout => drain_polls w n1 true /\ n2 = 0%nat /\ n3 = 0%nat
  | _ =>
      drain_polls w n1 false /\
      ack_done_polls (fun k => st w (polls w + 2 + n1 + k)) e n2 n3
  end.

(** The world [dataslot_read] hands to the waiter. *)
Definition read_issued (slot_id offset dest length : Z) (w : World) : World :=
  let br := uint32 (CPU_TO_BRIDGE_ADDR hdr (uint32 dest)) in
  {| regs := programmed (DS_CMD_READ hdr) slot_id offset br length (regs w);
     mem := mem w; polls := S (polls w); spins := spins w;
     term := DS_status_before (st w (polls w))
             :: DS_parameters (uint32 slot_id) (uint32 offset) br (uint32 length)
             :: term w |}.

(** The world [dataslot_write] hands to the waiter. *)
Definition write_issued (slot_id offset src length : Z) (w : World) : World :=
  {| regs := programmed (DS_CMD_WRITE hdr) (uint16 slot_id) offset
               (CPU_TO_BRIDGE_ADDR hdr (uint32 src)) length (regs w);
     mem := mem w; polls := polls w; spins := spins w; term := term w |}.

(** The first eight bytes at [a], as dumped by [dataslot_read]. *)
Definition dump8 (m : Z -> Z) (a : Z) : list Z :=
  [m a; m (a + 1); m (a + 2); m (a + 3); m (a + 4); m (a + 5); m (a + 6);
   m (a + 7)].

End Observations.

(** The failures the slot operations report. *)
Inductive failure_class : Type :=
| InvalidAddress
| TimeoutDuringClear
| TimeoutAwaitingAck
| TimeoutAwaitingDone
| BridgeReportedError (e : Z).

(** The code each failure is returned with: the constants of the [return]
    statements, and [-err] for an error reported by the bridge. *)
Definition failure_code (c : failure_class) : Z :=
  match c with
  | InvalidAddress => -10
  | TimeoutDuringClear => -3
  | TimeoutAwaitingAck => -1
  | TimeoutAwaitingDone => -2
  | BridgeReportedError e => - e
  end.

(** The failures detected by the driver itself. *)
Definition local_failure (c : failure_class) : Prop :=
  match c with
  | BridgeReportedError _ => False
  | _ => True
  end.

(** What the trace [new] of a call shows about its failure: nothing at all
    is printed when the address is rejected, each time-out prints its own
    message, and a completed command prints the final status with its
    error code. *)
Definition shows (new : list term_msg) (c : failure_class) : Prop :=
  match c with
  | InvalidAddress => new = []
  | TimeoutDuringClear => In (wait_timeout_at_clear 0) new
  | TimeoutAwaitingAck => In (wait_timeout_at_ack 0) new
  | TimeoutAwaitingDone => exists s, In (wait_timeout_at_done 0 s) new
  | BridgeReportedError e => e <> 0 /\ exists fs, In (wait_final_status fs e) new
  end.

(** The messages of [dataslot_read] itself. *)
Definition is_DS (m : term_msg) : Prop :=
  match m with
  | DS_parameters _ _ _ _ | DS_status_before _ | DS_status_after _ _
  | DS_data _ => True
  | _ => False
  end.

(** A call reports its failures faithfully when the failure its trace
    shows decides the code returned, a negative one, and when it shows a
    failure whenever it does not return 0. *)
Definition reports (run : Z * World) (w : World) : Prop :=
  forall new : list term_msg,
    term (snd run) = new ++ term w ->
    (forall c, shows new c -> fst run = failure_code c /\ fst run < 0) /\
    (fst run = 0 \/ exists c, shows new c).

(** The C string found at [a], reading at most [n] bytes. *)
Fixpoint load_str (m : Z -> Z) (a : Z) (n : nat) : list Z :=
  match n with
  | O => []
  | S n' => if m a =? 0 then [] else m a :: load_str m (a + 1) n'
  end.

Fixpoint replicate (n : nat) (c : ascii) : string :=
  match n with
  | O => EmptyString
  | S n' => String c (replicate n' c)
  end.

(** A file name of 300 characters. *)
Definition long_name : string := replicate 300 "a"%char.

(** ** dataslot.c: the slot size *)

(** Little-endian 32-bit load. *)
Definition load32 (m : Z -> Z) (a : Z) : Z :=
  m a + 2 ^ 8 * m (a + 1) + 2 ^ 16 * m (a + 2) + 2 ^ 24 * m (a + 3).

(** [dataslot_get_size(slot_id, size_out)]; [slot_id] is a [uint16_t],
    the pointer [size_out] is its 32-bit address, [NULL] being 0. *)
Definition dataslot_get_size (slot_id size_out : Z) : M Z :=
  if uint32 size_out =? 0 then ret (-1)
  else
    set_mem (store32 (uint32 size_out)
               (match uint16 slot_id with
                | 0 => 4 * 1024 * 1024
                | 1 => 20 * 1024 * 1024
                | _ => 1 * 1024 * 1024
                end)) ;;
    ret 0.

(** ** terminal.c: the text terminal behind [term_printf] *)

Module Terminal.

(** terminal.h is not among the translated sources: its constants are the
    fields of this record (the driver's header comment gives a display of
    40 columns by 30 rows). *)
Record terminal_h : Type := {
  TERM_COLS : Z;
  TERM_ROWS : Z;
  TERM_SIZE : Z
}.

(** The character memory, indexed from [TERM_VRAM], and the two cursor
    variables. *)
Record Terminal : Type := {
  vram : Z -> Z;
  cursor_row : Z;
  cursor_col : Z
}.

(** [for (int i = i0; i < i0 + n; i++) body]. *)
Fixpoint for_loop {S : Type} (n : nat) (i : Z) (body : Z -> S -> S) (s : S) : S :=
  match n with
  | O => s
  | S n' => for_loop n' (i + 1) body (body i s)
  end.

(** [for (int i = n - 1; i >= 0; i--) body]. *)
Fixpoint for_down {S : Type} (n : nat) (body : Z -> S -> S) (s : S) : S :=
  match n with
  | O => s
  | S n' => for_down n' body (body (Z.of_nat n') s)
  end.

(** The table ["0123456789ABCDEF"] of [term_puthex]. *)
Definition hex : list Z :=
  [48; 49; 50; 51; 52; 53; 54; 55; 56; 57; 65; 66; 67; 68; 69; 70].

(** The digit loop of [term_putdec],
    [while (val > 0) { buf[i++] = '0' + (val % 10); val /= 10; }]; the
    buffer is the list of the characters stored so far, last one first. *)
Equations? dec_loop (val : Z) (buf : list Z) : list Z by wf (Z.to_nat val) lt :=
  dec_loop val buf with inspect (val >? 0) := {
    | exist _ true _ => dec_loop (Z.quot val 10) (uint8 (48 + Z.rem val 10) :: buf)
    | exist _ false _ => buf }.
Proof.
  apply Z.gtb_lt in e.
  pose proof (Z.quot_lt val 10 ltac:(lia) ltac:(lia)).
  pose proof (Z.quot_pos val 10 ltac:(lia) ltac:(lia)). lia.
Qed.

(** An argument passed through the ellipsis of [term_printf]: a 32-bit
    integer ([int], [int32_t] or [uint32_t]), or a pointer to a string,
    [None] being the null pointer. *)
Inductive vararg : Type :=
| VInt (v : Z)
| VStr (s : option string).

Section Screen.

Variable th : terminal_h.

Definition term_clear (t : Terminal) : Terminal :=
  {| vram := for_loop (Z.to_nat (TERM_SIZE th)) 0 (fun i v => store8 i 32 v) (vram t);
     cursor_row := 0; cursor_col := 0 |}.

Definition term_init (t : Terminal) : Terminal :=
  term_clear {| vram := vram t; cursor_row := 0; cursor_col := 0 |}.

Definition term_setpos (row col : Z) (t : Terminal) : Terminal :=
  let t1 :=
    if (row >=? 0) && (row <? TERM_ROWS th)
    then {| vram := vram t; cursor_row := row; cursor_col := cursor_col t |}
    else t in
  if (col >=? 0) && (col <? TERM_COLS th)
  then {| vram := vram t1; cursor_row := cursor_row t1; cursor_col := col |}
  else t1.

Definition term_getpos (t : Terminal) : Z :=
  int32 (int32 (cursor_row t * TERM_COLS th) + cursor_col t).

(** Both loops of [scroll_up], on the character memory. *)
Definition scroll_up (v : Z -> Z) : Z -> Z :=
  let v1 :=
    for_loop (Z.to_nat ((TERM_ROWS th - 1) * TERM_COLS th)) 0
      (fun i v => store8 i (v (i + TERM_COLS th)) v) v in
  for_loop (Z.to_nat (TERM_COLS th)) 0
    (fun i v => store8 ((TERM_ROWS th - 1) * TERM_COLS th + i) 32 v) v1.

(** [term_putchar(c)]: the character is a byte, the cursor variables are
    [int]s. *)
Definition term_putchar (c : Z) (t : Terminal) : Terminal :=
  let c := uint8 c in
  let t1 :=
    if c =? 10 then
      {| vram := vram t; cursor_row := int32 (cursor_row t + 1); cursor_col := 0 |}
    else if c =? 13 then
      {| vram := vram t; cursor_row := cursor_row t; cursor_col := 0 |}
    else if c =? 8 then
      if cursor_col t >? 0
      then {| vram := vram t; cursor_row := cursor_row t;
              cursor_col := int32 (cursor_col t - 1) |}
      else t
    else
      let v := store8 (int32 (int32 (cursor_row t * TERM_COLS th) + cursor_col t))
                 c (vram t) in
      let col := int32 (cursor_col t + 1) in
      if col >=? TERM_COLS th
      then {| vram := v; cursor_row := int32 (cursor_row t + 1); cursor_col := 0 |}
      else {| vram := v; cursor_row := cursor_row t; cursor_col := col |} in
  if cursor_row t1 >=? TERM_ROWS th
  then {| vram := scroll_up (vram t1); cursor_row := int32 (TERM_ROWS th - 1);
          cursor_col := cursor_col t1 |}
  else t1.

(** [term_puts(s)]: the characters of [s] up to its terminator. *)
Fixpoint term_puts (s : string) (t : Terminal) : Terminal :=
  match s with
  | EmptyString => t
  | String c rest =>
      if char_code c =? 0 then t
      else term_puts rest (term_putchar (char_code c) t)
  end.

Definition term_println (s : string) (t : Terminal) : Terminal :=
  term_putchar 10 (term_puts s t).

(** [term_puthex(val, digits)]; the shift [val >> (i * 4)] is defined in C
    for [i * 4 < 32] only. *)
Definition term_puthex (val digits : Z) (t : Terminal) : Terminal :=
  for_down (Z.to_nat digits)
    (fun i t =>
       term_putchar
         (nth (Z.to_nat (Z.land (Z.shiftr (uint32 val) (i * 4)) 15)) hex 0) t)
    t.

(** [term_putdec(val)].  For [INT32_MIN] the negation [val = -val]
    overflows, which C leaves undefined; the 32-bit wrap written here
    stands for no behaviour of the source at that one value. *)
Definition term_putdec (val : Z) (t : Terminal) : Terminal :=
  let val := int32 val in
  let neg := val <? 0 in
  let val := if neg then int32 (- val) else val in
  if val =? 0 then term_putchar 48 t
  else
    let buf := dec_loop val [] in
    let t1 := if neg then term_putchar 45 t else t in
    fold_left (fun t c => term_putchar c t) buf t1.

(** The characters of a list, written one after the other. *)
Definition term_putchars (l : list Z) (t : Terminal) : Terminal :=
  fold_left (fun t c => term_putchar c t) l t.

(** The flag test of [term_printf],
    [if (fmt[0] == '0') { zero_pad = 1; fmt++; }]: the value of [zero_pad]
    and the rest of the format. *)
Definition zero_flag (fmt : string) : Z * string :=
  match fmt with
  | String c rest => if char_code c =? 48 then (1, rest) else (0, fmt)
  | EmptyString => (0, fmt)
  end.

(** The width loop of [term_printf],
    [while (fmt[0] >= '0' && fmt[0] <= '9') { width = width * 10 + (fmt[0] - '0'); fmt++; }]:
    the width and the rest of the format. *)
Fixpoint parse_width (width : Z) (fmt : string) : Z * string :=
  match fmt with
  | String c rest =>
      if (char_code c >=? 48) && (char_code c <=? 57)
      then parse_width (int32 (int32 (width * 10) + (char_code c - 48))) rest
      else (width, fmt)
  | EmptyString => (width, fmt)
  end.

(** What follows a ['%']: [zero_pad], [width] and the format from the
    conversion character on. *)
Definition directive (fmt : string) : Z * Z * string :=
  let (zero_pad, fmt) := zero_flag fmt in
  let (width, fmt) := parse_width 0 fmt in
  (zero_pad, width, fmt).

(** The digit count of [%x], [while (tmp) { width++; tmp >>= 4; }]; [tmp]
    is unsigned, so it is non-zero when it is positive. *)
Equations? hex_width (tmp width : Z) : Z by wf (Z.to_nat tmp) lt :=
  hex_width tmp width with inspect (0 <? tmp) := {
    | exist _ true _ => hex_width (Z.shiftr tmp 4) (width + 1)
    | exist _ false _ => width }.
Proof.
  apply Z.ltb_lt in e. rewrite Z.shiftr_div_pow2 by lia.
  pose proof (Z.div_lt tmp (2 ^ 4) ltac:(lia) ltac:(lia)).
  pose proof (Z.div_pos tmp (2 ^ 4) ltac:(lia) ltac:(lia)). lia.
Qed.

(** The [switch] of [term_printf] on the conversion character: the arguments left and the
    terminal after the conversion [spec] with the width [width].  There is
    no result where C gives the call no meaning: [va_arg] finds no argument
    or one of the other kind, or the format ends inside the directive, so
    that the [fmt++] after the switch steps over its terminator. *)
Definition conversion (spec width : Z) (args : list vararg) (t : Terminal)
  : option (list vararg * Terminal) :=
  if spec =? 0 then None
  else if spec =? 100 then
    match args with
    | VInt v :: args' => Some (args', term_putdec v t)
    | _ => None
    end
  else if spec =? 117 then
    match args with
    | VInt v :: args' =>
        let val := uint32 v in
        Some (args',
              if val =? 0 then term_putchar 48 t
              else term_putchars (dec_loop val []) t)
    | _ => None
    end
  else if (spec =? 120) || (spec =? 88) then
    match args with
    | VInt v :: args' =>
        let val := uint32 v in
        let width :=
          if width =? 0 then (if val =? 0 then 1 else hex_width val 0)
          else width in
        Some (args', term_puthex val width t)
    | _ => None
    end
  else if spec =? 115 then
    match args with
    | VStr s :: args' =>
        Some (args', match s with Some s => term_puts s t | None => t end)
    | _ => None
    end
  else if spec =? 99 then
    match args with
    | VInt v :: args' => Some (args', term_putchar v t)
    | _ => None
    end
  else if spec =? 37 then Some (args, term_putchar 37 t)
  else Some (args, term_putchar spec (term_putchar 37 t)).

(** [term_printf(fmt, ...)], the arguments behind the ellipsis being
    [args]. *)
Equations? term_printf (fmt : string) (args : list vararg) (t : Terminal)
  : option Terminal by wf (String.length fmt) lt :=
  term_printf EmptyString args t := Some t;
  term_printf (String c fmt1) args t with inspect (char_code c =? 0) := {
    | exist _ true _ => Some t
    | exist _ false _ with inspect (char_code c =? 37) := {
      | exist _ false _ => term_printf fmt1 args (term_putchar (char_code c) t)
      | exist _ true _ with inspect (directive fmt1) := {
        | exist _ (_, width, EmptyString) _ => None
        | exist _ (_, width, String s fmt3) _
            with inspect (conversion (char_code s) width args t) := {
          | exist _ None _ => None
          | exist _ (Some (args', t')) _ => term_printf fmt3 args' t' } } } }.
Proof.
  assert (Hw : forall (f : string) (w : Z),
             (String.length (snd (parse_width w f)) <= String.length f)%nat).
  { induction f as [|a f IH]; intros w; cbn [parse_width]; [cbn; lia|].
    destruct ((char_code a >=? 48) && (char_code a <=? 57)).
    - specialize (IH (int32 (int32 (w * 10) + (char_code a - 48)))).
      cbn [String.length]. lia.
    - cbn. lia. }
  unfold directive in e1.
  assert (Hz : (String.length (snd (zero_flag fmt1)) <= String.length fmt1)%nat).
  { destruct fmt1 as [|a f]; cbn [zero_flag]; [cbn; lia|].
    destruct (char_code a =? 48); cbn; lia. }
  destruct (zero_flag fmt1) as [zp f1]. cbn [snd] in Hz.
  specialize (Hw f1 0).
  destruct (parse_width 0 f1) as [w f2]. cbn [snd] in Hw.
  injection e1 as _ _ Hf. subst f2. cbn [String.length] in *. lia.
Qed.

(** Where [term_putchar] leaves the cursor and the character memory,
    before the scroll test. *)
Definition after_char (c : Z) (t : Terminal) : Terminal :=
  if c =? 10 then
    {| vram := vram t; cursor_row := cursor_row t + 1; cursor_col := 0 |}
  else if c =? 13 then
    {| vram := vram t; cursor_row := cursor_row t; cursor_col := 0 |}
  else if c =? 8 then
    {| vram := vram t; cursor_row := cursor_row t;
       cursor_col := if 0 <? cursor_col t then cursor_col t - 1 else cursor_col t |}
  else
    {| vram := store8 (cursor_row t * TERM_COLS th + cursor_col t) c (vram t);
       cursor_row := if cursor_col t + 1 <? TERM_COLS th then cursor_row t
                     else cursor_row t + 1;
       cursor_col := if cursor_col t + 1 <? TERM_COLS th then cursor_col t + 1 else 0 |}.

(** The cursor is on the screen. *)
Definition cursor_ok (t : Terminal) : Prop :=
  0 <= cursor_row t < TERM_ROWS th /\ 0 <= cursor_col t < TERM_COLS th.

(** The header describes a screen: at least one row and one column, and a
    number of cells that an [int] can hold. *)
Definition screen_ok : Prop :=
  0 < TERM_COLS th /\ 0 < TERM_ROWS th /\ TERM_ROWS th * TERM_COLS th < 2 ^ 31.

End Screen.

(** The value of a string of decimal digits. *)
Definition dec_value (l : list Z) : Z :=
  fold_left (fun acc c => 10 * acc + (c - 48)) l 0.

(** The value of a string of upper-case hexadecimal digits. *)
Definition hex_digit_value (c : Z) : Z := if c <? 65 then c - 48 else c - 55.

Definition hex_value (l : list Z) : Z :=
  fold_left (fun acc c => 16 * acc + hex_digit_value c) l 0.

(** The characters [term_puthex] prints for [n] digits, first one first. *)
Fixpoint hex_chars (val : Z) (n : nat) : list Z :=
  match n with
  | O => []
  | S n' =>
      nth (Z.to_nat (Z.land (Z.shiftr (uint32 val) (Z.of_nat n' * 4)) 15)) hex 0
      :: hex_chars val n'
  end.


(** The constants of the absent terminal.h, for the sample runs: the
    header comment of terminal.c gives a display of 40 by 30 characters,
    and [TERM_SIZE] is taken to be the number of its cells. *)
Definition pocket_term : terminal_h :=
  {| TERM_COLS := 40; TERM_ROWS := 30; TERM_SIZE := 1200 |}.

(** A terminal with an empty character memory and the cursor at
    ([row], [col]). *)
Definition term_at (row col : Z) : Terminal :=
  {| vram := fun _ => 0; cursor_row := row; cursor_col := col |}.

Definition term0 : Terminal :=
  {| vram := fun _ => 0; cursor_row := 0; cursor_col := 0 |}.

End Terminal.

(** ** dataslot.c: the calls of [term_printf] *)

(** The text of a newline. *)
Definition nl : string := String (ascii_of_nat 10) EmptyString.

(** The call of [term_printf] behind each event of the diagnostic trace:
    the format string of dataslot.c and the arguments passed with it. *)
Definition format_of (m : term_msg) : string * list Terminal.vararg :=
  match m with
  | wait_initial_status s =>
      ("wait: initial status=%x" ++ nl, [Terminal.VInt s])
  | wait_ACK_high =>
      ("wait: ACK high, waiting to clear" ++ nl, [])
  | wait_timeout_at_clear t =>
      ("wait: timeout at clear, t=%d" ++ nl, [Terminal.VInt t])
  | wait_ACK_cleared =>
      ("wait: ACK cleared" ++ nl, [])
  | wait_timeout_at_ack t =>
      ("wait: timeout at ack, t=%d" ++ nl, [Terminal.VInt t])
  | wait_got_ACK =>
      ("wait: got ACK" ++ nl, [])
  | wait_timeout_at_done t s =>
      ("wait: timeout at done, t=%d s=%x" ++ nl, [Terminal.VInt t; Terminal.VInt s])
  | wait_got_DONE =>
      ("wait: got DONE" ++ nl, [])
  | wait_final_status s err =>
      ("wait: final status=%x err=%d" ++ nl, [Terminal.VInt s; Terminal.VInt err])
  | DS_parameters slot off br len =>
      ("DS: slot=%d off=%x br=%x len=%x" ++ nl,
       [Terminal.VInt slot; Terminal.VInt off; Terminal.VInt br; Terminal.VInt len])
  | DS_status_before s =>
      ("DS: status before=%x" ++ nl, [Terminal.VInt s])
  | DS_status_after s result =>
      ("DS: status after=%x result=%d" ++ nl, [Terminal.VInt s; Terminal.VInt result])
  | DS_data p =>
      ("DS: data=%02x%02x%02x%02x %02x%02x%02x%02x" ++ nl, map Terminal.VInt p)
  end%string.

(** * Properties *)

(** ** The busy-wait loop *)

Lemma TIMEOUT_LOOPS_succ :
  TIMEOUT_LOOPS = Z.of_nat (S (Z.to_nat (TIMEOUT_LOOPS - 1))).
Proof.
  rewrite Nat2Z.inj_succ, Z2Nat.id; unfold TIMEOUT_LOOPS; lia.
Qed.

Section SpinFacts.

Variable bridge : Device.

Lemma spin_step (cond : Z -> bool) (timeout : Z) (w : World) :
  spin bridge cond timeout w =
    if cond (status_of bridge w) then
      if timeout - 1 <=? 0 then (TimedOut (timeout - 1), spun w)
      else spin bridge cond (timeout - 1) (spun w)
    else (Exited timeout, spun w).
Proof.
  funelim (spin bridge cond timeout w).
  - rewrite e. reflexivity.
  - rewrite e, e0. reflexivity.
  - rewrite e, e0. reflexivity.
Qed.

Lemma status_of_at (w : World) :
  status_of bridge w = status_at bridge w (polls w + 0).
Proof. unfold status_of, status_at. now rewrite Nat.add_0_r. Qed.

Lemma spun_spun_n (n : nat) (w : World) : spun_n n (spun w) = spun_n (S n) w.
Proof.
  unfold spun_n, spun; simpl. f_equal; lia.
Qed.

Lemma spun_is_spun_n (w : World) : spun w = spun_n 1 w.
Proof. unfold spun_n, spun; simpl. f_equal; lia. Qed.

(** A loop started with a positive countdown [S n] evaluates its condition
    [S j] times for some [j <= n]: the first [j] evaluations are true, and
    either the last one is false (the loop exits), or it is true and the
    countdown has reached zero. *)
Lemma spin_cases (cond : Z -> bool) :
  forall (n : nat) (timeout : Z) (w : World),
    timeout = Z.of_nat (S n) ->
    exists j : nat,
      (j <= n)%nat /\
      snd (spin bridge cond timeout w) = spun_n (S j) w /\
      (forall k, (k < j)%nat -> cond (status_at bridge w (polls w + k)) = true) /\
      ((fst (spin bridge cond timeout w) = TimedOut 0 /\ j = n /\
        cond (status_at bridge w (polls w + n)) = true) \/
       (fst (spin bridge cond timeout w) = Exited (timeout - Z.of_nat j) /\
        cond (status_at bridge w (polls w + j)) = false)).
Proof.
  induction n as [|n IH]; intros timeout w Ht; rewrite spin_step, status_of_at.
  - destruct (cond (status_at bridge w (polls w + 0))) eqn:Hc.
    + replace (timeout - 1 <=? 0) with true by (symmetry; apply Z.leb_le; lia).
      exists 0%nat. simpl. repeat split; [lia | apply spun_is_spun_n | lia |].
      left. repeat split. f_equal; lia.
    + exists 0%nat. simpl. repeat split; [lia | apply spun_is_spun_n | lia |].
      right. split; [f_equal; lia | exact Hc].
  - destruct (cond (status_at bridge w (polls w + 0))) eqn:Hc.
    + replace (timeout - 1 <=? 0) with false by (symmetry; apply Z.leb_gt; lia).
      destruct (IH (timeout - 1) (spun w)) as (j & Hj & Hw & Hpre & Hend); [lia|].
      exists (S j). repeat split.
      * lia.
      * rewrite Hw. apply spun_spun_n.
      * intros [|k] Hk; [exact Hc|].
        specialize (Hpre k ltac:(lia)).
        unfold status_at in *. simpl in Hpre.
        now rewrite Nat.add_succ_r.
      * unfold status_at in *. simpl in Hend.
        rewrite !Nat.add_succ_r.
        destruct Hend as [(Hr & -> & Hl)|(Hr & Hl)].
        -- left. repeat split; assumption.
        -- right. split; [|assumption].
           rewrite Hr. f_equal. lia.
    + exists 0%nat. simpl. repeat split; [lia | apply spun_is_spun_n | lia |].
      right. split; [f_equal; lia | exact Hc].
Qed.

End SpinFacts.

(** ** The phases of the waiter *)

Lemma budget_Z : Z.of_nat budget = TIMEOUT_LOOPS.
Proof. symmetry. exact TIMEOUT_LOOPS_succ. Qed.

Global Opaque budget.

Lemma after_after (w : World) (a b c d : nat) (n1 n2 : list term_msg) :
  after (after w a b n1) c d n2 = after w (a + c) (b + d) (n2 ++ n1).
Proof.
  unfold after; simpl. rewrite app_assoc. f_equal; lia.
Qed.

Lemma after_eq (w : World) (a b a' b' : nat) (n n' : list term_msg) :
  a = a' -> b = b' -> n = n' -> after w a b n = after w a' b' n'.
Proof. now intros -> -> ->. Qed.

Lemma polls_after (w : World) (a b : nat) (n : list term_msg) :
  polls (after w a b n) = (polls w + a)%nat.
Proof. reflexivity. Qed.

Lemma status_at_after (bridge : Device) (w : World) (a b : nat)
    (n : list term_msg) (k : nat) :
  status_at bridge (after w a b n) k = status_at bridge w k.
Proof. reflexivity. Qed.

(** Brings a world reached through [after] to the form [after w _ _ _]. *)
Ltac norm_after :=
  rewrite ?after_after, ?status_at_after, ?polls_after, ?Nat.add_0_r;
  cbn [app].

Section WaiterFacts.

Variable hdr : dataslot_h.
Variable bridge : Device.

Local Abbreviation st := (status_at bridge).

Lemma DS_STATUS_after (w : World) :
  DS_STATUS bridge w = (st w (polls w), after w 1 0 []).
Proof.
  unfold DS_STATUS, after, status_of, status_at; simpl.
  do 2 f_equal; lia.
Qed.

Lemma term_printf_after (m : term_msg) (w : World) :
  term_printf m w = (tt, after w 0 0 [m]).
Proof.
  unfold term_printf, after; simpl. do 2 f_equal; lia.
Qed.

Lemma spin_budget (cond : Z -> bool) (w : World) :
  exists j : nat,
    (j < budget)%nat /\
    (forall k, (k < j)%nat -> cond (st w (polls w + k)) = true) /\
    ((cond (st w (polls w + j)) = true /\ S j = budget /\
      spin bridge cond TIMEOUT_LOOPS w = (TimedOut 0, after w (S j) (S j) [])) \/
     (cond (st w (polls w + j)) = false /\
      spin bridge cond TIMEOUT_LOOPS w =
        (Exited (TIMEOUT_LOOPS - Z.of_nat j), after w (S j) (S j) []))).
Proof.
  pose proof budget_Z as HB.
  generalize dependent budget.
  intros [|n] HB.
  { exfalso. unfold TIMEOUT_LOOPS in HB. lia. }
  destruct (spin_cases bridge cond n TIMEOUT_LOOPS w) as (j & Hj & Hw & Hpre & Hend).
  { symmetry; exact HB. }
  exists j. split; [apply Nat.lt_succ_r; exact Hj|]. split; [exact Hpre|].
  destruct (spin bridge cond TIMEOUT_LOOPS w) as [o w1]; cbn [fst snd] in Hw, Hend.
  destruct Hend as [(-> & -> & Hl)|(-> & Hl)]; [left|right]; subst w1; auto.
Qed.

(** Completion phase and result extraction. *)
Lemma wait_done_cases (w : World) :
  exists j : nat,
    (j < budget)%nat /\
    (forall k, (k < j)%nat -> done_set hdr (st w (polls w + k)) = false) /\
    ((done_set hdr (st w (polls w + j)) = false /\ S j = budget /\
      wait_done hdr bridge w =
        (-2, after w (S (S j)) (S j)
               [wait_timeout_at_done 0 (st w (polls w + S j))])) \/
     (done_set hdr (st w (polls w + j)) = true /\
      wait_done hdr bridge w =
        (result_of hdr (st w (polls w + S j)),
         after w (S (S j)) (S j)
           [wait_final_status (st w (polls w + S j))
              (int32 (err_field hdr (st w (polls w + S j))));
            wait_got_DONE]))).
Proof.
  destruct (spin_budget (fun s => negb (done_set hdr s)) w)
    as (j & Hj & Hpre & Hend).
  exists j. split; [exact Hj|]. split.
  { intros k Hk. apply negb_true_iff. now apply Hpre. }
  unfold wait_done, spin_while, bind.
  destruct Hend as [(Hl & HS & ->)|(Hl & ->)].
  - left. apply negb_true_iff in Hl. split; [exact Hl|]. split; [exact HS|].
    rewrite DS_STATUS_after, term_printf_after. unfold ret.
    norm_after. f_equal. apply after_eq; try lia. reflexivity.
  - right. apply negb_false_iff in Hl. split; [exact Hl|].
    rewrite term_printf_after, DS_STATUS_after, term_printf_after.
    unfold ret, result_of.
    norm_after. f_equal. apply after_eq; try lia. reflexivity.
Qed.

(** Acknowledgment phase. *)
Lemma wait_ack_cases (w : World) :
  exists i : nat,
    (i < budget)%nat /\
    (forall k, (k < i)%nat -> ack_set hdr (st w (polls w + k)) = false) /\
    ((ack_set hdr (st w (polls w + i)) = false /\ S i = budget /\
      wait_ack hdr bridge w =
        (-1, after w (S i) (S i) [wait_timeout_at_ack 0])) \/
     (ack_set hdr (st w (polls w + i)) = true /\
      wait_ack hdr bridge w =
        wait_done hdr bridge (after w (S i) (S i) [wait_got_ACK]))).
Proof.
  destruct (spin_budget (fun s => negb (ack_set hdr s)) w)
    as (i & Hi & Hpre & Hend).
  exists i. split; [exact Hi|]. split.
  { intros k Hk. apply negb_true_iff. now apply Hpre. }
  unfold wait_ack, spin_while, bind.
  destruct Hend as [(Hl & HS & ->)|(Hl & ->)].
  - left. apply negb_true_iff in Hl. split; [exact Hl|]. split; [exact HS|].
    rewrite term_printf_after. unfold ret.
    norm_after. reflexivity.
  - right. apply negb_false_iff in Hl. split; [exact Hl|].
    rewrite term_printf_after. norm_after. reflexivity.
Qed.

(** The start of the waiter when ACK is not pending: no drain. *)
Lemma wait_complete_nodrain (w : World) :
  ack_set hdr (st w (polls w + 1)) = false ->
  dataslot_wait_complete hdr bridge w =
    wait_ack hdr bridge (after w 2 0 [wait_initial_status (st w (polls w))]).
Proof.
  intros Hd. unfold dataslot_wait_complete, bind.
  rewrite DS_STATUS_after, term_printf_after, DS_STATUS_after.
  norm_after. rewrite Hd. reflexivity.
Qed.

(** The start of the waiter when ACK is pending: the drain phase. *)
Lemma wait_complete_drain (w : World) :
  ack_set hdr (st w (polls w + 1)) = true ->
  exists i : nat,
    (i < budget)%nat /\
    (forall k, (k < i)%nat -> ack_set hdr (st w (polls w + 2 + k)) = true) /\
    ((ack_set hdr (st w (polls w + 2 + i)) = true /\ S i = budget /\
      dataslot_wait_complete hdr bridge w =
        (-3, after w (2 + S i) (S i)
               [wait_timeout_at_clear 0; wait_ACK_high;
                wait_initial_status (st w (polls w))])) \/
     (ack_set hdr (st w (polls w + 2 + i)) = false /\
      dataslot_wait_complete hdr bridge w =
        wait_ack hdr bridge
          (after w (2 + S i) (S i)
             [wait_ACK_cleared; wait_ACK_high;
              wait_initial_status (st w (polls w))]))).
Proof.
  intros Hd.
  set (w2 := after w 2 0 [wait_ACK_high; wait_initial_status (st w (polls w))]).
  destruct (spin_budget (ack_set hdr) w2) as (i & Hi & Hpre & Hend).
  exists i. split; [exact Hi|]. split; [exact Hpre|].
  assert (Hrun : dataslot_wait_complete hdr bridge w =
            (let (o, w') := spin bridge (ack_set hdr) TIMEOUT_LOOPS w2 in
             match o with
             | TimedOut t => term_printf (wait_timeout_at_clear t) ;; ret (-3)
             | Exited _ => term_printf wait_ACK_cleared ;; wait_ack hdr bridge
             end w')).
  { unfold dataslot_wait_complete, bind, spin_while.
    rewrite DS_STATUS_after, term_printf_after, DS_STATUS_after.
    norm_after. rewrite Hd. rewrite term_printf_after. norm_after.
    reflexivity. }
  rewrite Hrun.
  destruct Hend as [(Hl & HS & ->)|(Hl & ->)]; [left|right].
  - split; [exact Hl|]. split; [exact HS|].
    cbv beta iota. unfold bind, ret. rewrite term_printf_after.
    unfold w2. norm_after. reflexivity.
  - split; [exact Hl|].
    cbv beta iota. unfold bind. rewrite term_printf_after.
    unfold w2. norm_after. reflexivity.
Qed.

End WaiterFacts.

(** ** The ways the waiter returns *)

Section WaiterSummary.

Variable hdr : dataslot_h.
Variable bridge : Device.

Local Abbreviation st := (status_at bridge).

Lemma wait_ack_summary (w : World) :
  exists (e : wait_exit) (n2 n3 : nat),
    (1 <= n2 <= budget)%nat /\ (n3 <= budget)%nat /\
    ack_exit_ok hdr bridge w e n2 n3 /\
    wait_ack hdr bridge w =
      (exit_code hdr e, after w (n2 + n3 + tail_loads e) (n2 + n3) (ack_trace hdr e)).
Proof.
  destruct (wait_ack_cases hdr bridge w) as (i & Hi & _ & [(_ & HS & Hr)|(_ & Hr)]).
  - exists exit_ack_timeout, (S i), 0%nat. rewrite Hr. simpl.
    repeat split; try lia. f_equal. apply after_eq; lia || reflexivity.
  - rewrite Hr.
    destruct (wait_done_cases hdr bridge (after w (S i) (S i) [wait_got_ACK]))
      as (j & Hj & _ & [(_ & HS & Hd)|(Hl & Hd)]);
      rewrite Hd; norm_after; norm_after.
    + exists (exit_done_timeout (st w (polls w + S i + S j))), (S i), (S j).
      simpl. repeat split; try lia. f_equal. apply after_eq; lia || reflexivity.
    + exists (exit_done (st w (polls w + S i + S j))), (S i), (S j).
      simpl. repeat split; try lia.
      * rewrite <- Hl. rewrite polls_after, status_at_after. do 2 f_equal. lia.
      * f_equal. apply after_eq; lia || reflexivity.
Qed.

Lemma ack_exit_ok_shift (w : World) (e : wait_exit) (a b n1 n2 n3 : nat)
    (new : list term_msg) :
  a = (2 + n1)%nat ->
  ack_exit_ok hdr bridge (after w a b new) e n2 n3 -> wait_exit_ok hdr bridge w e n1 n2 n3.
Proof.
  intros -> H. destruct e; simpl in *.
  - destruct H.
  - exact H.
  - rewrite status_at_after in H.
    replace (polls w + 2 + n1 + n2 + n3)%nat
      with (polls w + S (S n1) + n2 + n3)%nat by lia. exact H.
  - rewrite !status_at_after in H.
    replace (polls w + 2 + n1 + n2 + n3)%nat
      with (polls w + S (S n1) + n2 + n3)%nat by lia. exact H.
Qed.

(** Every call of the waiter returns, through one of the four exits. *)
Lemma wait_complete_summary (w : World) :
  exists (e : wait_exit) (n1 n2 n3 : nat),
    (n1 <= budget)%nat /\ (n2 <= budget)%nat /\ (n3 <= budget)%nat /\
    (n1 = 0%nat <-> ack_set hdr (st w (polls w + 1)) = false) /\
    wait_exit_ok hdr bridge w e n1 n2 n3 /\
    dataslot_wait_complete hdr bridge w =
      (exit_code hdr e,
       after w (2 + n1 + n2 + n3 + tail_loads e) (n1 + n2 + n3)
         (exit_trace hdr (st w (polls w)) (ack_set hdr (st w (polls w + 1))) e)).
Proof.
  destruct (ack_set hdr (st w (polls w + 1))) eqn:Hd.
  - destruct (wait_complete_drain hdr bridge w Hd)
      as (i & Hi & _ & [(_ & HS & Hr)|(_ & Hr)]).
    + exists exit_clear_timeout, (S i), 0%nat, 0%nat. rewrite Hr. simpl.
      repeat split; try lia; try discriminate; try exact Hd.
      f_equal. apply after_eq; [lia | lia | reflexivity].
    + rewrite Hr.
      destruct (wait_ack_summary
                  (after w (2 + S i) (S i)
                     [wait_ACK_cleared; wait_ACK_high;
                      wait_initial_status (st w (polls w))]))
        as (e & n2 & n3 & Hn2 & Hn3 & Hok & ->).
      exists e, (S i), n2, n3. norm_after.
      repeat split; try lia; try discriminate.
      * eapply ack_exit_ok_shift; [reflexivity | exact Hok].
      * f_equal. apply after_eq; [lia | lia |].
        destruct e; try reflexivity. destruct Hok.
  - rewrite (wait_complete_nodrain hdr bridge w Hd).
    destruct (wait_ack_summary
                (after w 2 0 [wait_initial_status (st w (polls w))]))
      as (e & n2 & n3 & Hn2 & Hn3 & Hok & ->).
    exists e, 0%nat, n2, n3. norm_after.
    repeat split; try lia.
    + eapply ack_exit_ok_shift; [reflexivity | exact Hok].
    + f_equal. apply after_eq; [lia | lia |].
      destruct e; try reflexivity. destruct Hok.
Qed.

End WaiterSummary.

(** ** Runs against a bridge with a known behaviour *)

Lemma lt_budget_Z (i : nat) : (i < budget)%nat <-> Z.of_nat i < TIMEOUT_LOOPS.
Proof.
  rewrite <- budget_Z. split; [apply Nat2Z.inj_lt | apply Nat2Z.inj_lt].
Qed.

Lemma budget_pos : (0 < budget)%nat.
Proof. apply lt_budget_Z. reflexivity. Qed.

(** The first poll at which a condition holds is unique. *)
Lemma first_true_unique (P : nat -> bool) (i j : nat) :
  (forall k, (k < i)%nat -> P k = false) -> P i = true ->
  (forall k, (k < j)%nat -> P k = false) -> P j = true -> i = j.
Proof.
  intros Hi Pi Hj Pj.
  destruct (Nat.lt_trichotomy i j) as [H|[H|H]]; [|exact H|].
  - rewrite (Hj i H) in Pi. discriminate.
  - rewrite (Hi j H) in Pj. discriminate.
Qed.

Section Scenarios.

Variable hdr : dataslot_h.
Variable bridge : Device.

Local Abbreviation st := (status_at bridge).

(** ACK never shows during the acknowledgment phase. *)
Lemma wait_ack_never (w : World) :
  (forall k, (k < budget)%nat -> ack_set hdr (st w (polls w + k)) = false) ->
  wait_ack hdr bridge w =
    (-1, after w budget budget [wait_timeout_at_ack 0]).
Proof.
  intros Hall.
  destruct (wait_ack_cases hdr bridge w) as (i & Hi & _ & [(_ & HS & Hr)|(Hl & _)]).
  - rewrite Hr, HS. reflexivity.
  - rewrite (Hall i Hi) in Hl. discriminate.
Qed.

(** ACK first shows at poll [i] of the acknowledgment phase. *)
Lemma wait_ack_at (w : World) (i : nat) :
  (i < budget)%nat ->
  (forall k, (k < i)%nat -> ack_set hdr (st w (polls w + k)) = false) ->
  ack_set hdr (st w (polls w + i)) = true ->
  wait_ack hdr bridge w =
    wait_done hdr bridge (after w (S i) (S i) [wait_got_ACK]).
Proof.
  intros Hi Hpre Hset.
  destruct (wait_ack_cases hdr bridge w) as (i' & Hi' & Hpre' & [(Hl & HS & _)|(Hl & Hr)]).
  - assert (i = i') as <-.
    { destruct (Nat.lt_trichotomy i i') as [H|[H|H]]; [|exact H|lia].
      rewrite (Hpre' i H) in Hset. discriminate. }
    congruence.
  - rewrite Hr.
    now rewrite (first_true_unique (fun k => ack_set hdr (st w (polls w + k)))
                   i i' Hpre Hset Hpre' Hl).
Qed.

(** DONE never shows during the completion phase. *)
Lemma wait_done_never (w : World) :
  (forall k, (k < budget)%nat -> done_set hdr (st w (polls w + k)) = false) ->
  wait_done hdr bridge w =
    (-2, after w (S budget) budget
           [wait_timeout_at_done 0 (st w (polls w + budget))]).
Proof.
  intros Hall.
  destruct (wait_done_cases hdr bridge w) as (j & Hj & _ & [(_ & HS & Hr)|(Hl & _)]).
  - rewrite Hr, HS. reflexivity.
  - rewrite (Hall j Hj) in Hl. discriminate.
Qed.

(** DONE first shows at poll [j] of the completion phase. *)
Lemma wait_done_at (w : World) (j : nat) :
  (j < budget)%nat ->
  (forall k, (k < j)%nat -> done_set hdr (st w (polls w + k)) = false) ->
  done_set hdr (st w (polls w + j)) = true ->
  wait_done hdr bridge w =
    (result_of hdr (st w (polls w + S j)),
     after w (S (S j)) (S j)
       [wait_final_status (st w (polls w + S j))
          (int32 (err_field hdr (st w (polls w + S j))));
        wait_got_DONE]).
Proof.
  intros Hj Hpre Hset.
  destruct (wait_done_cases hdr bridge w) as (j' & Hj' & Hpre' & [(Hl & HS & _)|(Hl & Hr)]).
  - assert (j = j') as <-.
    { destruct (Nat.lt_trichotomy j j') as [H|[H|H]]; [|exact H|lia].
      rewrite (Hpre' j H) in Hset. discriminate. }
    congruence.
  - rewrite Hr.
    now rewrite (first_true_unique (fun k => done_set hdr (st w (polls w + k)))
                   j j' Hpre Hset Hpre' Hl).
Qed.

(** ACK is pending at the start and stays up for the whole drain
    budget. *)
Lemma wait_complete_stuck_ack (w : World) :
  (forall k, (1 <= k)%nat -> Z.of_nat k <= TIMEOUT_LOOPS + 1 ->
             ack_set hdr (st w (polls w + k)) = true) ->
  dataslot_wait_complete hdr bridge w =
    (-3, after w (2 + budget) budget
           [wait_timeout_at_clear 0; wait_ACK_high;
            wait_initial_status (st w (polls w))]).
Proof.
  intros Hall.
  assert (Hd : ack_set hdr (st w (polls w + 1)) = true).
  { apply Hall; [lia | unfold TIMEOUT_LOOPS; lia]. }
  destruct (wait_complete_drain hdr bridge w Hd)
    as (i & Hi & _ & [(_ & HS & Hr)|(Hl & _)]).
  - rewrite Hr, HS. reflexivity.
  - replace (polls w + 2 + i)%nat with (polls w + (2 + i))%nat in Hl by lia.
    rewrite Hall in Hl; [discriminate | lia |].
    apply lt_budget_Z in Hi. lia.
Qed.

(** No stale ACK, and ACK never shows. *)
Lemma wait_complete_no_ack (w : World) :
  (forall k, (1 <= k)%nat -> Z.of_nat k <= TIMEOUT_LOOPS + 1 ->
             ack_set hdr (st w (polls w + k)) = false) ->
  dataslot_wait_complete hdr bridge w =
    (-1, after w (2 + budget) budget
           [wait_timeout_at_ack 0; wait_initial_status (st w (polls w))]).
Proof.
  intros Hall.
  rewrite wait_complete_nodrain
    by (apply Hall; [lia | unfold TIMEOUT_LOOPS; lia]).
  rewrite wait_ack_never; [norm_after; reflexivity|].
  intros k Hk. rewrite status_at_after, polls_after.
  replace (polls w + 2 + k)%nat with (polls w + (2 + k))%nat by lia.
  apply Hall; [lia|]. apply lt_budget_Z in Hk. lia.
Qed.

(** No stale ACK; ACK first shows at poll [i] of its phase. *)
Lemma wait_complete_acked (w : World) (i : nat) :
  ack_set hdr (st w (polls w + 1)) = false ->
  (i < budget)%nat ->
  (forall k, (k < i)%nat -> ack_set hdr (st w (polls w + 2 + k)) = false) ->
  ack_set hdr (st w (polls w + 2 + i)) = true ->
  dataslot_wait_complete hdr bridge w =
    wait_done hdr bridge
      (after w (2 + S i) (S i)
         [wait_got_ACK; wait_initial_status (st w (polls w))]).
Proof.
  intros Hd Hi Hpre Hset.
  rewrite (wait_complete_nodrain hdr bridge w Hd).
  rewrite (wait_ack_at _ i Hi); [norm_after; reflexivity | exact Hpre | exact Hset].
Qed.

(** A stale ACK that the bridge drops at poll [j] of the drain loop. *)
Lemma wait_complete_drained (w : World) (j : nat) :
  ack_set hdr (st w (polls w + 1)) = true ->
  (j < budget)%nat ->
  (forall k, (k < j)%nat -> ack_set hdr (st w (polls w + 2 + k)) = true) ->
  ack_set hdr (st w (polls w + 2 + j)) = false ->
  dataslot_wait_complete hdr bridge w =
    wait_ack hdr bridge
      (after w (2 + S j) (S j)
         [wait_ACK_cleared; wait_ACK_high;
          wait_initial_status (st w (polls w))]).
Proof.
  intros Hd Hj Hpre Hclr.
  destruct (wait_complete_drain hdr bridge w Hd)
    as (j' & Hj' & Hpre' & [(Hl & HS & _)|(Hl & Hr)]).
  - exfalso.
    destruct (Nat.lt_trichotomy j j') as [H|[H|H]]; [| |lia].
    + rewrite (Hpre' j H) in Hclr. discriminate.
    + subst j'. rewrite Hl in Hclr. discriminate.
  - rewrite Hr.
    assert (j = j') as <-; [|reflexivity].
    apply (first_true_unique
             (fun k => negb (ack_set hdr (st w (polls w + 2 + k))))).
    + intros k Hk. now rewrite Hpre.
    + now rewrite Hclr.
    + intros k Hk. now rewrite Hpre'.
    + now rewrite Hl.
Qed.

End Scenarios.

(** ** The slot operations *)

Section Operations.

Variable hdr : dataslot_h.
Variable bridge : Device.

Local Abbreviation st := (status_at bridge).

Lemma dataslot_read_rejected (slot_id offset dest length : Z) (w : World) :
  outside_sdram (uint32 dest) = true ->
  dataslot_read hdr bridge slot_id offset dest length w = (-10, w).
Proof. intros H. unfold dataslot_read. rewrite H. reflexivity. Qed.

Lemma dataslot_write_rejected (slot_id offset src length : Z) (w : World) :
  outside_sdram (uint32 src) = true ->
  dataslot_write hdr bridge slot_id offset src length w = (-10, w).
Proof. intros H. unfold dataslot_write. rewrite H. reflexivity. Qed.

Lemma dataslot_read_accepted (slot_id offset dest length : Z) (w : World) :
  outside_sdram (uint32 dest) = false ->
  dataslot_read hdr bridge slot_id offset dest length w =
    let (result, w2) :=
      dataslot_wait_complete hdr bridge (read_issued hdr bridge slot_id offset dest length w) in
    (result,
     after w2 1 0
       [DS_data (dump8 (mem w2) (uint32 dest));
        DS_status_after (st w2 (polls w2)) result]).
Proof.
  intros H. unfold dataslot_read. rewrite H.
  cbv beta iota zeta delta
    [bind ret term_printf DS_STATUS load8 set_regs write_SLOT_ID
     write_SLOT_OFFSET write_BRIDGE_ADDR write_LENGTH write_COMMAND
     read_issued programmed status_at status_of dump8 after app
     regs mem polls spins term DS_SLOT_ID DS_SLOT_OFFSET DS_BRIDGE_ADDR
     DS_LENGTH DS_PARAM_ADDR DS_RESP_ADDR DS_COMMAND].
  match goal with
  | |- context [dataslot_wait_complete hdr bridge ?X] =>
      destruct (dataslot_wait_complete hdr bridge X) as [result w2]
  end.
  destruct w2 as [r2 m2 p2 s2 t2].
  do 2 f_equal; lia.
Qed.

Lemma dataslot_write_accepted (slot_id offset src length : Z) (w : World) :
  outside_sdram (uint32 src) = false ->
  dataslot_write hdr bridge slot_id offset src length w =
    dataslot_wait_complete hdr bridge (write_issued hdr slot_id offset src length w).
Proof.
  intros H. unfold dataslot_write. rewrite H. reflexivity.
Qed.

End Operations.

(** ** Integer facts *)

Lemma int32_small (x : Z) : - 2 ^ 31 <= x < 2 ^ 31 -> int32 x = x.
Proof.
  intros H. unfold int32. rewrite Z.mod_small; lia.
Qed.

Lemma uint32_small (x : Z) : 0 <= x < 2 ^ 32 -> uint32 x = x.
Proof. intros H. unfold uint32. now rewrite Z.mod_small. Qed.

Lemma uint32_range (x : Z) : 0 <= uint32 x < 2 ^ 32.
Proof. unfold uint32. apply Z.mod_pos_bound. reflexivity. Qed.

Lemma err_field_nonneg (hdr : dataslot_h) (s : Z) :
  0 <= s -> 0 <= err_field hdr s.
Proof.
  intros H. unfold err_field. apply Z.shiftr_nonneg, Z.land_nonneg. now left.
Qed.

(** With an error field that fits a positive [int], the waiter's result is
    the negated field. *)
Lemma result_of_fits (hdr : dataslot_h) (fs : Z) :
  0 <= err_field hdr fs < 2 ^ 31 -> result_of hdr fs = - err_field hdr fs.
Proof.
  intros H. unfold result_of. cbv zeta.
  rewrite (int32_small (err_field hdr fs)) by lia.
  destruct (err_field hdr fs =? 0) eqn:E.
  - apply Z.eqb_eq in E. lia.
  - apply int32_small. lia.
Qed.

(** ** Sample runs *)

Section Prompt.

Variable hdr : dataslot_h.
Variable bridge : Device.

Local Abbreviation st := (status_at bridge).

(** No stale ACK, then ACK at the first poll and DONE at the next. *)
Lemma wait_complete_prompt (w : World) :
  ack_set hdr (st w (polls w + 1)) = false ->
  ack_set hdr (st w (polls w + 2)) = true ->
  done_set hdr (st w (polls w + 3)) = true ->
  dataslot_wait_complete hdr bridge w =
    (result_of hdr (st w (polls w + 4)),
     after w 5 2
       [wait_final_status (st w (polls w + 4))
          (int32 (err_field hdr (st w (polls w + 4))));
        wait_got_DONE; wait_got_ACK; wait_initial_status (st w (polls w))]).
Proof.
  intros H1 H2 H3.
  rewrite (wait_complete_acked hdr bridge w 0 H1 budget_pos).
  - rewrite (wait_done_at hdr bridge _ 0 budget_pos).
    + norm_after.
      replace (polls w + (2 + 1) + 1)%nat with (polls w + 4)%nat by lia.
      reflexivity.
    + intros k Hk. lia.
    + rewrite status_at_after, polls_after.
      replace (polls w + (2 + 1) + 0)%nat with (polls w + 3)%nat by lia. exact H3.
  - intros k Hk. lia.
  - replace (polls w + 2 + 0)%nat with (polls w + 2)%nat by lia. exact H2.
Qed.

(** No stale ACK, ACK at poll [i] of its phase, and DONE never after. *)
Lemma wait_complete_no_done (w : World) (i : nat) :
  ack_set hdr (st w (polls w + 1)) = false ->
  Z.of_nat i < TIMEOUT_LOOPS ->
  (forall k, (k < i)%nat -> ack_set hdr (st w (polls w + 2 + k)) = false) ->
  ack_set hdr (st w (polls w + 2 + i)) = true ->
  (forall k, Z.of_nat k < TIMEOUT_LOOPS ->
             done_set hdr (st w (polls w + 3 + i + k)) = false) ->
  fst (dataslot_wait_complete hdr bridge w) = -2.
Proof.
  intros Hd Hi Hpre Hset Hnever.
  apply lt_budget_Z in Hi.
  rewrite (wait_complete_acked hdr bridge w i Hd Hi Hpre Hset).
  rewrite wait_done_never; [reflexivity|].
  intros k Hk. rewrite status_at_after, polls_after.
  replace (polls w + (2 + S i) + k)%nat with (polls w + 3 + i + k)%nat by lia.
  apply Hnever. now apply lt_budget_Z.
Qed.

(** A stale ACK dropped at poll [j] of the drain loop, ACK again at poll
    [i] of the acknowledgment loop, and DONE never after. *)
Lemma wait_complete_drained_no_done (w : World) (j i : nat) :
  ack_set hdr (st w (polls w + 1)) = true ->
  Z.of_nat j < TIMEOUT_LOOPS ->
  (forall k, (k < j)%nat -> ack_set hdr (st w (polls w + 2 + k)) = true) ->
  ack_set hdr (st w (polls w + 2 + j)) = false ->
  Z.of_nat i < TIMEOUT_LOOPS ->
  (forall k, (k < i)%nat -> ack_set hdr (st w (polls w + 3 + j + k)) = false) ->
  ack_set hdr (st w (polls w + 3 + j + i)) = true ->
  (forall k, Z.of_nat k < TIMEOUT_LOOPS ->
             done_set hdr (st w (polls w + 4 + j + i + k)) = false) ->
  fst (dataslot_wait_complete hdr bridge w) = -2.
Proof.
  intros Hd Hj Hpre Hclr Hi Hpre2 Hset Hnever.
  apply lt_budget_Z in Hj. apply lt_budget_Z in Hi.
  rewrite (wait_complete_drained hdr bridge w j Hd Hj Hpre Hclr).
  rewrite (wait_ack_at hdr bridge _ i Hi).
  - rewrite wait_done_never; [reflexivity|].
    intros k Hk. rewrite !status_at_after, !polls_after.
    replace (polls w + (2 + S j) + S i + k)%nat
      with (polls w + 4 + j + i + k)%nat by lia.
    apply Hnever. now apply lt_budget_Z.
  - intros k Hk. rewrite status_at_after, polls_after.
    replace (polls w + (2 + S j) + k)%nat with (polls w + 3 + j + k)%nat by lia.
    now apply Hpre2.
  - rewrite status_at_after, polls_after.
    replace (polls w + (2 + S j) + i)%nat with (polls w + 3 + j + i)%nat by lia.
    exact Hset.
Qed.

End Prompt.

Lemma run_prompt_error_3 :
  dataslot_wait_complete pocket_h (prompt_bridge 2 3) world0 =
    (-3, after world0 5 2
           [wait_final_status 15 3; wait_got_DONE; wait_got_ACK;
            wait_initial_status 0]).
Proof.
  rewrite wait_complete_prompt by reflexivity. reflexivity.
Qed.

(** ** The completion waiter *)


Lemma exit_trace_got_DONE (hdr : dataslot_h) (s0 : Z) (d : bool) (e : wait_exit) :
  In wait_got_DONE (exit_trace hdr s0 d e) -> exists fs, e = exit_done fs.
Proof.
  destruct e, d; simpl; intuition (try discriminate); eauto.
Qed.



(** C2. A bridge that never sets ACK (the status sampled at the start and
    the [TIMEOUT_LOOPS] polls of the acknowledgment loop all have ACK
    clear) makes the waiter return -1.  A bridge that sets ACK at poll [i]
    of the acknowledgment loop and shows no DONE at the [TIMEOUT_LOOPS]
    polls that follow makes it return -2, both when no ACK is pending at
    the start and when a stale ACK is dropped at poll [j] of the drain
    loop.  The two codes differ. *)
Theorem phase_isolation (hdr : dataslot_h) (bridge : Device) (w : World)
    (i j : nat) :
  ((forall k, (1 <= k)%nat -> Z.of_nat k <= TIMEOUT_LOOPS + 1 ->
              ack_set hdr (status_at bridge w (polls w + k)) = false) ->
   fst (dataslot_wait_complete hdr bridge w) = exit_code hdr exit_ack_timeout /\
   fst (dataslot_wait_complete hdr bridge w) = -1) /\
  (ack_set hdr (status_at bridge w (polls w + 1)) = false ->
   Z.of_nat i < TIMEOUT_LOOPS ->
   (forall k, (k < i)%nat ->
              ack_set hdr (status_at bridge w (polls w + 2 + k)) = false) ->
   ack_set hdr (status_at bridge w (polls w + 2 + i)) = true ->
   (forall k, Z.of_nat k < TIMEOUT_LOOPS ->
              done_set hdr (status_at bridge w (polls w + 3 + i + k)) = false) ->
   fst (dataslot_wait_complete hdr bridge w) = -2) /\
  (ack_set hdr (status_at bridge w (polls w + 1)) = true ->
   Z.of_nat j < TIMEOUT_LOOPS ->
   (forall k, (k < j)%nat ->
              ack_set hdr (status_at bridge w (polls w + 2 + k)) = true) ->
   ack_set hdr (status_at bridge w (polls w + 2 + j)) = false ->
   Z.of_nat i < TIMEOUT_LOOPS ->
   (forall k, (k < i)%nat ->
              ack_set hdr (status_at bridge w (polls w + 3 + j + k)) = false) ->
   ack_set hdr (status_at bridge w (polls w + 3 + j + i)) = true ->
   (forall k, Z.of_nat k < TIMEOUT_LOOPS ->
              done_set hdr (status_at bridge w (polls w + 4 + j + i + k)) = false) ->
   fst (dataslot_wait_complete hdr bridge w) = -2) /\
  (forall s, exit_code hdr exit_ack_timeout <> exit_code hdr (exit_done_timeout s)).
Proof.
  split; [|split; [|split]].
  - intros Hall. rewrite (wait_complete_no_ack hdr bridge w Hall). split; reflexivity.
  - apply wait_complete_no_done.
  - apply wait_complete_drained_no_done.
  - intros s. simpl. discriminate.
Qed.

Lemma phase_isolation_witness :
  fst (dataslot_wait_complete pocket_h (stuck_bridge 0) world0) = -1 /\
  fst (dataslot_wait_complete pocket_h (acking_bridge 2) world0) = -2 /\
  fst (dataslot_wait_complete pocket_h blink_bridge world0) = -2.
Proof.
  split; [|split].
  - apply (proj1 (phase_isolation pocket_h (stuck_bridge 0) world0 0 0)).
    intros k _ _. reflexivity.
  - apply (proj1 (proj2 (phase_isolation pocket_h (acking_bridge 2) world0 0 0))).
    + reflexivity.
    + reflexivity.
    + intros k Hk. lia.
    + reflexivity.
    + intros k _. reflexivity.
  - apply (proj1 (proj2 (proj2 (phase_isolation pocket_h blink_bridge world0 0 0)))).
    + reflexivity.
    + reflexivity.
    + intros k Hk. lia.
    + reflexivity.
    + reflexivity.
    + intros k Hk. lia.
    + reflexivity.
    + intros k _. reflexivity.
Defined.

(** C3. In every run in which DONE is observed, the waiter returns 0 when
    the error field of the status register (the last status load of the
    run, masked and shifted) is zero, and the negated field otherwise, for
    every field value that fits a positive [int]. *)
Theorem error_propagation (hdr : dataslot_h) (bridge : Device) (w : World)
    (new : list term_msg) :
  let run := dataslot_wait_complete hdr bridge w in
  let e := err_field hdr (status_at bridge w (polls (snd run) - 1)) in
  term (snd run) = new ++ term w ->
  In wait_got_DONE new ->
  e < 2 ^ 31 ->
  fst run = (if e =? 0 then 0 else - e).
Proof.
  cbv zeta.
  destruct (wait_complete_summary hdr bridge w)
    as (e & n1 & n2 & n3 & _ & _ & _ & _ & Hok & Hrun).
  rewrite Hrun. cbn [fst snd term after polls].
  intros Hnew Hin Hfit. apply app_inv_tail in Hnew. subst new.
  apply exit_trace_got_DONE in Hin. destruct Hin as (fs & ->).
  simpl in Hok. destruct Hok as (_ & Hfs & _).
  cbn [exit_code tail_loads] in *.
  replace (polls w + (2 + n1 + n2 + n3 + 1) - 1)%nat
    with (polls w + 2 + n1 + n2 + n3)%nat in * by lia.
  rewrite <- Hfs in *.
  rewrite result_of_fits.
  - destruct (err_field hdr fs =? 0) eqn:E; [apply Z.eqb_eq in E; lia | reflexivity].
  - split; [|exact Hfit]. apply err_field_nonneg. rewrite Hfs. apply uint32_range.
Qed.

Lemma error_propagation_witness :
  fst (dataslot_wait_complete pocket_h (prompt_bridge 2 3) world0) = -3.
Proof.
  rewrite (error_propagation pocket_h (prompt_bridge 2 3) world0
             [wait_final_status 15 3; wait_got_DONE; wait_got_ACK;
              wait_initial_status 0]).
  - rewrite run_prompt_error_3. reflexivity.
  - rewrite run_prompt_error_3. reflexivity.
  - simpl. auto.
  - rewrite run_prompt_error_3. reflexivity.
Defined.

Lemma loop_polls_ext (c1 c2 : nat -> bool) (n : nat) (b : bool) :
  (forall k, c1 k = c2 k) -> loop_polls c1 n b -> loop_polls c2 n b.
Proof.
  intros Hc (H1 & H2 & H3 & H4). unfold loop_polls.
  split; [exact H1|]. split; [exact H2|]. split.
  - intros k Hk. rewrite <- Hc. now apply H3.
  - rewrite <- Hc. exact H4.
Qed.

Lemma ack_done_polls_ext (hdr : dataslot_h) (s1 s2 : nat -> Z) (e : wait_exit)
    (n2 n3 : nat) :
  (forall k, s1 k = s2 k) ->
  ack_done_polls hdr s1 e n2 n3 -> ack_done_polls hdr s2 e n2 n3.
Proof.
  intros Hs. destruct e; cbn [ack_done_polls].
  - auto.
  - intros (H2 & H3). split; [|exact H3].
    eapply loop_polls_ext; [|exact H2]. intros k. cbv beta. now rewrite Hs.
  - intros (H2 & H3 & H4). rewrite <- Hs.
    split; [|split; [|exact H4]].
    + eapply loop_polls_ext; [|exact H2]. intros k. cbv beta. now rewrite Hs.
    + eapply loop_polls_ext; [|exact H3]. intros k. cbv beta. now rewrite Hs.
  - intros (H2 & H3 & H4). rewrite <- Hs.
    split; [|split; [|exact H4]].
    + eapply loop_polls_ext; [|exact H2]. intros k. cbv beta. now rewrite Hs.
    + eapply loop_polls_ext; [|exact H3]. intros k. cbv beta. now rewrite Hs.
Qed.

(** The polls of a loop, from where its first poll found the condition
    false or from the time-out. *)
Lemma loop_polls_intro (cond : nat -> bool) (i : nat) (b : bool) :
  (i < budget)%nat ->
  (forall k, (k < i)%nat -> cond k = true) ->
  (if b then cond i = true /\ S i = budget else cond i = false) ->
  loop_polls cond (S i) b.
Proof.
  intros Hi Hpre Hend. pose proof budget_Z as HB.
  unfold loop_polls. replace (S i - 1)%nat with i by lia.
  split; [lia|]. split; [lia|]. split.
  - intros k Hk. apply Hpre. lia.
  - destruct b; [|exact Hend]. destruct Hend as (Hc & HS).
    split; [lia | exact Hc].
Qed.

Section WaiterPhases.

Variable hdr : dataslot_h.
Variable bridge : Device.

Local Abbreviation st := (status_at bridge).

Lemma wait_ack_phases (w : World) :
  exists (e : wait_exit) (n2 n3 : nat),
    ack_done_polls hdr (fun k => st w (polls w + k)) e n2 n3 /\
    wait_ack hdr bridge w =
      (exit_code hdr e, after w (n2 + n3 + tail_loads e) (n2 + n3) (ack_trace hdr e)).
Proof.
  destruct (wait_ack_cases hdr bridge w) as (i & Hi & Hpre & [(Hl & HS & Hr)|(Hl & Hr)]).
  - exists exit_ack_timeout, (S i), 0%nat. rewrite Hr. cbn [ack_done_polls].
    split; [split; [|reflexivity]|].
    + apply loop_polls_intro; [exact Hi | |].
      * intros k Hk. cbv beta. now rewrite Hpre.
      * cbv beta. now rewrite Hl.
    + simpl. f_equal. apply after_eq; lia || reflexivity.
  - rewrite Hr.
    assert (Hack : loop_polls (fun k => negb (ack_set hdr (st w (polls w + k))))
                     (S i) false).
    { apply loop_polls_intro; [exact Hi | |].
      - intros k Hk. cbv beta. now rewrite Hpre.
      - cbv beta. now rewrite Hl. }
    destruct (wait_done_cases hdr bridge (after w (S i) (S i) [wait_got_ACK]))
      as (j & Hj & Hpre' & [(Hl' & HS' & Hd)|(Hl' & Hd)]);
      rewrite Hd; norm_after; norm_after.
    + exists (exit_done_timeout (st w (polls w + S i + S j))), (S i), (S j).
      cbn [ack_done_polls].
      split; [split; [exact Hack | split]|].
      * apply loop_polls_intro; [exact Hj | |].
        -- intros k Hk. cbv beta. specialize (Hpre' k Hk).
           rewrite status_at_after, polls_after in Hpre'.
           replace (polls w + (S i + k))%nat with (polls w + S i + k)%nat by lia.
           now rewrite Hpre'.
        -- cbv beta. rewrite status_at_after, polls_after in Hl'.
           replace (polls w + (S i + j))%nat with (polls w + S i + j)%nat by lia.
           rewrite Hl'. split; [reflexivity | exact HS'].
      * f_equal. lia.
      * simpl. f_equal. apply after_eq; lia || reflexivity.
    + exists (exit_done (st w (polls w + S i + S j))), (S i), (S j).
      cbn [ack_done_polls].
      split; [split; [exact Hack | split]|].
      * apply loop_polls_intro; [exact Hj | |].
        -- intros k Hk. cbv beta. specialize (Hpre' k Hk).
           rewrite status_at_after, polls_after in Hpre'.
           replace (polls w + (S i + k))%nat with (polls w + S i + k)%nat by lia.
           now rewrite Hpre'.
        -- cbv beta. rewrite status_at_after, polls_after in Hl'.
           replace (polls w + (S i + j))%nat with (polls w + S i + j)%nat by lia.
           now rewrite Hl'.
      * f_equal. lia.
      * simpl. f_equal. apply after_eq; lia || reflexivity.
Qed.

(** Every call of the waiter, by its three loops. *)
Lemma wait_complete_phases (w : World) :
  exists (e : wait_exit) (n1 n2 n3 : nat),
    phases hdr bridge w e n1 n2 n3 /\
    dataslot_wait_complete hdr bridge w =
      (exit_code hdr e,
       after w (2 + n1 + n2 + n3 + tail_loads e) (n1 + n2 + n3)
         (exit_trace hdr (st w (polls w)) (ack_set hdr (st w (polls w + 1))) e)).
Proof.
  destruct (ack_set hdr (st w (polls w + 1))) eqn:Hd.
  - destruct (wait_complete_drain hdr bridge w Hd)
      as (i & Hi & Hpre & [(Hl & HS & Hr)|(Hl & Hr)]).
    + exists exit_clear_timeout, (S i), 0%nat, 0%nat. rewrite Hr.
      cbn [phases]. unfold drain_polls. rewrite Hd.
      split; [split; [|split; reflexivity]|].
      * apply loop_polls_intro; [exact Hi | exact Hpre | split; assumption].
      * simpl. f_equal. apply after_eq; [lia | lia | reflexivity].
    + rewrite Hr.
      destruct (wait_ack_phases
                  (after w (2 + S i) (S i)
                     [wait_ACK_cleared; wait_ACK_high;
                      wait_initial_status (st w (polls w))]))
        as (e & n2 & n3 & Hok & ->).
      exists e, (S i), n2, n3. norm_after.
      assert (Hdr : drain_polls hdr bridge w (S i) false).
      { unfold drain_polls. rewrite Hd.
        apply loop_polls_intro; [exact Hi | exact Hpre | exact Hl]. }
      assert (Hok' : ack_done_polls hdr (fun k => st w (polls w + 2 + S i + k)) e n2 n3).
      { eapply ack_done_polls_ext; [|exact Hok].
        intros k. cbv beta. rewrite status_at_after, polls_after.
        f_equal. lia. }
      split.
      * destruct e; cbn [phases]; [destruct Hok | | |]; split; assumption.
      * f_equal. apply after_eq; [lia | lia |].
        destruct e; try reflexivity. destruct Hok.
  - rewrite (wait_complete_nodrain hdr bridge w Hd).
    destruct (wait_ack_phases
                (after w 2 0 [wait_initial_status (st w (polls w))]))
      as (e & n2 & n3 & Hok & ->).
    exists e, 0%nat, n2, n3. norm_after.
    assert (Hdr : drain_polls hdr bridge w 0 false).
    { unfold drain_polls. rewrite Hd. split; reflexivity. }
    assert (Hok' : ack_done_polls hdr (fun k => st w (polls w + 2 + 0 + k)) e n2 n3).
    { eapply ack_done_polls_ext; [|exact Hok].
      intros k. cbv beta. rewrite status_at_after, polls_after.
      f_equal. lia. }
    split.
    + destruct e; cbn [phases]; [destruct Hok | | |]; split; assumption.
    + f_equal. apply after_eq; [lia | lia |].
      destruct e; try reflexivity. destruct Hok.
Qed.

End WaiterPhases.

(** C9. The waiter always returns.  Each of its three loops (drain,
    acknowledgment, completion) counts down from [TIMEOUT_LOOPS] on its
    own: the polls [n1], [n2], [n3] of the loops are fixed by the statuses
    the bridge shows, a loop starting at the load after the one where the
    loop before it ended; a loop ends at its first poll that finds its
    condition false, and times out exactly when its own
    [TIMEOUT_LOOPS] polls all find the condition true, whatever the
    earlier loops used.  So the loop polls are at most
    [3 * TIMEOUT_LOOPS] in all, and the status register is read at most
    [3 * TIMEOUT_LOOPS + 3] times. *)
Theorem waiter_bounded (hdr : dataslot_h) (bridge : Device) (w : World) :
  exists (e : wait_exit) (n1 n2 n3 : nat) (w' : World),
    dataslot_wait_complete hdr bridge w = (exit_code hdr e, w') /\
    phases hdr bridge w e n1 n2 n3 /\
    spins w' = (spins w + (n1 + n2 + n3))%nat /\
    polls w' = (polls w + 2 + n1 + n2 + n3 + tail_loads e)%nat /\
    Z.of_nat n1 <= TIMEOUT_LOOPS /\
    Z.of_nat n2 <= TIMEOUT_LOOPS /\
    Z.of_nat n3 <= TIMEOUT_LOOPS /\
    match e with
    | exit_clear_timeout =>
        Z.of_nat n1 = TIMEOUT_LOOPS /\ n2 = 0%nat /\ n3 = 0%nat
    | exit_ack_timeout => Z.of_nat n2 = TIMEOUT_LOOPS /\ n3 = 0%nat
    | exit_done_timeout _ => Z.of_nat n3 = TIMEOUT_LOOPS
    | exit_done _ => True
    end /\
    Z.of_nat (spins w' - spins w) <= 3 * TIMEOUT_LOOPS /\
    Z.of_nat (polls w' - polls w) <= 3 * TIMEOUT_LOOPS + 3.
Proof.
  destruct (wait_complete_phases hdr bridge w)
    as (e & n1 & n2 & n3 & Hph & Hrun).
  exists e, n1, n2, n3. eexists. split; [exact Hrun|].
  split; [exact Hph|].
  cbn [spins polls after].
  assert (HT : 0 < TIMEOUT_LOOPS) by (unfold TIMEOUT_LOOPS; lia).
  assert (Ht : (tail_loads e <= 1)%nat) by (destruct e; simpl; lia).
  assert (Hn1 : forall b, drain_polls hdr bridge w n1 b ->
                          Z.of_nat n1 <= TIMEOUT_LOOPS /\
                          (b = true -> Z.of_nat n1 = TIMEOUT_LOOPS)).
  { intros b. unfold drain_polls.
    destruct (ack_set hdr (status_at bridge w (polls w + 1))).
    - intros (_ & Hle & _ & Hend). split; [exact Hle|].
      intros ->. apply Hend.
    - intros (-> & ->). split; [lia | discriminate]. }
  assert (Hall : Z.of_nat n1 <= TIMEOUT_LOOPS /\ Z.of_nat n2 <= TIMEOUT_LOOPS /\
                 Z.of_nat n3 <= TIMEOUT_LOOPS /\
                 match e with
                 | exit_clear_timeout =>
                     Z.of_nat n1 = TIMEOUT_LOOPS /\ n2 = 0%nat /\ n3 = 0%nat
                 | exit_ack_timeout => Z.of_nat n2 = TIMEOUT_LOOPS /\ n3 = 0%nat
                 | exit_done_timeout _ => Z.of_nat n3 = TIMEOUT_LOOPS
                 | exit_done _ => True
                 end).
  { destruct e; cbn [phases ack_done_polls] in Hph.
    - destruct Hph as (Hd & -> & ->). destruct (Hn1 _ Hd) as (H1 & H1').
      specialize (H1' eq_refl). repeat split; lia.
    - destruct Hph as (Hd & (_ & H2 & _ & H2' & _) & ->).
      destruct (Hn1 _ Hd) as (H1 & _). repeat split; lia.
    - destruct Hph as (Hd & (_ & H2 & _) & (_ & H3 & _ & H3' & _) & _).
      destruct (Hn1 _ Hd) as (H1 & _). repeat split; lia.
    - destruct Hph as (Hd & (_ & H2 & _) & (_ & H3 & _) & _).
      destruct (Hn1 _ Hd) as (H1 & _). repeat split; lia. }
  destruct Hall as (H1 & H2 & H3 & Hm).
  split; [reflexivity|]. split; [lia|].
  split; [exact H1|]. split; [exact H2|]. split; [exact H3|].
  split; [exact Hm|]. split; lia.
Qed.

(** Against a bridge that shows a stale ACK for three loads and nothing
    after, the drain loop uses two polls and the acknowledgment loop still
    gets its [TIMEOUT_LOOPS] polls before the call returns -1. *)
Lemma waiter_bounded_witness :
  fst (dataslot_wait_complete pocket_h retiring_bridge world0) = -1 /\
  Z.of_nat (spins (snd (dataslot_wait_complete pocket_h retiring_bridge world0))) =
    2 + TIMEOUT_LOOPS.
Proof.
  destruct (waiter_bounded pocket_h retiring_bridge world0)
    as (e & n1 & n2 & n3 & w' & Hrun & Hph & Hsp & _ & _ & H2 & _ & Hm & _).
  rewrite Hrun. cbn [fst snd]. rewrite Hsp.
  change (spins world0) with 0%nat. change (polls world0) with 0%nat in Hph.
  assert (HT : 3 < TIMEOUT_LOOPS) by (unfold TIMEOUT_LOOPS; lia).
  assert (Hack : forall k, ack_set pocket_h (status_at retiring_bridge world0 k) =
                           (k <? 3)%nat).
  { intros k. unfold status_at, retiring_bridge.
    destruct (k <? 3)%nat; reflexivity. }
  assert (Hn1 : drain_polls pocket_h retiring_bridge world0 n1 false -> n1 = 2%nat).
  { unfold drain_polls. rewrite Hack. change (polls world0) with 0%nat.
    change (0 + 1 <? 3)%nat with true. cbv iota.
    intros (Hge & _ & Hpre & Hend). cbv beta in Hpre, Hend.
    rewrite Hack in Hend. apply Nat.ltb_ge in Hend.
    destruct (Nat.eq_dec n1 2) as [E | E]; [exact E|]. exfalso.
    specialize (Hpre 1%nat ltac:(lia)). rewrite Hack in Hpre.
    apply Nat.ltb_lt in Hpre. lia. }
  assert (Hnever : forall k : nat,
            negb (ack_set pocket_h (status_at retiring_bridge world0 (0 + 2 + 2 + k)))
            = true).
  { intros k. rewrite Hack. apply negb_true_iff, Nat.ltb_ge. lia. }
  destruct e; cbn [phases ack_done_polls exit_code] in *.
  - exfalso. destruct Hph as (Hd & _). unfold drain_polls in Hd.
    rewrite Hack in Hd. change (polls world0) with 0%nat in Hd.
    change (0 + 1 <? 3)%nat with true in Hd. cbv iota in Hd.
    destruct Hd as (_ & _ & _ & Hn & Hend). cbv beta in Hend.
    rewrite Hack in Hend. apply Nat.ltb_lt in Hend. lia.
  - destruct Hph as (Hd & _ & ->). destruct Hm as (Hm & _).
    rewrite (Hn1 Hd). split; [reflexivity | lia].
  - exfalso. destruct Hph as (Hd & (_ & _ & _ & Hend) & _).
    cbv beta in Hend. rewrite (Hn1 Hd), Hnever in Hend. discriminate Hend.
  - exfalso. destruct Hph as (Hd & (_ & _ & _ & Hend) & _).
    cbv beta in Hend. rewrite (Hn1 Hd), Hnever in Hend. discriminate Hend.
Defined.

(** ** Read, Write and Load *)

Lemma uint32_idem (x : Z) : uint32 (uint32 x) = uint32 x.
Proof. apply uint32_small, uint32_range. Qed.

Lemma outside_sdram_true (addr : Z) :
  addr < 0x10000000 \/ 0x14000000 <= addr -> outside_sdram addr = true.
Proof.
  intros H. unfold outside_sdram. apply orb_true_iff.
  destruct H; [left; apply Z.ltb_lt | right; apply Z.geb_le]; lia.
Qed.

Lemma outside_sdram_false (addr : Z) :
  0x10000000 <= addr < 0x14000000 -> outside_sdram addr = false.
Proof.
  intros H. unfold outside_sdram. apply orb_false_iff.
  split; [apply Z.ltb_ge; lia|].
  rewrite Z.geb_leb. apply Z.leb_gt. lia.
Qed.

Lemma sdram_uint32 (addr : Z) :
  0x10000000 <= addr < 0x14000000 -> uint32 addr = addr.
Proof. intros H. apply uint32_small. lia. Qed.

Lemma exit_trace_final (hdr : dataslot_h) (s0 : Z) (d : bool) (e : wait_exit)
    (fs err : Z) :
  In (wait_final_status fs err) (exit_trace hdr s0 d e) ->
  e = exit_done fs /\ err = int32 (err_field hdr fs).
Proof.
  destruct e, d; simpl; intuition (try discriminate); congruence.
Qed.

Section OperationFacts.

Variable hdr : dataslot_h.
Variable bridge : Device.

(** The waiter leaves the registers and the memory alone. *)
Lemma wait_complete_frame (w : World) :
  exists (e : wait_exit) (a b : nat) (s0 : Z) (d : bool),
    dataslot_wait_complete hdr bridge w =
      (exit_code hdr e, after w a b (exit_trace hdr s0 d e)).
Proof.
  destruct (wait_complete_summary hdr bridge w)
    as (e & n1 & n2 & n3 & _ & _ & _ & _ & _ & Hrun).
  rewrite Hrun. eauto 6.
Qed.

(** An accepted read: the registers are programmed, the waiter runs, and
    its result is returned after two more trace messages. *)
Lemma dataslot_read_summary (slot_id offset dest length : Z) (w : World) :
  outside_sdram (uint32 dest) = false ->
  exists (e : wait_exit) (a b : nat) (s0 : Z) (d : bool) (m : list Z) (s : Z),
    fst (dataslot_wait_complete hdr bridge (read_issued hdr bridge slot_id offset dest length w)) =
      exit_code hdr e /\
    dataslot_read hdr bridge slot_id offset dest length w =
      (exit_code hdr e,
       after (read_issued hdr bridge slot_id offset dest length w) a b
         ([DS_data m; DS_status_after s (exit_code hdr e)]
          ++ exit_trace hdr s0 d e)).
Proof.
  intros H. rewrite (dataslot_read_accepted hdr bridge _ _ _ _ _ H).
  destruct (wait_complete_frame (read_issued hdr bridge slot_id offset dest length w))
    as (e & a & b & s0 & d & ->).
  exists e, (a + 1)%nat, (b + 0)%nat, s0, d. eexists. eexists.
  split; [reflexivity|]. rewrite after_after. reflexivity.
Qed.

End OperationFacts.

(** C4. A read or a write whose buffer address lies outside the window
    [0x10000000, 0x14000000) returns -10 and leaves the world as it was: no
    register is written, no command is triggered, the status register is
    not read and nothing is printed. *)
Theorem address_rejection_pure (hdr : dataslot_h) (bridge : Device)
    (slot_id offset addr length : Z) (w : World) :
  0 <= addr < 2 ^ 32 ->
  addr < 0x10000000 \/ 0x14000000 <= addr ->
  dataslot_read hdr bridge slot_id offset addr length w = (-10, w) /\
  dataslot_write hdr bridge slot_id offset addr length w = (-10, w).
Proof.
  intros Hr Hout.
  assert (H : outside_sdram (uint32 addr) = true).
  { rewrite uint32_small by exact Hr. now apply outside_sdram_true. }
  split.
  - now apply dataslot_read_rejected.
  - now apply dataslot_write_rejected.
Qed.

Lemma address_rejection_pure_witness :
  dataslot_read pocket_h (stuck_bridge 0) 1 0 0x14000000 16 world0 = (-10, world0) /\
  dataslot_write pocket_h (stuck_bridge 0) 1 0 0x14000000 16 world0 = (-10, world0).
Proof.
  apply address_rejection_pure; [lia | right; lia].
Defined.

(** C10. Only the first address of the buffer is validated: for every
    [addr] inside the window and every [length] (so also when
    [addr + length] lies past the end of the window) the read and the write
    program the length register with [length], trigger their command and
    return what the waiter returns. *)
Theorem only_start_validated (hdr : dataslot_h) (bridge : Device)
    (slot_id offset addr length : Z) (w : World) :
  0x10000000 <= addr < 0x14000000 ->
  let rd := dataslot_read hdr bridge slot_id offset addr length w in
  let wr := dataslot_write hdr bridge slot_id offset addr length w in
  (DS_COMMAND (regs (snd rd)) = uint32 (DS_CMD_READ hdr) :: DS_COMMAND (regs w) /\
   DS_LENGTH (regs (snd rd)) = uint32 length /\
   fst rd = fst (dataslot_wait_complete hdr bridge
                   (read_issued hdr bridge slot_id offset addr length w))) /\
  (DS_COMMAND (regs (snd wr)) = uint32 (DS_CMD_WRITE hdr) :: DS_COMMAND (regs w) /\
   DS_LENGTH (regs (snd wr)) = uint32 length /\
   wr = dataslot_wait_complete hdr bridge
          (write_issued hdr slot_id offset addr length w)).
Proof.
  intros Hin. cbv zeta.
  assert (H : outside_sdram (uint32 addr) = false).
  { rewrite sdram_uint32 by exact Hin. now apply outside_sdram_false. }
  split.
  - destruct (dataslot_read_summary hdr bridge slot_id offset addr length w H)
      as (e & a & b & s0 & d & m & s & Hw & ->).
    rewrite Hw. repeat split.
  - rewrite (dataslot_write_accepted hdr bridge _ _ _ _ _ H).
    destruct (wait_complete_frame hdr bridge (write_issued hdr slot_id offset addr length w))
      as (e & a & b & s0 & d & ->).
    repeat split.
Qed.

Lemma only_start_validated_witness :
  0x14000000 < 0x13FFFFFF + 4096 /\
  DS_COMMAND (regs (snd (dataslot_read pocket_h (stuck_bridge 0) 1 0 0x13FFFFFF 4096 world0))) = [1] /\
  DS_LENGTH (regs (snd (dataslot_read pocket_h (stuck_bridge 0) 1 0 0x13FFFFFF 4096 world0))) = 4096.
Proof.
  split; [reflexivity|].
  destruct (only_start_validated pocket_h (stuck_bridge 0) 1 0 0x13FFFFFF 4096 world0)
    as ((Hc & Hl & _) & _).
  - lia.
  - split; [exact Hc | exact Hl].
Defined.

(** A read of slot 1 into the first SDRAM address against a bridge that
    acknowledges and completes at once, without error. *)
Lemma run_read_prompt (len : Z) :
  dataslot_read pocket_h (prompt_bridge 3 0) 1 0 0x10000000 len world0 =
    (0, {| regs := programmed 1 1 0 0 len regs0;
           mem := fun _ => 0; polls := 7; spins := 2;
           term := [DS_data [0; 0; 0; 0; 0; 0; 0; 0]; DS_status_after 3 0;
                    wait_final_status 3 0; wait_got_DONE; wait_got_ACK;
                    wait_initial_status 0; DS_status_before 0;
                    DS_parameters 1 0 0 (uint32 len)] |}).
Proof.
  rewrite dataslot_read_accepted by reflexivity.
  rewrite wait_complete_prompt by reflexivity.
  reflexivity.
Qed.

Lemma dataslot_load_result (hdr : dataslot_h) (bridge : Device)
    (slot_id dest max_length : Z) (w : World) :
  dataslot_load hdr bridge slot_id dest max_length w =
    let (result, w') := dataslot_read hdr bridge (uint16 slot_id) 0 dest max_length w in
    (if result <? 0 then result else int32 (uint32 max_length), w').
Proof.
  unfold dataslot_load, bind.
  destruct (dataslot_read hdr bridge (uint16 slot_id) 0 dest max_length w) as [r w'].
  destruct (r <? 0); reflexivity.
Qed.

(** C6, as the code has it. A read with a valid destination programs
    [slot_id], [slot_offset = offset], [bridge_addr = translate(dest)] and
    [length], triggers the read command, waits for completion and returns
    the waiter's result: on success that is 0, not the byte count. *)
Theorem read_programs_and_waits (hdr : dataslot_h) (bridge : Device)
    (slot_id offset dest length : Z) (w : World) :
  0x10000000 <= dest < 0x14000000 ->
  let run := dataslot_read hdr bridge slot_id offset dest length w in
  regs (snd run) =
    programmed (DS_CMD_READ hdr) slot_id offset (CPU_TO_BRIDGE_ADDR hdr dest)
      length (regs w) /\
  fst run = fst (dataslot_wait_complete hdr bridge
                   (read_issued hdr bridge slot_id offset dest length w)) /\
  (forall (new : list term_msg) (fs : Z),
      term (snd run) = new ++ term w ->
      In (wait_final_status fs 0) new -> fst run = 0).
Proof.
  intros Hin. cbv zeta.
  assert (H : outside_sdram (uint32 dest) = false).
  { rewrite sdram_uint32 by exact Hin. now apply outside_sdram_false. }
  destruct (dataslot_read_summary hdr bridge slot_id offset dest length w H)
    as (e & a & b & s0 & d & m & s & Hw & ->).
  rewrite Hw. cbn [fst snd regs term after read_issued].
  split; [|split].
  - unfold programmed. rewrite uint32_idem, (sdram_uint32 dest Hin). reflexivity.
  - reflexivity.
  - intros new fs Hnew Hfin.
    rewrite <- app_assoc in Hnew.
    change (DS_status_before (status_at bridge w (polls w))
            :: DS_parameters (uint32 slot_id) (uint32 offset)
                 (uint32 (CPU_TO_BRIDGE_ADDR hdr (uint32 dest))) (uint32 length)
            :: term w)
      with ([DS_status_before (status_at bridge w (polls w));
             DS_parameters (uint32 slot_id) (uint32 offset)
               (uint32 (CPU_TO_BRIDGE_ADDR hdr (uint32 dest))) (uint32 length)]
            ++ term w) in Hnew.
    rewrite app_assoc, (app_assoc _ _ (term w)) in Hnew.
    apply app_inv_tail in Hnew. subst new.
    rewrite !in_app_iff in Hfin.
    destruct Hfin as [[Hfin | Hfin] | Hfin].
    + simpl in Hfin. intuition discriminate.
    + apply exit_trace_final in Hfin. destruct Hfin as (-> & Herr).
      simpl. unfold result_of. cbv zeta. rewrite <- Herr. reflexivity.
    + simpl in Hfin. intuition discriminate.
Qed.

Lemma read_programs_and_waits_witness :
  regs (snd (dataslot_read pocket_h (prompt_bridge 3 0) 1 0 0x10000000 16 world0)) =
    programmed 1 1 0 0 16 regs0 /\
  fst (dataslot_read pocket_h (prompt_bridge 3 0) 1 0 0x10000000 16 world0) = 0.
Proof.
  destruct (read_programs_and_waits pocket_h (prompt_bridge 3 0) 1 0 0x10000000 16 world0)
    as (Hr & _ & H0); [lia|].
  split; [exact Hr|].
  apply (H0 [DS_data [0; 0; 0; 0; 0; 0; 0; 0]; DS_status_after 3 0;
             wait_final_status 3 0; wait_got_DONE; wait_got_ACK;
             wait_initial_status 0; DS_status_before 0;
             DS_parameters 1 0 0 16] 3).
  - rewrite run_read_prompt. reflexivity.
  - simpl. auto.
Defined.

(** C6, as stated, fails: a successful read of 16 bytes returns 0. *)
Lemma read_returns_zero_not_length :
  In wait_got_DONE
     (term (snd (dataslot_read pocket_h (prompt_bridge 3 0) 1 0 0x10000000 16 world0))) /\
  DS_LENGTH
    (regs (snd (dataslot_read pocket_h (prompt_bridge 3 0) 1 0 0x10000000 16 world0))) = 16 /\
  fst (dataslot_read pocket_h (prompt_bridge 3 0) 1 0 0x10000000 16 world0) = 0 /\
  fst (dataslot_read pocket_h (prompt_bridge 3 0) 1 0 0x10000000 16 world0) <> 16.
Proof.
  rewrite run_read_prompt. simpl. repeat split; auto. discriminate.
Qed.

(** C7, as the code has it. For a slot id in the range of [uint16_t],
    Load leaves the world, and so every register, exactly as
    [Read(slot_id, 0, dest, max_length)] does, and returns the read's error
    when the read fails; when the read succeeds it returns [max_length]
    provided [max_length] fits the [int32_t] result. *)
Theorem load_is_read_at_offset_0 (hdr : dataslot_h) (bridge : Device)
    (slot_id dest max_length : Z) (w : World) :
  0 <= slot_id < 2 ^ 16 ->
  let ld := dataslot_load hdr bridge slot_id dest max_length w in
  let rd := dataslot_read hdr bridge slot_id 0 dest max_length w in
  snd ld = snd rd /\
  (fst rd < 0 -> fst ld = fst rd) /\
  (0 <= fst rd -> 0 <= max_length < 2 ^ 31 -> fst ld = max_length).
Proof.
  intros Hs. cbv zeta. rewrite dataslot_load_result.
  replace (uint16 slot_id) with slot_id
    by (unfold uint16; now rewrite Z.mod_small).
  destruct (dataslot_read hdr bridge slot_id 0 dest max_length w) as [r w'].
  cbn [fst snd]. split; [reflexivity|]. split.
  - intros Hr. apply Z.ltb_lt in Hr. now rewrite Hr.
  - intros Hr Hm. apply Z.ltb_ge in Hr. rewrite Hr.
    rewrite uint32_small by lia. apply int32_small. lia.
Qed.

Lemma load_is_read_at_offset_0_witness :
  snd (dataslot_load pocket_h (prompt_bridge 3 0) 1 0x10000000 16 world0) =
    snd (dataslot_read pocket_h (prompt_bridge 3 0) 1 0 0x10000000 16 world0) /\
  fst (dataslot_load pocket_h (prompt_bridge 3 0) 1 0x10000000 16 world0) = 16.
Proof.
  destruct (load_is_read_at_offset_0 pocket_h (prompt_bridge 3 0) 1 0x10000000 16 world0)
    as (Hw & _ & Hr); [lia|].
  split; [exact Hw|].
  apply Hr; [rewrite run_read_prompt; simpl; lia | lia].
Defined.

(** C7, as stated, fails: with [max_length = 0x80000000] the read succeeds
    and Load returns a negative number. *)
Lemma load_wraps_large_length :
  fst (dataslot_read pocket_h (prompt_bridge 3 0) 1 0 0x10000000 0x80000000 world0) = 0 /\
  fst (dataslot_load pocket_h (prompt_bridge 3 0) 1 0x10000000 0x80000000 world0) =
    -2147483648.
Proof.
  rewrite dataslot_load_result.
  change (uint16 1) with 1.
  rewrite run_read_prompt. split; reflexivity.
Qed.

(** ** Failure codes *)

Lemma pocket_err_field_fits (s : Z) : 0 <= err_field pocket_h s < 2 ^ 31.
Proof.
  unfold err_field. simpl DS_STATUS_ERR_MASK. simpl DS_STATUS_ERR_SHIFT.
  rewrite Z.shiftr_land. change (Z.shiftr 28 2) with (Z.ones 3).
  rewrite Z.land_ones by lia.
  pose proof (Z.mod_pos_bound (Z.shiftr s 2) (2 ^ 3) ltac:(lia)). lia.
Qed.

(** The failure a waiter's trace shows decides the code it returns. *)
Lemma exit_shows_code (hdr : dataslot_h) (s0 : Z) (d : bool) (e : wait_exit)
    (c : failure_class) :
  (forall s, 0 <= err_field hdr s < 2 ^ 31) ->
  shows (exit_trace hdr s0 d e) c ->
  exit_code hdr e = failure_code c /\ failure_code c < 0.
Proof.
  intros Hfit Hs.
  destruct c; simpl in Hs.
  - destruct e, d; discriminate Hs.
  - destruct e, d; simpl in Hs; intuition (try discriminate); split; reflexivity.
  - destruct e, d; simpl in Hs; intuition (try discriminate); split; reflexivity.
  - destruct Hs as (s & Hs).
    destruct e, d; simpl in Hs; intuition (try discriminate); split; reflexivity.
  - destruct Hs as (Hne & fs & Hs).
    apply exit_trace_final in Hs. destruct Hs as (-> & He).
    rewrite int32_small in He by (specialize (Hfit fs); lia). subst e0.
    simpl. rewrite result_of_fits by apply Hfit.
    specialize (Hfit fs). lia.
Qed.

Lemma exit_shows (hdr : dataslot_h) (s0 : Z) (d : bool) (e : wait_exit)
    (c : failure_class) :
  (forall s, 0 <= err_field hdr s < 2 ^ 31) ->
  shows (exit_trace hdr s0 d e) c ->
  exit_code hdr e = failure_code c /\ exit_code hdr e < 0.
Proof.
  intros Hfit Hs.
  destruct (exit_shows_code hdr s0 d e c Hfit Hs) as (H1 & H2).
  rewrite H1. split; [reflexivity | exact H2].
Qed.

(** A waiter that does not return 0 shows a failure. *)
Lemma exit_nonzero_shows (hdr : dataslot_h) (s0 : Z) (d : bool) (e : wait_exit) :
  exit_code hdr e = 0 \/ exists c, shows (exit_trace hdr s0 d e) c.
Proof.
  destruct e.
  - right. exists TimeoutDuringClear. simpl. auto.
  - right. exists TimeoutAwaitingAck. destruct d; simpl; auto.
  - right. exists TimeoutAwaitingDone. exists s. destruct d; simpl; auto.
  - simpl exit_code. unfold result_of. cbv zeta.
    destruct (int32 (err_field hdr final_status) =? 0) eqn:E; [now left|].
    right. exists (BridgeReportedError (int32 (err_field hdr final_status))).
    split; [now apply Z.eqb_neq|].
    exists final_status. destruct d; simpl; auto.
Qed.

(** How two failure codes can coincide. *)
Lemma failure_code_table (c1 c2 : failure_class) :
  failure_code c1 = failure_code c2 ->
  c1 = c2 \/
  (exists e, (c1 = BridgeReportedError e /\ local_failure c2 \/
              c2 = BridgeReportedError e /\ local_failure c1) /\
             (e = 1 \/ e = 2 \/ e = 3 \/ e = 10)).
Proof.
  destruct c1, c2; simpl; intros H; try discriminate H; auto;
    try (right; eexists; split; [left; split; [reflexivity | exact I] | lia]);
    try (right; eexists; split; [right; split; [reflexivity | exact I] | lia]).
  left. f_equal. lia.
Qed.

Lemma in_framed (m : term_msg) (pre t post : list term_msg) :
  Forall is_DS pre -> Forall is_DS post -> (is_DS m -> False) ->
  In m (pre ++ t ++ post) -> In m t.
Proof.
  intros Hpre Hpost Hm Hin.
  rewrite !in_app_iff in Hin. destruct Hin as [H | [H | H]]; [|exact H|].
  - exfalso. apply Hm. rewrite Forall_forall in Hpre. now apply Hpre.
  - exfalso. apply Hm. rewrite Forall_forall in Hpost. now apply Hpost.
Qed.

(** The messages of [dataslot_read] around those of the waiter do not
    change the failure shown. *)
Lemma shows_framed (pre t post : list term_msg) (c : failure_class) :
  Forall is_DS pre -> Forall is_DS post -> t <> [] ->
  shows (pre ++ t ++ post) c <-> shows t c /\ c <> InvalidAddress.
Proof.
  intros Hpre Hpost Ht. split.
  - destruct c; simpl.
    + intros H. apply app_eq_nil in H. destruct H as (_ & H).
      apply app_eq_nil in H. destruct H as (H & _). contradiction.
    + intros H. split; [|discriminate].
      now apply (in_framed _ pre t post).
    + intros H. split; [|discriminate].
      now apply (in_framed _ pre t post).
    + intros (s & H). split; [|discriminate]. exists s.
      now apply (in_framed _ pre t post).
    + intros (He & fs & H). split; [|discriminate]. split; [exact He|].
      exists fs. now apply (in_framed _ pre t post).
  - intros (H & Hc). destruct c; simpl in *.
    + contradiction.
    + rewrite !in_app_iff. auto.
    + rewrite !in_app_iff. auto.
    + destruct H as (s & H). exists s. rewrite !in_app_iff. auto.
    + destruct H as (He & fs & H). split; [exact He|]. exists fs.
      rewrite !in_app_iff. auto.
Qed.

Lemma exit_trace_not_nil (hdr : dataslot_h) (s0 : Z) (d : bool) (e : wait_exit) :
  exit_trace hdr s0 d e <> [].
Proof. destruct e, d; discriminate. Qed.

Lemma shows_exit_not_invalid (hdr : dataslot_h) (s0 : Z) (d : bool)
    (e : wait_exit) (c : failure_class) :
  shows (exit_trace hdr s0 d e) c -> c <> InvalidAddress.
Proof.
  intros H ->. simpl in H. now apply exit_trace_not_nil in H.
Qed.

Section Reports.

Variable hdr : dataslot_h.
Variable bridge : Device.
Hypothesis fits : forall s, 0 <= err_field hdr s < 2 ^ 31.

Lemma dataslot_write_reports (slot_id offset src length : Z) (w : World) :
  reports (dataslot_write hdr bridge slot_id offset src length w) w.
Proof.
  destruct (outside_sdram (uint32 src)) eqn:H.
  - rewrite (dataslot_write_rejected hdr bridge _ _ _ _ _ H).
    intros new Hnew. cbn [fst snd] in *.
    assert (new = []) as ->.
    { apply (app_inv_tail (term w) new []). now rewrite <- Hnew. }
    split.
    + intros c Hc. destruct c; simpl in Hc; try contradiction.
      * split; reflexivity.
      * destruct Hc as (_ & []).
      * destruct Hc as (_ & _ & []).
    + right. exists InvalidAddress. reflexivity.
  - rewrite (dataslot_write_accepted hdr bridge _ _ _ _ _ H).
    destruct (wait_complete_frame hdr bridge (write_issued hdr slot_id offset src length w))
      as (e & a & b & s0 & d & ->).
    intros new Hnew. cbn [fst snd term after write_issued] in *.
    apply app_inv_tail in Hnew. subst new. split.
    + intros c Hc. now apply (exit_shows hdr s0 d e c fits).
    + apply exit_nonzero_shows.
Qed.

Lemma dataslot_read_reports (slot_id offset dest length : Z) (w : World) :
  reports (dataslot_read hdr bridge slot_id offset dest length w) w.
Proof.
  destruct (outside_sdram (uint32 dest)) eqn:H.
  - rewrite (dataslot_read_rejected hdr bridge _ _ _ _ _ H).
    intros new Hnew. cbn [fst snd] in *.
    assert (new = []) as ->.
    { apply (app_inv_tail (term w) new []). now rewrite <- Hnew. }
    split.
    + intros c Hc. destruct c; simpl in Hc; try contradiction.
      * split; reflexivity.
      * destruct Hc as (_ & []).
      * destruct Hc as (_ & _ & []).
    + right. exists InvalidAddress. reflexivity.
  - destruct (dataslot_read_summary hdr bridge slot_id offset dest length w H)
      as (e & a & b & s0 & d & m & s & _ & ->).
    intros new Hnew. cbn [fst snd term after read_issued] in *.
    set (pre := [DS_data m; DS_status_after s (exit_code hdr e)]) in *.
    set (post := [DS_status_before (status_at bridge w (polls w));
                  DS_parameters (uint32 slot_id) (uint32 offset)
                    (uint32 (CPU_TO_BRIDGE_ADDR hdr (uint32 dest)))
                    (uint32 length)]).
    assert (new = pre ++ exit_trace hdr s0 d e ++ post) as ->.
    { apply (app_inv_tail (term w)). rewrite <- Hnew.
      rewrite <- !app_assoc. reflexivity. }
    assert (Hpre : Forall is_DS pre) by (repeat constructor).
    assert (Hpost : Forall is_DS post) by (repeat constructor).
    pose proof (exit_trace_not_nil hdr s0 d e) as Hne.
    split.
    + intros c Hc. apply (shows_framed pre _ post c Hpre Hpost Hne) in Hc.
      now apply (exit_shows hdr s0 d e c fits).
    + destruct (exit_nonzero_shows hdr s0 d e) as [H0 | (c & Hc)]; [now left|].
      right. exists c. apply (shows_framed pre _ post c Hpre Hpost Hne).
      split; [exact Hc|]. now apply shows_exit_not_invalid in Hc.
Qed.

End Reports.

Lemma run_write_prompt_error_3 :
  dataslot_write pocket_h (prompt_bridge 2 3) 1 0 0x10000000 16 world0 =
    (-3, after (write_issued pocket_h 1 0 0x10000000 16 world0) 5 2
           [wait_final_status 15 3; wait_got_DONE; wait_got_ACK;
            wait_initial_status 0]).
Proof.
  rewrite dataslot_write_accepted by reflexivity.
  rewrite wait_complete_prompt by reflexivity. reflexivity.
Qed.

Lemma run_write_stuck_ack :
  dataslot_write pocket_h (stuck_bridge 1) 1 0 0x10000000 16 world0 =
    (-3, after (write_issued pocket_h 1 0 0x10000000 16 world0) (2 + budget) budget
           [wait_timeout_at_clear 0; wait_ACK_high; wait_initial_status 1]).
Proof.
  rewrite dataslot_write_accepted by reflexivity.
  rewrite wait_complete_stuck_ack; [reflexivity|].
  intros k _ _. reflexivity.
Qed.

(** C5, as the code has it. With an error field that fits a positive
    [int], every failure a read or a write reports is returned as a
    negative code, the one of the failure its trace shows.  The four
    failures the driver detects itself have pairwise distinct codes,
    bridge errors with distinct error fields have distinct codes, and the
    code of a bridge error differs from the four local codes when its
    error field is not 1, 2, 3 or 10. *)
Theorem failure_codes (hdr : dataslot_h) (bridge : Device)
    (slot_id offset addr length : Z) (w : World) :
  (forall s, 0 <= err_field hdr s < 2 ^ 31) ->
  reports (dataslot_read hdr bridge slot_id offset addr length w) w /\
  reports (dataslot_write hdr bridge slot_id offset addr length w) w /\
  (forall c1 c2, local_failure c1 -> local_failure c2 -> c1 <> c2 ->
                 failure_code c1 <> failure_code c2) /\
  (forall e1 e2, e1 <> e2 ->
                 failure_code (BridgeReportedError e1) <>
                 failure_code (BridgeReportedError e2)) /\
  (forall e c, local_failure c -> e <> 1 -> e <> 2 -> e <> 3 -> e <> 10 ->
               failure_code (BridgeReportedError e) <> failure_code c).
Proof.
  intros fits.
  split; [now apply dataslot_read_reports|].
  split; [now apply dataslot_write_reports|].
  split; [|split].
  - intros c1 c2 H1 H2 Hne Heq.
    destruct (failure_code_table c1 c2 Heq) as [H | (e & [(-> & _) | (-> & _)] & _)];
      [contradiction | destruct H1 | destruct H2].
  - intros e1 e2 Hne Heq. simpl in Heq. lia.
  - intros e c Hc N1 N2 N3 N10 Heq.
    destruct c; simpl in Hc, Heq; lia || destruct Hc.
Qed.

Lemma failure_codes_witness :
  fst (dataslot_write pocket_h (prompt_bridge 2 3) 1 0 0x10000000 16 world0) =
    failure_code (BridgeReportedError 3) /\
  fst (dataslot_write pocket_h (prompt_bridge 2 3) 1 0 0x10000000 16 world0) < 0.
Proof.
  destruct (failure_codes pocket_h (prompt_bridge 2 3) 1 0 0x10000000 16 world0
              pocket_err_field_fits) as (_ & Hw & _).
  apply (Hw [wait_final_status 15 3; wait_got_DONE; wait_got_ACK;
             wait_initial_status 0]).
  - rewrite run_write_prompt_error_3. reflexivity.
  - simpl. split; [discriminate|]. exists 15. auto.
Defined.

(** C5, as stated, fails: a clear-phase time-out and a bridge error with
    error field 3 are returned with the same code. *)
Lemma failure_codes_collide :
  shows (term (snd (dataslot_write pocket_h (stuck_bridge 1) 1 0 0x10000000 16 world0)))
    TimeoutDuringClear /\
  shows (term (snd (dataslot_write pocket_h (prompt_bridge 2 3) 1 0 0x10000000 16 world0)))
    (BridgeReportedError 3) /\
  fst (dataslot_write pocket_h (stuck_bridge 1) 1 0 0x10000000 16 world0) =
    fst (dataslot_write pocket_h (prompt_bridge 2 3) 1 0 0x10000000 16 world0) /\
  TimeoutDuringClear <> BridgeReportedError 3.
Proof.
  rewrite run_write_stuck_ack, run_write_prompt_error_3.
  cbn [fst snd term after write_issued world0 app shows In].
  split; [auto|]. split; [|split; [reflexivity | discriminate]].
  split; [discriminate|]. exists 15. auto.
Qed.

(** ** OpenFile: the staged file name *)

Lemma store8_same (a v : Z) (m : Z -> Z) : store8 a v m a = uint8 v.
Proof. unfold store8. now rewrite Z.eqb_refl. Qed.

Lemma store8_other (a v : Z) (m : Z -> Z) (x : Z) :
  x <> a -> store8 a v m x = m x.
Proof. intros H. unfold store8. apply Z.eqb_neq in H. now rewrite H. Qed.

Lemma store32_other (a v : Z) (m : Z -> Z) (x : Z) :
  x < a \/ a + 4 <= x -> store32 a v m x = m x.
Proof.
  intros H. unfold store32. rewrite !store8_other by lia. reflexivity.
Qed.

Lemma memset_outside (c : Z) (n : nat) :
  forall (s : Z) (m : Z -> Z) (x : Z),
    x < s \/ s + Z.of_nat n <= x -> memset s c n m x = m x.
Proof.
  induction n as [|n IH]; intros s m x H; [reflexivity|].
  simpl. rewrite IH by lia. apply store8_other. lia.
Qed.

Lemma memset_inside (c : Z) (n : nat) :
  forall (s : Z) (m : Z -> Z) (i : nat),
    (i < n)%nat -> memset s c n m (s + Z.of_nat i) = uint8 c.
Proof.
  induction n as [|n IH]; intros s m i H; [lia|].
  simpl. destruct i as [|i].
  - rewrite memset_outside by lia. rewrite Z.add_0_r. apply store8_same.
  - replace (s + Z.of_nat (S i)) with (s + 1 + Z.of_nat i) by lia.
    apply IH. lia.
Qed.

Lemma char_code_range (c : ascii) : 0 <= char_code c < 256.
Proof.
  unfold char_code. pose proof (nat_ascii_bounded c). lia.
Qed.

Lemma uint8_char_code (c : ascii) : uint8 (char_code c) = char_code c.
Proof.
  unfold uint8. apply Z.mod_small. pose proof (char_code_range c). lia.
Qed.

(** [strncpy] writes inside [dest, dest + n) only. *)
Lemma strncpy_outside (n : nat) :
  forall (dest : Z) (src : string) (m : Z -> Z) (x : Z),
    x < dest \/ dest + Z.of_nat n <= x -> strncpy dest src n m x = m x.
Proof.
  induction n as [|n IH]; intros dest src m x H; [reflexivity|].
  destruct src as [|c rest]; cbn [strncpy].
  - now apply memset_outside.
  - destruct (char_code c =? 0).
    + now apply memset_outside.
    + rewrite IH by lia. apply store8_other. lia.
Qed.

(** Byte [i < n] of the destination is character [i] of the source, or
    NUL past its end. *)
Lemma strncpy_at (n : nat) :
  forall (dest : Z) (src : string) (m : Z -> Z) (i : nat),
    (i < n)%nat ->
    strncpy dest src n m (dest + Z.of_nat i) = nth i (c_str src) 0.
Proof.
  induction n as [|n IH]; intros dest src m i H; [lia|].
  destruct src as [|c rest]; cbn [strncpy c_str].
  - rewrite memset_inside by exact H. destruct i; reflexivity.
  - destruct (char_code c =? 0) eqn:E.
    + rewrite memset_inside by exact H. destruct i; reflexivity.
    + destruct i as [|i].
      * rewrite strncpy_outside by lia. rewrite Z.add_0_r, store8_same.
        apply uint8_char_code.
      * replace (dest + Z.of_nat (S i)) with (dest + 1 + Z.of_nat i) by lia.
        rewrite IH by lia. reflexivity.
Qed.

Lemma c_str_nonzero (src : string) : Forall (fun v => v <> 0) (c_str src).
Proof.
  induction src as [|c rest IH]; simpl; [constructor|].
  destruct (char_code c =? 0) eqn:E; constructor; [|exact IH].
  now apply Z.eqb_neq.
Qed.

Lemma Forall_firstn_nonzero (k : nat) (l : list Z) :
  Forall (fun v => v <> 0) l -> Forall (fun v => v <> 0) (firstn k l).
Proof.
  revert l. induction k as [|k IH]; intros l H; [constructor|].
  destruct H; simpl; constructor; auto.
Qed.

(** Memory that holds the non-zero bytes [l] followed by a NUL within [n]
    bytes reads back as [l]. *)
Lemma load_str_spec (n : nat) :
  forall (l : list Z) (m : Z -> Z) (a : Z),
    (List.length l < n)%nat ->
    Forall (fun v => v <> 0) l ->
    (forall i, (i < n)%nat -> m (a + Z.of_nat i) = nth i l 0) ->
    load_str m a n = l.
Proof.
  induction n as [|n IH]; intros l m a Hlen Hnz Hm; [lia|].
  cbn [load_str].
  pose proof (Hm 0%nat ltac:(lia)) as H0. rewrite Z.add_0_r in H0.
  destruct l as [|v l].
  - simpl in H0. rewrite H0. reflexivity.
  - simpl in H0. inversion Hnz as [|? ? Hv Hl]; subst.
    apply Z.eqb_neq in Hv. rewrite Hv. f_equal.
    apply IH; [simpl in Hlen; lia | exact Hl |].
    intros i Hi. specialize (Hm (S i) ltac:(lia)).
    replace (a + 1 + Z.of_nat i) with (a + Z.of_nat (S i)) by lia.
    exact Hm.
Qed.

(** The memory [dataslot_open_file] leaves behind. *)
Lemma open_file_mem (hdr : dataslot_h) (bridge : Device) (filename : string)
    (flags size : Z) (w : World) :
  mem (snd (dataslot_open_file hdr bridge filename flags size w)) =
    store32 (PARAM_BUFFER_ADDR + OFFSET_size) (uint32 size)
      (store32 (PARAM_BUFFER_ADDR + OFFSET_flags) (uint32 flags)
         (store8 (PARAM_BUFFER_ADDR + 255) 0
            (strncpy PARAM_BUFFER_ADDR filename 255
               (memset PARAM_BUFFER_ADDR 0 SIZEOF_open_param (mem w))))).
Proof.
  unfold dataslot_open_file.
  cbv beta iota zeta delta
    [bind set_mem set_regs write_SLOT_ID write_PARAM_ADDR write_RESP_ADDR
     write_COMMAND regs mem polls spins term].
  match goal with
  | |- context [dataslot_wait_complete hdr bridge ?X] =>
      destruct (wait_complete_frame hdr bridge X) as (e & a & b & s0 & d & ->)
  end.
  reflexivity.
Qed.

(** C8. The file name OpenFile stages reads back as the first 255
    characters of the given name: a name of 255 characters or more is cut
    to 255 characters, byte 255 of the field is always NUL, the stores of
    the name stay inside the 256-byte field, and OpenFile changes no byte
    outside the parameter block. *)
Theorem filename_truncated (hdr : dataslot_h) (bridge : Device)
    (filename : string) (flags size : Z) (w : World) :
  let m' := mem (snd (dataslot_open_file hdr bridge filename flags size w)) in
  let p := PARAM_BUFFER_ADDR in
  load_str m' p 256 = firstn 255 (c_str filename) /\
  List.length (load_str m' p 256) = Nat.min 255 (strlen filename) /\
  m' (p + 255) = 0 /\
  (forall (m : Z -> Z) (x : Z),
      x < p \/ p + FILENAME_SIZE <= x ->
      store8 (p + 255) 0 (strncpy p filename 255 m) x = m x) /\
  (forall x, x < p \/ p + Z.of_nat SIZEOF_open_param <= x -> m' x = mem w x).
Proof.
  cbv zeta. rewrite open_file_mem.
  unfold OFFSET_size, OFFSET_flags, FILENAME_SIZE, SIZEOF_open_param.
  set (p := PARAM_BUFFER_ADDR).
  set (m0 := memset p 0 264 (mem w)).
  assert (Hload : load_str
            (store32 (p + 260) (uint32 size)
               (store32 (p + 256) (uint32 flags)
                  (store8 (p + 255) 0 (strncpy p filename 255 m0)))) p 256
          = firstn 255 (c_str filename)).
  { apply load_str_spec.
    - pose proof (firstn_le_length 255 (c_str filename)). lia.
    - apply Forall_firstn_nonzero, c_str_nonzero.
    - intros i Hi. rewrite !store32_other by lia.
      rewrite nth_firstn.
      destruct (Nat.eq_dec i 255) as [-> | Hne].
      + change (Z.of_nat 255) with 255. rewrite store8_same. reflexivity.
      + rewrite store8_other by lia.
        rewrite strncpy_at by lia.
        replace (i <? 255)%nat with true; [reflexivity|].
        symmetry. apply Nat.ltb_lt. lia. }
  split; [exact Hload|]. split; [|split; [|split]].
  - rewrite Hload. apply length_firstn.
  - rewrite !store32_other by lia. rewrite store8_same. reflexivity.
  - intros m x Hx. rewrite store8_other by lia.
    apply strncpy_outside. change (Z.of_nat 255) with 255. lia.
  - intros x Hx. change (Z.of_nat 264) with 264 in Hx.
    rewrite !store32_other by lia. rewrite store8_other by lia.
    rewrite strncpy_outside by (change (Z.of_nat 255) with 255; lia).
    unfold m0. apply memset_outside. change (Z.of_nat 264) with 264. lia.
Qed.

Lemma filename_truncated_witness :
  List.length
    (load_str (mem (snd (dataslot_open_file pocket_h (stuck_bridge 0) long_name 1 0 world0)))
       PARAM_BUFFER_ADDR 256) = 255%nat /\
  mem (snd (dataslot_open_file pocket_h (stuck_bridge 0) long_name 1 0 world0))
    (PARAM_BUFFER_ADDR + 255) = 0.
Proof.
  destruct (filename_truncated pocket_h (stuck_bridge 0) long_name 1 0 world0)
    as (_ & Hlen & Hnul & _).
  split; [|exact Hnul].
  rewrite Hlen. reflexivity.
Defined.

(** * More of dataslot.c *)

(** ** Integer and memory helpers *)

Lemma int32_range (x : Z) : - 2 ^ 31 <= int32 x < 2 ^ 31.
Proof.
  unfold int32. pose proof (Z.mod_pos_bound (x + 2 ^ 31) (2 ^ 32) eq_refl). lia.
Qed.

Lemma result_of_zero (hdr : dataslot_h) (fs : Z) :
  result_of hdr fs = 0 -> int32 (err_field hdr fs) = 0.
Proof.
  unfold result_of. cbv zeta.
  pose proof (int32_range (err_field hdr fs)) as Hr.
  destruct (int32 (err_field hdr fs) =? 0) eqn:E.
  - intros _. now apply Z.eqb_eq.
  - intros H. apply Z.eqb_neq in E. exfalso.
    destruct (Z.eq_dec (int32 (err_field hdr fs)) (- 2 ^ 31)) as [Hm | Hm].
    + rewrite Hm in H. vm_compute in H. discriminate.
    + rewrite int32_small in H by lia. lia.
Qed.

Lemma bytes_of_uint32 (v : Z) :
  uint8 v + 2 ^ 8 * uint8 (Z.shiftr v 8) + 2 ^ 16 * uint8 (Z.shiftr v 16)
    + 2 ^ 24 * uint8 (Z.shiftr v 24) = uint32 v.
Proof.
  unfold uint8, uint32. rewrite !Z.shiftr_div_pow2 by lia.
  change (2 ^ 8) with 256. change (2 ^ 16) with 65536.
  change (2 ^ 24) with 16777216. change (2 ^ 32) with 4294967296.
  Z.to_euclidean_division_equations. lia.
Qed.

Lemma load32_store32 (a v : Z) (m : Z -> Z) :
  load32 (store32 a v m) a = uint32 v.
Proof.
  unfold load32, store32.
  rewrite (store8_other (a + 3) _ _ a), (store8_other (a + 2) _ _ a),
    (store8_other (a + 1) _ _ a), store8_same by lia.
  rewrite (store8_other (a + 3) _ _ (a + 1)), (store8_other (a + 2) _ _ (a + 1)),
    store8_same by lia.
  rewrite (store8_other (a + 3) _ _ (a + 2)), store8_same by lia.
  rewrite store8_same.
  apply bytes_of_uint32.
Qed.

Lemma store8_ext (a v : Z) (m1 m2 : Z -> Z) (x : Z) :
  m1 x = m2 x -> store8 a v m1 x = store8 a v m2 x.
Proof. intros H. unfold store8. destruct (x =? a); [reflexivity | exact H]. Qed.

Lemma store32_ext (a v : Z) (m1 m2 : Z -> Z) (x : Z) :
  m1 x = m2 x -> store32 a v m1 x = store32 a v m2 x.
Proof. intros H. unfold store32. now do 4 apply store8_ext. Qed.

Lemma memset_ext (c : Z) (n : nat) :
  forall (s : Z) (m1 m2 : Z -> Z) (x : Z),
    m1 x = m2 x -> memset s c n m1 x = memset s c n m2 x.
Proof.
  induction n as [|n IH]; intros s m1 m2 x H; [exact H|].
  simpl. apply IH. now apply store8_ext.
Qed.

Lemma strncpy_ext (n : nat) :
  forall (dest : Z) (src : string) (m1 m2 : Z -> Z) (x : Z),
    m1 x = m2 x -> strncpy dest src n m1 x = strncpy dest src n m2 x.
Proof.
  induction n as [|n IH]; intros dest src m1 m2 x H; [exact H|].
  destruct src as [|c rest]; cbn [strncpy].
  - now apply memset_ext.
  - destruct (char_code c =? 0).
    + now apply memset_ext.
    + apply IH. now apply store8_ext.
Qed.

Lemma exit_trace_not_DS (hdr : dataslot_h) (s0 : Z) (d : bool) (e : wait_exit) :
  Forall (fun m => ~ is_DS m) (exit_trace hdr s0 d e).
Proof.
  destruct e, d; simpl; repeat constructor; intros H; exact H.
Qed.

Lemma exit_trace_shape (hdr : dataslot_h) (s0 : Z) (d : bool) (e : wait_exit) :
  (2 <= List.length (exit_trace hdr s0 d e) <= 6)%nat /\
  last (exit_trace hdr s0 d e) wait_got_ACK = wait_initial_status s0.
Proof.
  destruct e, d; simpl; split; try lia; reflexivity.
Qed.

(** ** The slot size *)

(** X9. [dataslot_get_size] never talks to the bridge.  With a null
    [size_out] it returns -1 and changes nothing; otherwise it returns 0
    and stores, little-endian at [size_out], 4 MiB for slot 0, 20 MiB for
    slot 1 and 1 MiB for every other slot, leaving the registers, the
    status register, the trace and all other memory as they were. *)
Theorem get_size_fixed_table (slot_id size_out : Z) (w : World) :
  (uint32 size_out = 0 -> dataslot_get_size slot_id size_out w = (-1, w)) /\
  (uint32 size_out <> 0 ->
   exists m' : Z -> Z,
     dataslot_get_size slot_id size_out w =
       (0, {| regs := regs w; mem := m'; polls := polls w; spins := spins w;
              term := term w |}) /\
     load32 m' (uint32 size_out) =
       (if uint16 slot_id =? 0 then 4 * 1024 * 1024
        else if uint16 slot_id =? 1 then 20 * 1024 * 1024
        else 1 * 1024 * 1024) /\
     (forall x, x < uint32 size_out \/ uint32 size_out + 4 <= x ->
                m' x = mem w x)).
Proof.
  unfold dataslot_get_size. split.
  - intros H. apply Z.eqb_eq in H. rewrite H. reflexivity.
  - intros H. apply Z.eqb_neq in H. rewrite H.
    eexists. split; [reflexivity|]. split.
    + rewrite load32_store32.
      destruct (uint16 slot_id) as [|[q|q|]|q]; reflexivity.
    + intros x Hx. now apply store32_other.
Qed.

Lemma get_size_fixed_table_witness :
  dataslot_get_size 1 0 world0 = (-1, world0) /\
  exists m' : Z -> Z,
    dataslot_get_size 1 0x10000100 world0 =
      (0, {| regs := regs world0; mem := m'; polls := polls world0;
             spins := spins world0; term := term world0 |}) /\
    load32 m' 0x10000100 = 20 * 1024 * 1024.
Proof.
  split.
  - apply (proj1 (get_size_fixed_table 1 0 world0)). reflexivity.
  - destruct (proj2 (get_size_fixed_table 1 0x10000100 world0)) as (m' & H1 & H2 & _).
    + discriminate.
    + exists m'. split; [exact H1 | exact H2].
Defined.

(** ** OpenFile *)

(** X10. [dataslot_open_file] checks nothing and always issues its
    command: it sets the slot id register to 0 and the parameter and
    response address registers to the bridge addresses of the two fixed
    buffers, triggers exactly one command, OPENFILE, and leaves the offset,
    bridge address and length registers as they were; what it returns and
    the rest of the world are what the waiter makes of that state. *)
Theorem open_file_programs (hdr : dataslot_h) (bridge : Device)
    (filename : string) (flags size : Z) (w : World) :
  let run := dataslot_open_file hdr bridge filename flags size w in
  regs (snd run) =
    {| DS_SLOT_ID := 0;
       DS_SLOT_OFFSET := DS_SLOT_OFFSET (regs w);
       DS_BRIDGE_ADDR := DS_BRIDGE_ADDR (regs w);
       DS_LENGTH := DS_LENGTH (regs w);
       DS_PARAM_ADDR := uint32 (CPU_TO_BRIDGE_ADDR hdr 0x10F00000);
       DS_RESP_ADDR := uint32 (CPU_TO_BRIDGE_ADDR hdr 0x10F01000);
       DS_COMMAND := uint32 (DS_CMD_OPENFILE hdr) :: DS_COMMAND (regs w) |} /\
  run = dataslot_wait_complete hdr bridge
          {| regs := regs (snd run); mem := mem (snd run); polls := polls w;
             spins := spins w; term := term w |}.
Proof.
  cbv zeta. unfold dataslot_open_file.
  cbv beta iota zeta delta
    [bind set_mem set_regs write_SLOT_ID write_PARAM_ADDR write_RESP_ADDR
     write_COMMAND regs mem polls spins term DS_SLOT_ID DS_SLOT_OFFSET
     DS_BRIDGE_ADDR DS_LENGTH DS_PARAM_ADDR DS_RESP_ADDR DS_COMMAND].
  match goal with
  | |- context [dataslot_wait_complete hdr bridge ?X] =>
      set (w1 := X);
      destruct (wait_complete_frame hdr bridge w1) as (e & a & b & s0 & d & Hrun)
  end.
  rewrite Hrun. cbn [fst snd regs mem after]. split; [reflexivity|].
  rewrite <- Hrun. reflexivity.
Qed.

(** X11. The parameter block [dataslot_open_file] stages depends on its
    arguments only: [flags] and [size] read back, little-endian, from
    offsets 256 and 260, every byte of the name field from the end of the
    name on is NUL, and no byte of the block keeps what the memory held
    before the call. *)
Theorem open_file_block (hdr : dataslot_h) (bridge : Device)
    (filename : string) (flags size : Z) (w : World) :
  let m' := mem (snd (dataslot_open_file hdr bridge filename flags size w)) in
  let p := PARAM_BUFFER_ADDR in
  load32 m' (p + 256) = uint32 flags /\
  load32 m' (p + 260) = uint32 size /\
  (forall i : nat, (strlen filename <= i < 256)%nat -> m' (p + Z.of_nat i) = 0) /\
  (forall (bridge2 : Device) (w2 : World) (x : Z),
      p <= x < p + 264 ->
      mem (snd (dataslot_open_file hdr bridge2 filename flags size w2)) x = m' x).
Proof.
  cbv zeta. rewrite open_file_mem.
  unfold OFFSET_size, OFFSET_flags, SIZEOF_open_param.
  set (p := PARAM_BUFFER_ADDR).
  split; [|split; [|split]].
  - match goal with
    | |- load32 (store32 _ _ ?M) _ = _ => transitivity (load32 M (p + 256))
    end.
    + unfold load32. rewrite !(store32_other (p + 260)) by lia. reflexivity.
    + rewrite load32_store32. apply uint32_idem.
  - rewrite load32_store32. apply uint32_idem.
  - intros i Hi. rewrite !store32_other by lia.
    destruct (Nat.eq_dec i 255) as [-> | Hne].
    + change (Z.of_nat 255) with 255. rewrite store8_same. reflexivity.
    + rewrite store8_other by lia. rewrite strncpy_at by lia.
      apply nth_overflow. unfold strlen in Hi. lia.
  - intros bridge2 w2 x Hx. rewrite open_file_mem.
    unfold OFFSET_size, OFFSET_flags, SIZEOF_open_param. fold p.
    do 2 apply store32_ext. apply store8_ext, strncpy_ext.
    replace x with (p + Z.of_nat (Z.to_nat (x - p))) by lia.
    rewrite !memset_inside by lia. reflexivity.
Qed.

(** ** Write and Load *)

(** X12. A write whose source lies in the window programs the slot id
    cut to 16 bits, the offset, the bridge address of the source and the
    length, and triggers the write command.  Unlike the read it prints
    nothing of its own and reads the status register only through the
    waiter; the memory is left as it was. *)
Theorem write_programs_and_waits (hdr : dataslot_h) (bridge : Device)
    (slot_id offset src length : Z) (w : World) :
  0x10000000 <= src < 0x14000000 ->
  let run := dataslot_write hdr bridge slot_id offset src length w in
  regs (snd run) =
    programmed (DS_CMD_WRITE hdr) (slot_id mod 2 ^ 16) offset
      (CPU_TO_BRIDGE_ADDR hdr src) length (regs w) /\
  mem (snd run) = mem w /\
  (forall new : list term_msg,
      term (snd run) = new ++ term w -> Forall (fun m => ~ is_DS m) new) /\
  run = dataslot_wait_complete hdr bridge
          {| regs := regs (snd run); mem := mem w; polls := polls w;
             spins := spins w; term := term w |}.
Proof.
  intros Hin. cbv zeta.
  assert (H : outside_sdram (uint32 src) = false).
  { rewrite sdram_uint32 by exact Hin. now apply outside_sdram_false. }
  rewrite (dataslot_write_accepted hdr bridge _ _ _ _ _ H).
  destruct (wait_complete_frame hdr bridge (write_issued hdr slot_id offset src length w))
    as (e & a & b & s0 & d & Hrun).
  rewrite Hrun. cbn [fst snd regs mem term after write_issued].
  rewrite (sdram_uint32 src Hin).
  split; [reflexivity|]. split; [reflexivity|]. split.
  - intros new Hnew. apply app_inv_tail in Hnew. subst new.
    apply exit_trace_not_DS.
  - rewrite <- Hrun. unfold write_issued. rewrite (sdram_uint32 src Hin).
    reflexivity.
Qed.

Lemma write_programs_and_waits_witness :
  regs (snd (dataslot_write pocket_h (stuck_bridge 0) 65537 8 0x10000000 16 world0)) =
    programmed 2 1 8 0 16 regs0 /\
  mem (snd (dataslot_write pocket_h (stuck_bridge 0) 65537 8 0x10000000 16 world0)) =
    mem world0.
Proof.
  destruct (write_programs_and_waits pocket_h (stuck_bridge 0) 65537 8 0x10000000 16
              world0) as (Hr & Hm & _); [lia|].
  split; [exact Hr | exact Hm].
Defined.

(** X13. Load validates its destination as the read does: outside the
    window it returns -10 and leaves the world as it was.  A Load that
    returns a value that is not negative has triggered exactly one read
    command, with the slot id cut to 16 bits, offset 0 and the given
    length, and returns [max_length] converted to [int32_t]. *)
Theorem load_rejects_or_reads (hdr : dataslot_h) (bridge : Device)
    (slot_id dest max_length : Z) (w : World) :
  let ld := dataslot_load hdr bridge slot_id dest max_length w in
  (outside_sdram (uint32 dest) = true -> ld = (-10, w)) /\
  (0 <= fst ld ->
   outside_sdram (uint32 dest) = false /\
   DS_COMMAND (regs (snd ld)) = uint32 (DS_CMD_READ hdr) :: DS_COMMAND (regs w) /\
   DS_SLOT_ID (regs (snd ld)) = slot_id mod 2 ^ 16 /\
   DS_SLOT_OFFSET (regs (snd ld)) = 0 /\
   DS_LENGTH (regs (snd ld)) = uint32 max_length /\
   fst ld = int32 (uint32 max_length)).
Proof.
  cbv zeta. rewrite dataslot_load_result.
  destruct (outside_sdram (uint32 dest)) eqn:H.
  - rewrite (dataslot_read_rejected hdr bridge _ _ _ _ _ H). cbn [fst snd].
    split; [reflexivity|]. change (-10 <? 0) with true. cbv iota. lia.
  - split; [discriminate|].
    destruct (dataslot_read_summary hdr bridge (uint16 slot_id) 0 dest max_length w H)
      as (e & a & b & s0 & d & m & s & _ & ->).
    destruct (exit_code hdr e <? 0) eqn:E; cbn [fst snd].
    + apply Z.ltb_lt in E. lia.
    + intros _. cbn [regs after read_issued programmed DS_COMMAND DS_SLOT_ID
                     DS_SLOT_OFFSET DS_LENGTH].
      split; [reflexivity|]. split; [reflexivity|]. split.
      * apply uint32_small. unfold uint16.
        pose proof (Z.mod_pos_bound slot_id (2 ^ 16) eq_refl). lia.
      * split; [reflexivity|]. split; reflexivity.
Qed.

Lemma load_rejects_or_reads_witness :
  dataslot_load pocket_h (stuck_bridge 0) 1 0x20000000 16 world0 = (-10, world0).
Proof.
  apply (proj1 (load_rejects_or_reads pocket_h (stuck_bridge 0) 1 0x20000000 16 world0)).
  reflexivity.
Defined.

(** ** What a result of the waiter tells *)

Section WaiterTells.

Variable hdr : dataslot_h.
Variable bridge : Device.

Local Abbreviation st := (status_at bridge).

Lemma wait_done_zero (w : World) :
  fst (wait_done hdr bridge w) = 0 ->
  exists j : nat,
    done_set hdr (st w (polls w + j)) = true /\
    int32 (err_field hdr (st w (polls w + S j))) = 0 /\
    polls (snd (wait_done hdr bridge w)) = (polls w + S (S j))%nat.
Proof.
  destruct (wait_done_cases hdr bridge w) as (j & _ & _ & [(_ & _ & Hr)|(Hl & Hr)]);
    rewrite Hr; cbn [fst snd polls after]; intros H.
  - discriminate.
  - exists j. split; [exact Hl|]. split; [|reflexivity].
    now apply result_of_zero.
Qed.

Lemma wait_ack_zero (w : World) :
  fst (wait_ack hdr bridge w) = 0 ->
  exists i j : nat,
    ack_set hdr (st w (polls w + i)) = true /\
    done_set hdr (st w (polls w + S i + j)) = true /\
    int32 (err_field hdr (st w (polls w + S i + S j))) = 0 /\
    polls (snd (wait_ack hdr bridge w)) = (polls w + S i + S (S j))%nat.
Proof.
  destruct (wait_ack_cases hdr bridge w) as (i & _ & _ & [(_ & _ & Hr)|(Hl & Hr)]);
    rewrite Hr; intros H.
  - discriminate.
  - destruct (wait_done_zero _ H) as (j & Hd & He & Hp).
    rewrite !status_at_after, !polls_after in *.
    exists i, j. auto.
Qed.

End WaiterTells.

(** X14. A result of 0 from the waiter means that it saw, at loads of the
    status register made in this order during the call, ACK clear, then ACK
    set, then DONE set, and that the error field of the load after that,
    the last of the call, is zero as an [int].  The ACK it accepts is
    never one that was already pending when the call began. *)
Theorem success_saw_fresh_ack_then_done (hdr : dataslot_h) (bridge : Device)
    (w : World) :
  fst (dataslot_wait_complete hdr bridge w) = 0 ->
  exists c a b : nat,
    (polls w < c)%nat /\ (c < a)%nat /\ (a < b)%nat /\
    polls (snd (dataslot_wait_complete hdr bridge w)) = S (S b) /\
    ack_set hdr (status_at bridge w c) = false /\
    ack_set hdr (status_at bridge w a) = true /\
    done_set hdr (status_at bridge w b) = true /\
    int32 (err_field hdr (status_at bridge w (S b))) = 0.
Proof.
  destruct (ack_set hdr (status_at bridge w (polls w + 1))) eqn:Hd.
  - destruct (wait_complete_drain hdr bridge w Hd)
      as (k & _ & _ & [(_ & _ & Hr)|(Hl & Hr)]); rewrite Hr; intros H.
    + discriminate.
    + destruct (wait_ack_zero hdr bridge _ H) as (i & j & Ha & Hdn & He & Hp).
      rewrite Hp. rewrite !status_at_after, !polls_after in *.
      exists (polls w + 2 + k)%nat, (polls w + (2 + S k) + i)%nat,
        (polls w + (2 + S k) + S i + j)%nat.
      split; [lia|]. split; [lia|]. split; [lia|]. split; [lia|].
      split; [exact Hl|]. split; [exact Ha|]. split; [exact Hdn|].
      replace (S (polls w + (2 + S k) + S i + j))
        with (polls w + (2 + S k) + S i + S j)%nat by lia.
      exact He.
  - rewrite (wait_complete_nodrain hdr bridge w Hd). intros H.
    destruct (wait_ack_zero hdr bridge _ H) as (i & j & Ha & Hdn & He & Hp).
    rewrite Hp. rewrite !status_at_after, !polls_after in *.
    exists (polls w + 1)%nat, (polls w + 2 + i)%nat, (polls w + 2 + S i + j)%nat.
    split; [lia|]. split; [lia|]. split; [lia|]. split; [lia|].
    split; [exact Hd|]. split; [exact Ha|]. split; [exact Hdn|].
    replace (S (polls w + 2 + S i + j)) with (polls w + 2 + S i + S j)%nat by lia.
    exact He.
Qed.

Lemma success_saw_fresh_ack_then_done_witness :
  exists c a b : nat,
    (polls world0 < c)%nat /\ (c < a)%nat /\ (a < b)%nat /\
    polls (snd (dataslot_wait_complete pocket_h (prompt_bridge 2 0) world0)) = S (S b) /\
    ack_set pocket_h (status_at (prompt_bridge 2 0) world0 c) = false /\
    ack_set pocket_h (status_at (prompt_bridge 2 0) world0 a) = true /\
    done_set pocket_h (status_at (prompt_bridge 2 0) world0 b) = true /\
    int32 (err_field pocket_h (status_at (prompt_bridge 2 0) world0 (S b))) = 0.
Proof.
  apply (success_saw_fresh_ack_then_done pocket_h (prompt_bridge 2 0) world0).
  rewrite wait_complete_prompt by reflexivity. reflexivity.
Defined.

(** X15. The waiter only observes: it writes no register and no memory.
    Every call reads the status register at least three times and prints
    between two and six messages, the first being the status at entry. *)
Theorem waiter_only_observes (hdr : dataslot_h) (bridge : Device) (w : World) :
  let run := dataslot_wait_complete hdr bridge w in
  regs (snd run) = regs w /\
  mem (snd run) = mem w /\
  (polls w + 3 <= polls (snd run))%nat /\
  (spins w + 1 <= spins (snd run))%nat /\
  exists new : list term_msg,
    term (snd run) = new ++ term w /\
    (2 <= List.length new <= 6)%nat /\
    last new wait_got_ACK = wait_initial_status (status_at bridge w (polls w)).
Proof.
  cbv zeta.
  destruct (wait_complete_summary hdr bridge w)
    as (e & n1 & n2 & n3 & _ & _ & _ & _ & Hok & Hrun).
  rewrite Hrun. cbn [fst snd regs mem polls spins term after].
  pose proof budget_pos as HB.
  split; [reflexivity|]. split; [reflexivity|].
  assert (Hn : (1 <= n1 + n2 + n3)%nat).
  { destruct e; simpl in Hok.
    - destruct Hok as (_ & -> & _). lia.
    - destruct Hok as (-> & _). lia.
    - destruct Hok as (-> & _). lia.
    - destruct Hok as (H3 & _). lia. }
  split; [lia|]. split; [lia|].
  eexists. split; [reflexivity|]. apply exit_trace_shape.
Qed.

(** * The text terminal *)

Module TerminalFacts.

Import Terminal.

Lemma pocket_screen_ok : screen_ok pocket_term.
Proof. unfold screen_ok. simpl. lia. Qed.

Lemma term_at_ok (row col : Z) :
  0 <= row < 30 -> 0 <= col < 40 -> cursor_ok pocket_term (term_at row col).
Proof. intros Hr Hc. unfold cursor_ok. simpl. lia. Qed.

(** ** The loops over the character memory *)

(** A loop that stores [c] at [b + i]. *)
Lemma for_loop_fill (b c : Z) (n : nat) :
  forall (i0 : Z) (body : Z -> (Z -> Z) -> Z -> Z) (v : Z -> Z) (x : Z),
    (forall i u, body i u = store8 (b + i) c u) ->
    for_loop n i0 body v x =
      if (b + i0 <=? x) && (x <? b + i0 + Z.of_nat n) then uint8 c else v x.
Proof.
  induction n as [|n IH]; intros i0 body v x Hb.
  - simpl. replace (x <? b + i0 + 0) with (x <? b + i0) by (f_equal; lia).
    destruct (b + i0 <=? x) eqn:E1, (x <? b + i0) eqn:E2; try reflexivity.
    apply Z.leb_le in E1. apply Z.ltb_lt in E2. lia.
  - cbn [for_loop]. rewrite (IH (i0 + 1) body _ x Hb), Hb.
    unfold store8.
    destruct (x =? b + i0) eqn:E.
    + apply Z.eqb_eq in E.
      replace (b + (i0 + 1) <=? x) with false by (symmetry; apply Z.leb_gt; lia).
      replace (b + i0 <=? x) with true by (symmetry; apply Z.leb_le; lia).
      replace (x <? b + i0 + Z.of_nat (S n)) with true
        by (symmetry; apply Z.ltb_lt; lia).
      reflexivity.
    + apply Z.eqb_neq in E.
      destruct (b + i0 <=? x) eqn:E1.
      * apply Z.leb_le in E1.
        replace (b + (i0 + 1) <=? x) with true by (symmetry; apply Z.leb_le; lia).
        replace (x <? b + (i0 + 1) + Z.of_nat n) with (x <? b + i0 + Z.of_nat (S n))
          by (f_equal; lia).
        reflexivity.
      * apply Z.leb_gt in E1.
        replace (b + (i0 + 1) <=? x) with false by (symmetry; apply Z.leb_gt; lia).
        reflexivity.
Qed.

(** A loop that copies cell [i + k] to cell [i], for [k > 0]: every source
    is read before the loop overwrites it. *)
Lemma for_loop_shift (k : Z) (n : nat) :
  0 < k ->
  forall (i0 : Z) (v : Z -> Z) (x : Z),
    for_loop n i0 (fun i u => store8 i (u (i + k)) u) v x =
      if (i0 <=? x) && (x <? i0 + Z.of_nat n) then uint8 (v (x + k)) else v x.
Proof.
  intros Hk. induction n as [|n IH]; intros i0 v x.
  - simpl. replace (x <? i0 + 0) with (x <? i0) by (f_equal; lia).
    destruct (i0 <=? x) eqn:E1, (x <? i0) eqn:E2; try reflexivity.
    apply Z.leb_le in E1. apply Z.ltb_lt in E2. lia.
  - cbn [for_loop]. rewrite IH. unfold store8.
    destruct (x =? i0) eqn:E.
    + apply Z.eqb_eq in E. subst x.
      replace (i0 + 1 <=? i0) with false by (symmetry; apply Z.leb_gt; lia).
      replace (i0 <=? i0) with true by (symmetry; apply Z.leb_le; lia).
      replace (i0 <? i0 + Z.of_nat (S n)) with true
        by (symmetry; apply Z.ltb_lt; lia).
      reflexivity.
    + apply Z.eqb_neq in E.
      destruct (i0 <=? x) eqn:E1.
      * apply Z.leb_le in E1.
        replace (i0 + 1 <=? x) with true by (symmetry; apply Z.leb_le; lia).
        replace (x <? i0 + 1 + Z.of_nat n) with (x <? i0 + Z.of_nat (S n))
          by (f_equal; lia).
        replace (x + k =? i0) with false by (symmetry; apply Z.eqb_neq; lia).
        reflexivity.
      * apply Z.leb_gt in E1.
        replace (i0 + 1 <=? x) with false by (symmetry; apply Z.leb_gt; lia).
        reflexivity.
Qed.

Section ScreenFacts.

Variable th : terminal_h.
Hypothesis Hscreen : screen_ok th.

Local Abbreviation COLS := (TERM_COLS th).
Local Abbreviation ROWS := (TERM_ROWS th).

(** [scroll_up] moves every line but the first one line up and blanks the
    last line. *)
Lemma scroll_up_spec (v : Z -> Z) (x : Z) :
  scroll_up th v x =
    if (0 <=? x) && (x <? (ROWS - 1) * COLS) then uint8 (v (x + COLS))
    else if ((ROWS - 1) * COLS <=? x) && (x <? ROWS * COLS) then 32
    else v x.
Proof.
  destruct Hscreen as (Hc & Hr & Hsz).
  unfold scroll_up.
  rewrite (for_loop_fill ((ROWS - 1) * COLS) 32) by reflexivity.
  rewrite for_loop_shift by exact Hc.
  rewrite !Z2Nat.id by nia.
  replace ((ROWS - 1) * COLS + 0 + COLS) with (ROWS * COLS) by lia.
  replace ((ROWS - 1) * COLS + 0) with ((ROWS - 1) * COLS) by lia.
  replace (0 + (ROWS - 1) * COLS) with ((ROWS - 1) * COLS) by lia.
  destruct (((ROWS - 1) * COLS <=? x) && (x <? ROWS * COLS)) eqn:E.
  - apply andb_true_iff in E. destruct E as (E1 & E2).
    apply Z.leb_le in E1.
    replace (x <? (ROWS - 1) * COLS) with false by (symmetry; apply Z.ltb_ge; lia).
    rewrite andb_false_r. reflexivity.
  - reflexivity.
Qed.

Lemma scroll_up_outside (v : Z -> Z) (x : Z) :
  x < 0 \/ ROWS * COLS <= x -> scroll_up th v x = v x.
Proof.
  intros Hx. destruct Hscreen as (Hc & Hr & Hsz). rewrite scroll_up_spec.
  replace ((0 <=? x) && (x <? (ROWS - 1) * COLS)) with false.
  - replace (((ROWS - 1) * COLS <=? x) && (x <? ROWS * COLS)) with false;
      [reflexivity|].
    symmetry. apply andb_false_iff.
    destruct Hx; [left; apply Z.leb_gt; nia | right; apply Z.ltb_ge; lia].
  - symmetry. apply andb_false_iff.
    destruct Hx; [left; apply Z.leb_gt; lia | right; apply Z.ltb_ge; nia].
Qed.

(** The cell under a cursor that is on the screen. *)
Lemma cell_index (t : Terminal) :
  cursor_ok th t ->
  int32 (int32 (cursor_row t * COLS) + cursor_col t) =
    cursor_row t * COLS + cursor_col t /\
  0 <= cursor_row t * COLS + cursor_col t < ROWS * COLS.
Proof.
  intros ((Hr1 & Hr2) & (Hc1 & Hc2)). destruct Hscreen as (Hc & Hr & Hsz).
  assert (0 <= cursor_row t * COLS + cursor_col t < ROWS * COLS) by nia.
  split; [|assumption].
  rewrite (int32_small (cursor_row t * COLS)) by nia.
  apply int32_small. lia.
Qed.

Lemma int_sizes :
  ROWS < 2 ^ 31 /\ COLS < 2 ^ 31.
Proof. destruct Hscreen as (Hc & Hr & Hsz). split; nia. Qed.

(** With the cursor on the screen no [int] of [term_putchar] wraps. *)
Lemma term_putchar_unfold (c : Z) (t : Terminal) :
  cursor_ok th t ->
  term_putchar th c t =
    let t1 := after_char th (uint8 c) t in
    if cursor_row t1 <? ROWS then t1
    else {| vram := scroll_up th (vram t1); cursor_row := ROWS - 1;
            cursor_col := cursor_col t1 |}.
Proof.
  intros Hok. destruct (cell_index t Hok) as (Hidx & Hrange).
  destruct Hok as ((Hr1 & Hr2) & (Hc1 & Hc2)).
  destruct int_sizes as (HR & HC).
  unfold term_putchar, after_char. cbv zeta.
  rewrite Hidx.
  rewrite (int32_small (cursor_row t + 1)) by lia.
  rewrite (int32_small (cursor_col t + 1)) by lia.
  rewrite (int32_small (cursor_col t - 1)) by lia.
  rewrite (int32_small (ROWS - 1)) by lia.
  rewrite !Z.geb_leb, !Z.gtb_ltb.
  destruct (uint8 c =? 10).
  { cbn [cursor_row]. rewrite Z.leb_antisym.
    destruct (cursor_row t + 1 <? ROWS); reflexivity. }
  destruct (uint8 c =? 13).
  { cbn [cursor_row]. rewrite Z.leb_antisym.
    destruct (cursor_row t <? ROWS); reflexivity. }
  destruct (uint8 c =? 8).
  { destruct (0 <? cursor_col t); cbn [cursor_row]; rewrite Z.leb_antisym;
      destruct (cursor_row t <? ROWS); try reflexivity.
    all: destruct t; reflexivity. }
  rewrite (Z.leb_antisym (cursor_col t + 1) COLS).
  destruct (cursor_col t + 1 <? COLS); cbn [negb cursor_row];
    rewrite Z.leb_antisym.
  - destruct (cursor_row t <? ROWS); reflexivity.
  - destruct (cursor_row t + 1 <? ROWS); reflexivity.
Qed.

Lemma term_putchar_keeps (c : Z) (t : Terminal) :
  cursor_ok th t ->
  cursor_ok th (term_putchar th c t) /\
  (forall x, x < 0 \/ ROWS * COLS <= x -> vram (term_putchar th c t) x = vram t x).
Proof.
  intros Hok. rewrite (term_putchar_unfold c t Hok). cbv zeta.
  destruct (cell_index t Hok) as (_ & Hrange).
  destruct Hok as ((Hr1 & Hr2) & (Hc1 & Hc2)).
  destruct Hscreen as (Hc & Hr & Hsz).
  assert (Hcur : 0 <= cursor_row (after_char th (uint8 c) t) /\
                 0 <= cursor_col (after_char th (uint8 c) t) < COLS).
  { unfold after_char.
    destruct (uint8 c =? 10); [cbn; lia|].
    destruct (uint8 c =? 13); [cbn; lia|].
    destruct (uint8 c =? 8); cbn.
    - destruct (Z.ltb_spec 0 (cursor_col t)); lia.
    - destruct (Z.ltb_spec (cursor_col t + 1) COLS); lia. }
  assert (Hv : forall x, x < 0 \/ ROWS * COLS <= x ->
                         vram (after_char th (uint8 c) t) x = vram t x).
  { intros x Hx. unfold after_char.
    destruct (uint8 c =? 10); [reflexivity|].
    destruct (uint8 c =? 13); [reflexivity|].
    destruct (uint8 c =? 8); [reflexivity|].
    cbn [vram]. apply store8_other. lia. }
  destruct (Z.ltb_spec (cursor_row (after_char th (uint8 c) t)) ROWS).
  - split; [unfold cursor_ok; lia | exact Hv].
  - split; [unfold cursor_ok; cbn; lia|].
    intros x Hx. cbn [vram]. rewrite scroll_up_outside by exact Hx. now apply Hv.
Qed.

(** A list of characters keeps the cursor on the screen and the writes
    inside the character memory. *)
Lemma term_putchars_keeps (l : list Z) :
  forall t : Terminal,
    cursor_ok th t ->
    cursor_ok th (term_putchars th l t) /\
    (forall x, x < 0 \/ ROWS * COLS <= x -> vram (term_putchars th l t) x = vram t x).
Proof.
  induction l as [|c l IH]; intros t Hok; [split; [exact Hok | reflexivity]|].
  destruct (term_putchar_keeps c t Hok) as (Hok1 & Hv1).
  destruct (IH _ Hok1) as (Hok2 & Hv2).
  split; [exact Hok2|].
  intros x Hx. unfold term_putchars in *. cbn [fold_left].
  rewrite Hv2 by exact Hx. now apply Hv1.
Qed.

Lemma term_puts_putchars (s : string) :
  forall t : Terminal, term_puts th s t = term_putchars th (c_str s) t.
Proof.
  induction s as [|c rest IH]; intros t; [reflexivity|].
  cbn [term_puts c_str]. destruct (char_code c =? 0); [reflexivity|].
  rewrite IH. reflexivity.
Qed.

Lemma uint8_idem (c : Z) : uint8 (uint8 c) = uint8 c.
Proof.
  unfold uint8. apply Z.mod_small. apply Z.mod_pos_bound. reflexivity.
Qed.

Lemma term_getpos_cell (t : Terminal) :
  cursor_ok th t ->
  term_getpos th t = cursor_row t * COLS + cursor_col t /\
  0 <= term_getpos th t < ROWS * COLS.
Proof.
  intros Hok. unfold term_getpos.
  destruct (cell_index t Hok) as (-> & H). split; [reflexivity | exact H].
Qed.

(** X1. With the cursor on the screen, [term_putchar], [term_puts] and
    [term_println] leave it on the screen and write inside the
    [TERM_ROWS * TERM_COLS] cells of the character memory only, whatever
    is printed. *)
Theorem printing_stays_on_screen (t : Terminal) (c : Z) (s : string) :
  cursor_ok th t ->
  (cursor_ok th (term_putchar th c t) /\
   forall x, x < 0 \/ ROWS * COLS <= x -> vram (term_putchar th c t) x = vram t x) /\
  (cursor_ok th (term_puts th s t) /\
   forall x, x < 0 \/ ROWS * COLS <= x -> vram (term_puts th s t) x = vram t x) /\
  (cursor_ok th (term_println th s t) /\
   forall x, x < 0 \/ ROWS * COLS <= x -> vram (term_println th s t) x = vram t x).
Proof.
  intros Hok.
  assert (Hputs : cursor_ok th (term_puts th s t) /\
                  forall x, x < 0 \/ ROWS * COLS <= x ->
                            vram (term_puts th s t) x = vram t x).
  { rewrite term_puts_putchars. now apply term_putchars_keeps. }
  split; [now apply term_putchar_keeps|]. split; [exact Hputs|].
  destruct Hputs as (Hok1 & Hv1). unfold term_println.
  destruct (term_putchar_keeps 10 _ Hok1) as (Hok2 & Hv2).
  split; [exact Hok2|]. intros x Hx. rewrite Hv2 by exact Hx. now apply Hv1.
Qed.

(** X2. A newline with the cursor above the last row moves the cursor to
    the start of the next row and leaves the character memory alone.  On
    the last row it scrolls: every cell takes the character one row below
    it, the last row is blank, and the cursor goes to the start of the
    last row. *)
Theorem newline_moves_or_scrolls (t : Terminal) :
  cursor_ok th t ->
  (cursor_row t < ROWS - 1 ->
   term_putchar th 10 t =
     {| vram := vram t; cursor_row := cursor_row t + 1; cursor_col := 0 |}) /\
  (cursor_row t = ROWS - 1 ->
   cursor_row (term_putchar th 10 t) = ROWS - 1 /\
   cursor_col (term_putchar th 10 t) = 0 /\
   (forall x, 0 <= x < (ROWS - 1) * COLS ->
              vram (term_putchar th 10 t) x = uint8 (vram t (x + COLS))) /\
   (forall x, (ROWS - 1) * COLS <= x < ROWS * COLS ->
              vram (term_putchar th 10 t) x = 32)).
Proof.
  intros Hok. rewrite (term_putchar_unfold 10 t Hok). cbv zeta.
  change (uint8 10) with 10. unfold after_char. cbn [Z.eqb Pos.eqb cursor_row cursor_col vram].
  destruct Hscreen as (Hc & Hr & Hsz).
  split; intros Hrow.
  - replace (cursor_row t + 1 <? ROWS) with true by (symmetry; apply Z.ltb_lt; lia).
    reflexivity.
  - replace (cursor_row t + 1 <? ROWS) with false by (symmetry; apply Z.ltb_ge; lia).
    cbn [cursor_row cursor_col vram].
    split; [reflexivity|]. split; [reflexivity|]. split.
    + intros x Hx. rewrite scroll_up_spec.
      replace ((0 <=? x) && (x <? (ROWS - 1) * COLS)) with true; [reflexivity|].
      symmetry. apply andb_true_iff. split; [apply Z.leb_le | apply Z.ltb_lt]; lia.
    + intros x Hx. rewrite scroll_up_spec.
      replace ((0 <=? x) && (x <? (ROWS - 1) * COLS)) with false.
      * replace (((ROWS - 1) * COLS <=? x) && (x <? ROWS * COLS)) with true;
          [reflexivity|].
        symmetry. apply andb_true_iff. split; [apply Z.leb_le | apply Z.ltb_lt]; lia.
      * symmetry. apply andb_false_iff. right. apply Z.ltb_ge. lia.
Qed.

(** X3. An ordinary character (not newline, carriage return or backspace)
    printed anywhere but in the last cell of the screen is stored in the
    cell under the cursor, changes no other cell, and advances the cursor
    position by one; at the end of a row the cursor goes to the start of
    the next row. *)
Theorem ordinary_char_advances (c : Z) (t : Terminal) :
  cursor_ok th t ->
  uint8 c <> 10 -> uint8 c <> 13 -> uint8 c <> 8 ->
  term_getpos th t + 1 < ROWS * COLS ->
  term_getpos th (term_putchar th c t) = term_getpos th t + 1 /\
  vram (term_putchar th c t) (term_getpos th t) = uint8 c /\
  (forall x, x <> term_getpos th t -> vram (term_putchar th c t) x = vram t x) /\
  (cursor_col t = COLS - 1 ->
   cursor_row (term_putchar th c t) = cursor_row t + 1 /\
   cursor_col (term_putchar th c t) = 0).
Proof.
  intros Hok H10 H13 H8 Hlast.
  destruct (term_putchar_keeps c t Hok) as (Hok' & _).
  destruct (term_getpos_cell _ Hok') as (Hpos' & _).
  destruct (term_getpos_cell t Hok) as (Hpos & _).
  rewrite Hpos', Hpos in *. clear Hpos' Hpos Hok'.
  rewrite (term_putchar_unfold c t Hok). cbv zeta. unfold after_char.
  apply Z.eqb_neq in H10, H13, H8. rewrite H10, H13, H8.
  destruct Hok as ((Hr1 & Hr2) & (Hc1 & Hc2)).
  destruct Hscreen as (Hc & Hr & Hsz).
  cbn [cursor_row cursor_col vram].
  destruct (Z.ltb_spec (cursor_col t + 1) COLS) as [Hcol | Hcol].
  - replace (cursor_row t <? ROWS) with true by (symmetry; apply Z.ltb_lt; lia).
    cbn [cursor_row cursor_col vram].
    split; [lia|]. split; [rewrite store8_same; apply uint8_idem|].
    split; [intros x Hx; now apply store8_other | lia].
  - assert (cursor_row t + 1 < ROWS) by nia.
    replace (cursor_row t + 1 <? ROWS) with true by (symmetry; apply Z.ltb_lt; lia).
    cbn [cursor_row cursor_col vram].
    split; [nia|]. split; [rewrite store8_same; apply uint8_idem|].
    split; [intros x Hx; now apply store8_other | auto].
Qed.

(** X4. An ordinary character printed in the last cell of the screen
    scrolls it: the character ends up in the last cell of the row above,
    the last row is blank and the cursor is at its start. *)
Theorem last_cell_scrolls (c : Z) (t : Terminal) :
  cursor_ok th t ->
  uint8 c <> 10 -> uint8 c <> 13 -> uint8 c <> 8 ->
  term_getpos th t + 1 = ROWS * COLS ->
  1 < ROWS ->
  term_getpos th (term_putchar th c t) = (ROWS - 1) * COLS /\
  vram (term_putchar th c t) ((ROWS - 1) * COLS - 1) = uint8 c /\
  (forall x, 0 <= x < (ROWS - 1) * COLS - 1 ->
             vram (term_putchar th c t) x = uint8 (vram t (x + COLS))) /\
  (forall x, (ROWS - 1) * COLS <= x < ROWS * COLS ->
             vram (term_putchar th c t) x = 32).
Proof.
  intros Hok H10 H13 H8 Hlast Hrows.
  destruct (term_putchar_keeps c t Hok) as (Hok' & _).
  destruct (term_getpos_cell _ Hok') as (Hpos' & _).
  destruct (term_getpos_cell t Hok) as (Hpos & _).
  rewrite Hpos', Hpos in *. clear Hpos' Hpos Hok'.
  rewrite (term_putchar_unfold c t Hok). cbv zeta. unfold after_char.
  apply Z.eqb_neq in H10, H13, H8. rewrite H10, H13, H8.
  destruct Hok as ((Hr1 & Hr2) & (Hc1 & Hc2)).
  destruct Hscreen as (Hc & Hr & Hsz).
  assert (Hcol : cursor_col t = COLS - 1) by nia.
  assert (Hrow : cursor_row t = ROWS - 1) by nia.
  cbn [cursor_row cursor_col vram].
  replace (cursor_col t + 1 <? COLS) with false by (symmetry; apply Z.ltb_ge; lia).
  replace (cursor_row t + 1 <? ROWS) with false by (symmetry; apply Z.ltb_ge; lia).
  cbn [cursor_row cursor_col vram].
  split; [lia|]. split; [|split].
  - rewrite scroll_up_spec.
    replace ((0 <=? (ROWS - 1) * COLS - 1) && ((ROWS - 1) * COLS - 1 <? (ROWS - 1) * COLS))
      with true
      by (symmetry; apply andb_true_iff; split; [apply Z.leb_le | apply Z.ltb_lt]; nia).
    replace ((ROWS - 1) * COLS - 1 + COLS) with (cursor_row t * COLS + cursor_col t)
      by nia.
    rewrite store8_same. now rewrite !uint8_idem.
  - intros x Hx. rewrite scroll_up_spec.
    replace ((0 <=? x) && (x <? (ROWS - 1) * COLS)) with true
      by (symmetry; apply andb_true_iff; split; [apply Z.leb_le | apply Z.ltb_lt]; lia).
    rewrite store8_other by nia. reflexivity.
  - intros x Hx. rewrite scroll_up_spec.
    replace ((0 <=? x) && (x <? (ROWS - 1) * COLS)) with false
      by (symmetry; apply andb_false_iff; right; apply Z.ltb_ge; lia).
    replace (((ROWS - 1) * COLS <=? x) && (x <? ROWS * COLS)) with true;
      [reflexivity|].
    symmetry. apply andb_true_iff. split; [apply Z.leb_le | apply Z.ltb_lt]; lia.
Qed.

End ScreenFacts.

Lemma printing_stays_on_screen_witness :
  cursor_ok pocket_term (term_putchar pocket_term 65 (term_at 29 39)) /\
  cursor_ok pocket_term (term_println pocket_term "wait: got ACK" (term_at 29 39)).
Proof.
  destruct (printing_stays_on_screen pocket_term pocket_screen_ok (term_at 29 39)
              65 "wait: got ACK"%string) as ((H1 & _) & _ & (H3 & _)).
  - apply term_at_ok; lia.
  - split; [exact H1 | exact H3].
Defined.

Lemma newline_moves_or_scrolls_witness :
  term_putchar pocket_term 10 (term_at 3 5) =
    {| vram := vram (term_at 3 5); cursor_row := 3 + 1; cursor_col := 0 |} /\
  cursor_row (term_putchar pocket_term 10 (term_at 29 5)) = 30 - 1.
Proof.
  split.
  - apply (proj1 (newline_moves_or_scrolls pocket_term pocket_screen_ok (term_at 3 5)
                    (term_at_ok 3 5 ltac:(lia) ltac:(lia)))).
    simpl. lia.
  - apply (proj2 (newline_moves_or_scrolls pocket_term pocket_screen_ok (term_at 29 5)
                    (term_at_ok 29 5 ltac:(lia) ltac:(lia)))).
    reflexivity.
Defined.

Lemma ordinary_char_advances_witness :
  term_getpos pocket_term (term_putchar pocket_term 65 (term_at 3 39)) =
    term_getpos pocket_term (term_at 3 39) + 1 /\
  vram (term_putchar pocket_term 65 (term_at 3 39))
    (term_getpos pocket_term (term_at 3 39)) = uint8 65.
Proof.
  destruct (ordinary_char_advances pocket_term pocket_screen_ok 65 (term_at 3 39))
    as (H1 & H2 & _).
  - apply term_at_ok; lia.
  - discriminate.
  - discriminate.
  - discriminate.
  - reflexivity.
  - split; [exact H1 | exact H2].
Defined.

Lemma last_cell_scrolls_witness :
  term_getpos pocket_term (term_putchar pocket_term 65 (term_at 29 39)) =
    (30 - 1) * 40 /\
  vram (term_putchar pocket_term 65 (term_at 29 39)) ((30 - 1) * 40 - 1) = uint8 65.
Proof.
  destruct (last_cell_scrolls pocket_term pocket_screen_ok 65 (term_at 29 39))
    as (H1 & H2 & _).
  - apply term_at_ok; lia.
  - discriminate.
  - discriminate.
  - discriminate.
  - reflexivity.
  - reflexivity.
  - split; [exact H1 | exact H2].
Defined.

(** ** Numbers *)

Section PrintFacts.

Variable th : terminal_h.

Lemma term_puthex_putchars (val : Z) (n : nat) :
  forall t : Terminal,
    for_down n
      (fun i t =>
         term_putchar th
           (nth (Z.to_nat (Z.land (Z.shiftr (uint32 val) (i * 4)) 15)) hex 0) t)
      t = term_putchars th (hex_chars val n) t.
Proof.
  induction n as [|n IH]; intros t; [reflexivity|].
  cbn [for_down hex_chars]. rewrite IH. reflexivity.
Qed.

End PrintFacts.

Lemma hex_value_acc (l : list Z) :
  forall acc : Z,
    fold_left (fun a c => 16 * a + hex_digit_value c) l acc =
      acc * 16 ^ Z.of_nat (List.length l) + hex_value l.
Proof.
  unfold hex_value.
  induction l as [|c l IH]; intros acc; [simpl; lia|].
  cbn [fold_left List.length]. rewrite IH, (IH (16 * 0 + hex_digit_value c)).
  rewrite Nat2Z.inj_succ, Z.pow_succ_r by lia. ring.
Qed.

Lemma hex_digit_of_nibble (k : nat) :
  (k < 16)%nat -> hex_digit_value (nth k hex 0) = Z.of_nat k /\ In (nth k hex 0) hex.
Proof.
  intros H.
  do 16 (destruct k as [|k]; [split; [reflexivity | simpl; tauto]|]).
  lia.
Qed.

Lemma hex_chars_length (val : Z) (n : nat) : List.length (hex_chars val n) = n.
Proof. induction n as [|n IH]; [reflexivity|]. cbn [hex_chars List.length]. now rewrite IH. Qed.

Lemma nibble_range (x : Z) : 0 <= Z.land x 15 < 16.
Proof.
  change 15 with (Z.ones 4). rewrite Z.land_ones by lia.
  apply Z.mod_pos_bound. reflexivity.
Qed.

Lemma hex_chars_value (val : Z) (n : nat) :
  hex_value (hex_chars val n) = uint32 val mod 16 ^ Z.of_nat n /\
  Forall (fun c => In c hex) (hex_chars val n).
Proof.
  induction n as [|n (IHv & IHf)].
  - split; [|constructor]. simpl. now rewrite Z.mod_1_r.
  - cbn [hex_chars].
    set (k := Z.land (Z.shiftr (uint32 val) (Z.of_nat n * 4)) 15).
    pose proof (nibble_range (Z.shiftr (uint32 val) (Z.of_nat n * 4))) as Hk.
    fold k in Hk.
    destruct (hex_digit_of_nibble (Z.to_nat k)) as (Hd & Hin); [lia|].
    split; [|constructor; assumption].
    unfold hex_value. cbn [fold_left].
    rewrite hex_value_acc, hex_chars_length, IHv, Hd, Z2Nat.id by lia.
    unfold k. change 15 with (Z.ones 4). rewrite Z.land_ones by lia.
    rewrite Z.shiftr_div_pow2 by lia.
    replace (Z.of_nat n * 4) with (4 * Z.of_nat n) by lia.
    rewrite Z.pow_mul_r by lia. change (2 ^ 4) with 16.
    rewrite Nat2Z.inj_succ, Z.pow_succ_r by lia.
    pose proof (Z.pow_pos_nonneg 16 (Z.of_nat n) ltac:(lia) ltac:(lia)) as Hp.
    rewrite (Z.mul_comm 16 (16 ^ Z.of_nat n)), Z.rem_mul_r by lia.
    ring.
Qed.

(** X5. [term_puthex(val, digits)] with [0 <= digits <= 8] prints exactly
    [digits] characters of ["0123456789ABCDEF"], and they read as
    [val mod 16 ^ digits]: the value is cut to its low digits, not
    widened.  With [digits = 0] nothing is printed. *)
Theorem puthex_prints_low_digits (th : terminal_h) (val digits : Z) :
  0 <= digits <= 8 ->
  exists chars : list Z,
    (forall t, term_puthex th val digits t = term_putchars th chars t) /\
    Z.of_nat (List.length chars) = digits /\
    Forall (fun c => In c hex) chars /\
    hex_value chars = uint32 val mod 16 ^ digits.
Proof.
  intros Hd. exists (hex_chars val (Z.to_nat digits)).
  destruct (hex_chars_value val (Z.to_nat digits)) as (Hv & Hf).
  rewrite Z2Nat.id in Hv by lia.
  split; [|split; [|split]].
  - intros t. apply term_puthex_putchars.
  - rewrite hex_chars_length. lia.
  - exact Hf.
  - exact Hv.
Qed.

Lemma puthex_prints_low_digits_witness :
  exists chars : list Z,
    (forall t, term_puthex pocket_term 291 2 t = term_putchars pocket_term chars t) /\
    Z.of_nat (List.length chars) = 2 /\
    Forall (fun c => In c hex) chars /\
    hex_value chars = uint32 291 mod 16 ^ 2.
Proof.
  apply (puthex_prints_low_digits pocket_term 291 2). lia.
Defined.

Lemma dec_loop_step (val : Z) (buf : list Z) :
  dec_loop val buf =
    if val >? 0 then dec_loop (Z.quot val 10) (uint8 (48 + Z.rem val 10) :: buf)
    else buf.
Proof.
  funelim (dec_loop val buf).
  - rewrite e. reflexivity.
  - rewrite e. reflexivity.
Qed.

Lemma dec_digit (val : Z) :
  0 < val ->
  uint8 (48 + Z.rem val 10) = 48 + val mod 10 /\
  Z.quot val 10 = val / 10 /\ 0 <= val mod 10 < 10.
Proof.
  intros H. rewrite Z.rem_mod_nonneg, Z.quot_div_nonneg by lia.
  pose proof (Z.mod_pos_bound val 10 ltac:(lia)) as Hm.
  split; [|split; [reflexivity | exact Hm]].
  unfold uint8. apply Z.mod_small. lia.
Qed.

(** The digits stored by the loop read as [val], whatever the buffer
    held. *)
Lemma dec_loop_fold (n : nat) :
  forall (val : Z) (buf : list Z),
    0 <= val -> (Z.to_nat val < n)%nat ->
    fold_left (fun acc c => 10 * acc + (c - 48)) (dec_loop val buf) 0 =
      fold_left (fun acc c => 10 * acc + (c - 48)) buf val.
Proof.
  induction n as [|n IH]; intros val buf H0 Hn; [lia|].
  rewrite dec_loop_step. destruct (val >? 0) eqn:E.
  - apply Z.gtb_lt in E. destruct (dec_digit val E) as (-> & -> & Hm).
    pose proof (Z.div_lt val 10 ltac:(lia) ltac:(lia)).
    pose proof (Z.div_pos val 10 ltac:(lia) ltac:(lia)).
    rewrite IH by lia. cbn [fold_left]. f_equal.
    pose proof (Z.div_mod val 10 ltac:(lia)). lia.
  - assert (val = 0) as -> by (rewrite Z.gtb_ltb in E; apply Z.ltb_ge in E; lia).
    reflexivity.
Qed.

(** The loop stores decimal digits, the last one stored not being a
    zero. *)
Lemma dec_loop_digits (n : nat) :
  forall (val : Z) (buf : list Z),
    0 < val -> (Z.to_nat val < n)%nat ->
    Forall (fun c => 48 <= c <= 57) buf ->
    Forall (fun c => 48 <= c <= 57) (dec_loop val buf) /\
    exists c rest, dec_loop val buf = c :: rest /\ 49 <= c <= 57.
Proof.
  induction n as [|n IH]; intros val buf H0 Hn Hbuf; [lia|].
  rewrite dec_loop_step.
  replace (val >? 0) with true by (symmetry; apply Z.gtb_lt; lia).
  destruct (dec_digit val H0) as (-> & -> & Hm).
  destruct (Z.eq_dec (val / 10) 0) as [Hq | Hq].
  - rewrite Hq, dec_loop_step. cbn [Z.gtb Z.compare].
    assert (val mod 10 = val).
    { pose proof (Z.div_mod val 10 ltac:(lia)). lia. }
    split; [constructor; [lia | exact Hbuf]|].
    eexists. eexists. split; [reflexivity | lia].
  - pose proof (Z.div_lt val 10 ltac:(lia) ltac:(lia)).
    pose proof (Z.div_pos val 10 ltac:(lia) ltac:(lia)).
    apply IH; [lia | lia |]. constructor; [lia | exact Hbuf].
Qed.

(** A value below [10 ^ k] adds at most [k] characters to the buffer. *)
Lemma dec_loop_length (k : nat) :
  forall (val : Z) (buf : list Z),
    0 <= val < 10 ^ Z.of_nat k ->
    (List.length (dec_loop val buf) <= List.length buf + k)%nat.
Proof.
  induction k as [|k IH]; intros val buf H; rewrite dec_loop_step.
  - replace (val >? 0) with false; [lia|].
    symmetry. rewrite Z.gtb_ltb. apply Z.ltb_ge. simpl in H. lia.
  - destruct (val >? 0) eqn:E; [|lia].
    apply Z.gtb_lt in E. destruct (dec_digit val E) as (-> & -> & _).
    rewrite Nat2Z.inj_succ, Z.pow_succ_r in H by lia.
    assert (0 <= val / 10 < 10 ^ Z.of_nat k).
    { split; [apply Z.div_pos; lia | apply Z.div_lt_upper_bound; lia]. }
    specialize (IH (val / 10) ((48 + val mod 10) :: buf) H0).
    cbn [List.length] in IH. lia.
Qed.



(** ** Cursor placement and clearing *)

(** X7. [term_setpos] checks the row and the column separately: a
    component inside the screen is taken, one outside is ignored, so the
    cursor stays on the screen and the character memory is untouched.
    After a placement inside the screen [term_getpos] is
    [row * TERM_COLS + col], from which the row and the column are
    recovered by division. *)
Theorem setpos_validates (th : terminal_h) (row col : Z) (t : Terminal) :
  screen_ok th ->
  cursor_ok th t ->
  cursor_ok th (term_setpos th row col t) /\
  vram (term_setpos th row col t) = vram t /\
  cursor_row (term_setpos th row col t) =
    (if (0 <=? row) && (row <? TERM_ROWS th) then row else cursor_row t) /\
  cursor_col (term_setpos th row col t) =
    (if (0 <=? col) && (col <? TERM_COLS th) then col else cursor_col t) /\
  (0 <= row < TERM_ROWS th -> 0 <= col < TERM_COLS th ->
   term_getpos th (term_setpos th row col t) = row * TERM_COLS th + col /\
   term_getpos th (term_setpos th row col t) / TERM_COLS th = row /\
   term_getpos th (term_setpos th row col t) mod TERM_COLS th = col).
Proof.
  intros Hs ((Hr1 & Hr2) & (Hc1 & Hc2)).
  unfold term_setpos. cbv zeta. rewrite !Z.geb_leb.
  assert (Hok : cursor_ok th
            (if (0 <=? col) && (col <? TERM_COLS th)
             then {| vram := vram (if (0 <=? row) && (row <? TERM_ROWS th)
                                   then {| vram := vram t; cursor_row := row;
                                           cursor_col := cursor_col t |}
                                   else t);
                     cursor_row := cursor_row
                                     (if (0 <=? row) && (row <? TERM_ROWS th)
                                      then {| vram := vram t; cursor_row := row;
                                              cursor_col := cursor_col t |}
                                      else t);
                     cursor_col := col |}
             else if (0 <=? row) && (row <? TERM_ROWS th)
                  then {| vram := vram t; cursor_row := row;
                          cursor_col := cursor_col t |}
                  else t)).
  { unfold cursor_ok.
    destruct (Z.leb_spec 0 col), (Z.ltb_spec col (TERM_COLS th)),
      (Z.leb_spec 0 row), (Z.ltb_spec row (TERM_ROWS th)); cbn; lia. }
  split; [exact Hok|].
  destruct (term_getpos_cell th Hs _ Hok) as (Hpos & _).
  rewrite Hpos. clear Hpos Hok.
  destruct ((0 <=? row) && (row <? TERM_ROWS th)) eqn:Er,
           ((0 <=? col) && (col <? TERM_COLS th)) eqn:Ec;
    cbn [vram cursor_row cursor_col];
    (split; [reflexivity|]); (split; [reflexivity|]); (split; [reflexivity|]);
    intros Hrow Hcol.
  - split; [reflexivity|]. destruct Hs as (Hc & _).
    rewrite Z.mul_comm.
    split; [symmetry; apply Z.div_unique with col
           | symmetry; apply Z.mod_unique with row]; lia.
  - exfalso. apply andb_false_iff in Ec.
    destruct Ec as [E | E]; [apply Z.leb_gt in E | apply Z.ltb_ge in E]; lia.
  - exfalso. apply andb_false_iff in Er.
    destruct Er as [E | E]; [apply Z.leb_gt in E | apply Z.ltb_ge in E]; lia.
  - exfalso. apply andb_false_iff in Er.
    destruct Er as [E | E]; [apply Z.leb_gt in E | apply Z.ltb_ge in E]; lia.
Qed.

Lemma setpos_validates_witness :
  cursor_ok pocket_term (term_setpos pocket_term 3 100 term0) /\
  cursor_row (term_setpos pocket_term 3 100 term0) = 3 /\
  cursor_col (term_setpos pocket_term 3 100 term0) = 0.
Proof.
  destruct (setpos_validates pocket_term 3 100 term0 pocket_screen_ok
              (term_at_ok 0 0 ltac:(lia) ltac:(lia)))
    as (H1 & _ & H2 & H3 & _).
  split; [exact H1|]. split; [exact H2 | exact H3].
Defined.

(** X8. [term_clear] and [term_init] work from any state, also with the
    cursor off the screen: they store a blank in each of the first
    [TERM_SIZE] cells, change no other cell and put the cursor at row 0,
    column 0. *)
Theorem clear_blanks_screen (th : terminal_h) (t : Terminal) (x : Z) :
  vram (term_clear th t) x =
    (if (0 <=? x) && (x <? TERM_SIZE th) then 32 else vram t x) /\
  term_init th t = term_clear th t /\
  cursor_row (term_clear th t) = 0 /\ cursor_col (term_clear th t) = 0 /\
  term_getpos th (term_clear th t) = 0.
Proof.
  split; [|repeat split].
  unfold term_clear. cbn [vram].
  rewrite (for_loop_fill 0 32) by reflexivity.
  replace ((0 + 0 <=? x) && (x <? 0 + 0 + Z.of_nat (Z.to_nat (TERM_SIZE th))))
    with ((0 <=? x) && (x <? TERM_SIZE th)).
  - destruct ((0 <=? x) && (x <? TERM_SIZE th)); reflexivity.
  - apply Bool.eq_iff_eq_true.
    rewrite !andb_true_iff, !Z.leb_le, !Z.ltb_lt. lia.
Qed.

(** X23. Carriage return and backspace move the cursor and never touch
    the character memory: a carriage return goes to column 0 of the same
    row; a backspace goes one column left and does nothing in column 0, so
    it never returns to the previous row.  A backspace after an ordinary
    character printed before the last column puts the cursor back on that
    character, which stays in its cell. *)
Theorem control_chars_move_only (th : terminal_h) (c : Z) (t : Terminal) :
  screen_ok th ->
  cursor_ok th t ->
  term_putchar th 13 t =
    {| vram := vram t; cursor_row := cursor_row t; cursor_col := 0 |} /\
  term_putchar th 8 t =
    {| vram := vram t; cursor_row := cursor_row t;
       cursor_col := Z.max 0 (cursor_col t - 1) |} /\
  (uint8 c <> 10 -> uint8 c <> 13 -> uint8 c <> 8 ->
   cursor_col t + 1 < TERM_COLS th ->
   cursor_row (term_putchar th 8 (term_putchar th c t)) = cursor_row t /\
   cursor_col (term_putchar th 8 (term_putchar th c t)) = cursor_col t /\
   vram (term_putchar th 8 (term_putchar th c t)) (term_getpos th t) = uint8 c).
Proof.
  intros Hs Hok.
  assert (H8 : forall u, cursor_ok th u ->
             term_putchar th 8 u =
               {| vram := vram u; cursor_row := cursor_row u;
                  cursor_col := Z.max 0 (cursor_col u - 1) |}).
  { intros u Hu. rewrite (term_putchar_unfold th Hs 8 u Hu). cbv zeta.
    change (uint8 8) with 8. unfold after_char.
    cbn [Z.eqb Pos.eqb cursor_row cursor_col vram].
    destruct Hu as ((Hr1 & Hr2) & (Hc1 & Hc2)).
    replace (cursor_row u <? TERM_ROWS th) with true
      by (symmetry; apply Z.ltb_lt; lia).
    f_equal. destruct (Z.ltb_spec 0 (cursor_col u)); lia. }
  split; [|split].
  - rewrite (term_putchar_unfold th Hs 13 t Hok). cbv zeta.
    change (uint8 13) with 13. unfold after_char.
    cbn [Z.eqb Pos.eqb cursor_row cursor_col vram].
    destruct Hok as ((Hr1 & Hr2) & _).
    replace (cursor_row t <? TERM_ROWS th) with true
      by (symmetry; apply Z.ltb_lt; lia).
    reflexivity.
  - now apply H8.
  - intros H10 H13 Hb Hcol.
    destruct (term_putchar_keeps th Hs c t Hok) as (Hok' & _).
    rewrite (H8 _ Hok'). cbn [cursor_row cursor_col vram].
    destruct (term_getpos_cell th Hs t Hok) as (-> & _).
    rewrite (term_putchar_unfold th Hs c t Hok). cbv zeta. unfold after_char.
    apply Z.eqb_neq in H10, H13, Hb. rewrite H10, H13, Hb.
    destruct Hok as ((Hr1 & Hr2) & (Hc1 & Hc2)).
    cbn [cursor_row cursor_col vram].
    replace (cursor_col t + 1 <? TERM_COLS th) with true
      by (symmetry; apply Z.ltb_lt; lia).
    replace (cursor_row t <? TERM_ROWS th) with true
      by (symmetry; apply Z.ltb_lt; lia).
    cbn [cursor_row cursor_col vram].
    split; [reflexivity|]. split; [lia|].
    rewrite store8_same. apply uint8_idem.
Qed.

Lemma control_chars_move_only_witness :
  term_putchar pocket_term 13 (term_at 3 5) =
    {| vram := vram (term_at 3 5); cursor_row := 3; cursor_col := 0 |} /\
  term_putchar pocket_term 8 (term_at 3 0) =
    {| vram := vram (term_at 3 0); cursor_row := 3; cursor_col := Z.max 0 (0 - 1) |}.
Proof.
  destruct (control_chars_move_only pocket_term 65 (term_at 3 5) pocket_screen_ok
              (term_at_ok 3 5 ltac:(lia) ltac:(lia))) as (H1 & _).
  destruct (control_chars_move_only pocket_term 65 (term_at 3 0) pocket_screen_ok
              (term_at_ok 3 0 ltac:(lia) ltac:(lia))) as (_ & H2 & _).
  split; [exact H1 | exact H2].
Defined.

(** ** Formatted output *)

Lemma term_putchars_app (th : terminal_h) (l1 l2 : list Z) (t : Terminal) :
  term_putchars th (l1 ++ l2) t = term_putchars th l2 (term_putchars th l1 t).
Proof. unfold term_putchars. apply fold_left_app. Qed.

Lemma hex_width_step (tmp width : Z) :
  hex_width tmp width =
    if 0 <? tmp then hex_width (Z.shiftr tmp 4) (width + 1) else width.
Proof.
  funelim (hex_width tmp width).
  - rewrite e. reflexivity.
  - rewrite e. reflexivity.
Qed.

(** The loop counts the hexadecimal digits of [val]. *)
Lemma hex_width_count (k : nat) :
  forall val width : Z,
    0 <= val < 16 ^ Z.of_nat k ->
    exists n : nat,
      hex_width val width = width + Z.of_nat n /\ (n <= k)%nat /\
      val < 16 ^ Z.of_nat n /\ (val = 0 -> n = 0%nat) /\
      (0 < val -> exists m : nat, n = S m /\ 16 ^ Z.of_nat m <= val).
Proof.
  induction k as [|k IH]; intros val width H; rewrite hex_width_step.
  - assert (val = 0) as -> by (simpl in H; lia).
    exists 0%nat. cbn. repeat split; try lia.
  - destruct (Z.ltb_spec 0 val) as [Hpos | Hz].
    + rewrite Z.shiftr_div_pow2 by lia. change (2 ^ 4) with 16.
      rewrite Nat2Z.inj_succ, Z.pow_succ_r in H by lia.
      assert (Hq : 0 <= val / 16 < 16 ^ Z.of_nat k).
      { split; [apply Z.div_pos; lia | apply Z.div_lt_upper_bound; lia]. }
      destruct (IH (val / 16) (width + 1) Hq) as (n & Hn & Hle & Hlt & Hz & Hlow).
      exists (S n). rewrite Hn, Nat2Z.inj_succ, Z.pow_succ_r by lia.
      pose proof (Z.div_mod val 16 ltac:(lia)) as Hdm.
      pose proof (Z.mod_pos_bound val 16 ltac:(lia)) as Hm.
      split; [lia|]. split; [lia|]. split; [lia|]. split; [lia|].
      intros _. exists n. split; [reflexivity|].
      destruct (Z.eq_dec (val / 16) 0) as [Hq0 | Hq0].
      * rewrite (Hz Hq0). simpl. lia.
      * destruct Hlow as (m & -> & Hm16); [lia|].
        rewrite Nat2Z.inj_succ, Z.pow_succ_r by lia. lia.
    + assert (val = 0) as -> by lia.
      exists 0%nat. cbn. repeat split; try lia.
Qed.

Lemma hex_leading_digit (k : nat) :
  (1 <= k < 16)%nat -> nth k hex 0 <> 48.
Proof.
  intros H. destruct k as [|k]; [lia|].
  do 15 (destruct k as [|k]; [discriminate|]). lia.
Qed.

Lemma parse_width_length (f : string) :
  forall w : Z,
    (String.length (snd (parse_width w f)) <= String.length f)%nat.
Proof.
  induction f as [|a f IH]; intros w; cbn [parse_width]; [cbn; lia|].
  destruct ((char_code a >=? 48) && (char_code a <=? 57)).
  - specialize (IH (int32 (int32 (w * 10) + (char_code a - 48)))).
    cbn [String.length]. lia.
  - cbn. lia.
Qed.

Lemma directive_length (f f' : string) (z w : Z) :
  directive f = (z, w, f') -> (String.length f' <= String.length f)%nat.
Proof.
  unfold directive. intros H.
  assert (Hz : (String.length (snd (zero_flag f)) <= String.length f)%nat).
  { destruct f as [|a f]; cbn [zero_flag]; [cbn; lia|].
    destruct (char_code a =? 48); cbn; lia. }
  destruct (zero_flag f) as [zp f1]. cbn [snd] in Hz.
  pose proof (parse_width_length f1 0) as Hw.
  destruct (parse_width 0 f1) as [w1 f2]. cbn [snd] in Hw.
  injection H as _ _ Hf. subst f2. lia.
Qed.

(** A zero flag changes neither the width nor the conversion found. *)
Lemma directive_zero_flag (rest : string) :
  snd (fst (directive (String "0" rest))) = snd (fst (directive rest)) /\
  snd (directive (String "0" rest)) = snd (directive rest).
Proof.
  unfold directive. cbn [zero_flag]. change (char_code "0" =? 48) with true.
  cbv iota.
  destruct rest as [|c r]; cbn [zero_flag]; [split; reflexivity|].
  destruct (char_code c =? 48) eqn:E.
  - apply Z.eqb_eq in E. cbn [parse_width]. rewrite E.
    change ((48 >=? 48) && (48 <=? 57)) with true. cbv iota.
    change (int32 (int32 (0 * 10) + (48 - 48))) with 0.
    destruct (parse_width 0 r). split; reflexivity.
  - destruct (parse_width 0 (String c r)). split; reflexivity.
Qed.

Lemma parse_width_digits (s : ascii) (rest : string) :
  (char_code s < 48 \/ 57 < char_code s) ->
  forall (ds : string) (w : Z),
    Forall (fun a => 48 <= char_code a <= 57) (list_ascii_of_string ds) ->
    exists w' : Z, parse_width w (ds ++ String s rest) = (w', String s rest).
Proof.
  intros Hs. induction ds as [|d ds IH]; intros w Hds.
  - exists w. cbn [append parse_width].
    replace ((char_code s >=? 48) && (char_code s <=? 57)) with false;
      [reflexivity|].
    symmetry. apply andb_false_iff. rewrite Z.geb_leb.
    destruct Hs; [left; apply Z.leb_gt | right; apply Z.leb_gt]; lia.
  - cbn [list_ascii_of_string] in Hds. inversion Hds as [|? ? Hd Hrest]; subst.
    cbn [append parse_width].
    replace ((char_code d >=? 48) && (char_code d <=? 57)) with true.
    + apply IH. exact Hrest.
    + symmetry. apply andb_true_iff. rewrite Z.geb_leb.
      split; apply Z.leb_le; lia.
Qed.

Lemma directive_digits (s : ascii) (rest ds : string) :
  (char_code s < 48 \/ 57 < char_code s) ->
  Forall (fun a => 48 <= char_code a <= 57) (list_ascii_of_string ds) ->
  exists z w : Z, directive (ds ++ String s rest) = (z, w, String s rest).
Proof.
  intros Hs Hds. unfold directive.
  destruct ds as [|d ds].
  - cbn [append zero_flag].
    replace (char_code s =? 48) with false by (symmetry; apply Z.eqb_neq; lia).
    destruct (parse_width_digits s rest Hs EmptyString 0 Hds) as (w' & Hw).
    cbn [append] in Hw. rewrite Hw. eauto.
  - cbn [append zero_flag].
    destruct (char_code d =? 48).
    + cbn [list_ascii_of_string] in Hds. inversion Hds as [|? ? Hd Hrest]; subst.
      destruct (parse_width_digits s rest Hs ds 0 Hrest) as (w' & Hw).
      rewrite Hw. eauto.
    + destruct (parse_width_digits s rest Hs (String d ds) 0 Hds) as (w' & Hw).
      cbn [append] in Hw. rewrite Hw. eauto.
Qed.

Section PrintfFacts.

Variable th : terminal_h.

Lemma term_printf_step (fmt : string) (args : list vararg) (t : Terminal) :
  term_printf th fmt args t =
    match fmt with
    | EmptyString => Some t
    | String c fmt1 =>
        if char_code c =? 0 then Some t
        else if char_code c =? 37 then
          match directive fmt1 with
          | (_, width, String s fmt3) =>
              match conversion th (char_code s) width args t with
              | Some (args', t') => term_printf th fmt3 args' t'
              | None => None
              end
          | (_, _, EmptyString) => None
          end
        else term_printf th fmt1 args (term_putchar th (char_code c) t)
    end.
Proof.
  funelim (term_printf th fmt args t).
  all: try reflexivity.
  all: repeat match goal with
       | H : (_ =? _) = _ |- _ => rewrite H
       | H : directive _ = _ |- _ => rewrite H
       | H : conversion _ _ _ _ _ = _ |- _ => rewrite H
       end; reflexivity.
Qed.

(** An ordinary character of the format is printed. *)
Lemma printf_char (c : ascii) (fmt : string) (args : list vararg) (t : Terminal) :
  char_code c <> 0 -> char_code c <> 37 ->
  term_printf th (String c fmt) args t =
    term_printf th fmt args (term_putchar th (char_code c) t).
Proof.
  intros H0 H37. rewrite term_printf_step.
  apply Z.eqb_neq in H0, H37. rewrite H0, H37. reflexivity.
Qed.

(** A directive: flag and width are parsed and the conversion done. *)
Lemma printf_percent (fmt1 fmt3 : string) (s : ascii) (z width : Z)
    (args : list vararg) (t : Terminal) :
  directive fmt1 = (z, width, String s fmt3) ->
  term_printf th (String "%" fmt1) args t =
    match conversion th (char_code s) width args t with
    | Some (args', t') => term_printf th fmt3 args' t'
    | None => None
    end.
Proof.
  intros H. rewrite term_printf_step.
  change (char_code "%" =? 0) with false. change (char_code "%" =? 37) with true.
  cbv iota. rewrite H. reflexivity.
Qed.

Lemma conversion_d (s : ascii) (width v : Z) (args : list vararg) (t : Terminal) :
  char_code s = 100 ->
  conversion th (char_code s) width (VInt v :: args) t =
    Some (args, term_putdec th v t).
Proof. intros ->. reflexivity. Qed.

Lemma conversion_x (s : ascii) (width v : Z) (args : list vararg) (t : Terminal) :
  char_code s = 120 \/ char_code s = 88 ->
  conversion th (char_code s) width (VInt v :: args) t =
    Some (args,
          term_puthex th (uint32 v)
            (if width =? 0
             then (if uint32 v =? 0 then 1 else hex_width (uint32 v) 0)
             else width) t).
Proof. intros [-> | ->]; reflexivity. Qed.

Lemma conversion_width (spec w1 w2 : Z) (args : list vararg) (t : Terminal) :
  spec <> 120 -> spec <> 88 ->
  conversion th spec w1 args t = conversion th spec w2 args t.
Proof.
  intros H1 H2. apply Z.eqb_neq in H1, H2.
  unfold conversion. rewrite H1, H2. reflexivity.
Qed.

Lemma term_puthex_chars (val width : Z) (t : Terminal) :
  term_puthex th val width t = term_putchars th (hex_chars val (Z.to_nat width)) t.
Proof. unfold term_puthex. apply term_puthex_putchars. Qed.

Lemma term_putdec_putchars (v : Z) :
  exists chars : list Z, forall t, term_putdec th v t = term_putchars th chars t.
Proof.
  unfold term_putdec. cbv zeta.
  destruct (int32 v <? 0).
  - destruct (int32 (- int32 v) =? 0).
    + exists [48]. reflexivity.
    + exists (45 :: dec_loop (int32 (- int32 v)) []). reflexivity.
  - destruct (int32 v =? 0).
    + exists [48]. reflexivity.
    + exists (dec_loop (int32 v) []). reflexivity.
Qed.

(** Every conversion prints through [term_putchar]. *)
Lemma conversion_putchars (spec width : Z) (args args' : list vararg)
    (t t' : Terminal) :
  conversion th spec width args t = Some (args', t') ->
  exists chars : list Z, t' = term_putchars th chars t.
Proof.
  unfold conversion. cbv zeta.
  destruct (spec =? 0); [discriminate|].
  destruct (spec =? 100).
  { destruct args as [|[v|s] a]; try discriminate.
    intros H. injection H as _ <-.
    destruct (term_putdec_putchars v) as (chars & Hc). exists chars. apply Hc. }
  destruct (spec =? 117).
  { destruct args as [|[v|s] a]; try discriminate.
    intros H. injection H as _ <-.
    destruct (uint32 v =? 0); [exists [48] | eexists]; reflexivity. }
  destruct ((spec =? 120) || (spec =? 88)).
  { destruct args as [|[v|s] a]; try discriminate.
    intros H. injection H as _ <-.
    eexists. apply term_puthex_chars. }
  destruct (spec =? 115).
  { destruct args as [|[v|s] a]; try discriminate.
    intros H. injection H as _ <-.
    destruct s as [s|]; [|exists []; reflexivity].
    eexists. apply term_puts_putchars. }
  destruct (spec =? 99).
  { destruct args as [|[v|s] a]; try discriminate.
    intros H. injection H as _ <-. exists [v]. reflexivity. }
  destruct (spec =? 37).
  { intros H. injection H as _ <-. exists [37]. reflexivity. }
  intros H. injection H as _ <-. exists [37; spec]. reflexivity.
Qed.

(** [term_printf] changes the terminal through [term_putchar] only. *)
Lemma printf_putchars (n : nat) :
  forall (fmt : string) (args : list vararg) (t t' : Terminal),
    (String.length fmt < n)%nat ->
    term_printf th fmt args t = Some t' ->
    exists chars : list Z, t' = term_putchars th chars t.
Proof.
  induction n as [|n IH]; intros fmt args t t' Hn H; [lia|].
  rewrite term_printf_step in H.
  destruct fmt as [|c fmt1]; [injection H as <-; exists []; reflexivity|].
  cbn [String.length] in Hn.
  destruct (char_code c =? 0); [injection H as <-; exists []; reflexivity|].
  destruct (char_code c =? 37).
  - destruct (directive fmt1) as [[z w] f'] eqn:Hd.
    destruct f' as [|s fmt3]; [discriminate|].
    apply directive_length in Hd. cbn [String.length] in Hd.
    destruct (conversion th (char_code s) w args t) as [[a' t1]|] eqn:Hc;
      [|discriminate].
    apply conversion_putchars in Hc. destruct Hc as (l1 & ->).
    destruct (IH fmt3 a' _ t' ltac:(lia) H) as (l2 & ->).
    exists (l1 ++ l2). symmetry. apply term_putchars_app.
  - destruct (IH fmt1 args _ t' ltac:(lia) H) as (l2 & ->).
    exists (char_code c :: l2). reflexivity.
Qed.

(** Two formats that print alike after a common text without directive
    print alike with it. *)
Lemma printf_prefix (f1 f2 : string) :
  (forall args t, term_printf th f1 args t = term_printf th f2 args t) ->
  forall (pre : string) (args : list vararg) (t : Terminal),
    ~ In 37 (c_str pre) ->
    term_printf th (pre ++ f1) args t = term_printf th (pre ++ f2) args t.
Proof.
  intros Heq. induction pre as [|c pre IH]; intros args t Hpre; [apply Heq|].
  cbn [append]. rewrite (term_printf_step (String c (pre ++ f1))),
    (term_printf_step (String c (pre ++ f2))).
  cbn [c_str] in Hpre.
  destruct (char_code c =? 0) eqn:E0; [reflexivity|].
  destruct (char_code c =? 37) eqn:E37.
  - exfalso. apply Hpre. left. now apply Z.eqb_eq.
  - apply IH. intros Hin. apply Hpre. now right.
Qed.

End PrintfFacts.

Lemma char_code_digit (n : Z) :
  0 <= n <= 9 -> char_code (ascii_of_nat (Z.to_nat (48 + n))) = 48 + n.
Proof.
  intros H. unfold char_code. rewrite nat_ascii_embedding by lia. lia.
Qed.

(** A one-digit width, with or without the zero flag. *)
Lemma directive_width_digit (n : Z) (x : ascii) (rest : string) (zero : bool) :
  1 <= n <= 9 ->
  (char_code x < 48 \/ 57 < char_code x) ->
  directive ((if zero then "0" else "")
             ++ String (ascii_of_nat (Z.to_nat (48 + n))) (String x rest)) =
    (if zero then 1 else 0, n, String x rest).
Proof.
  intros Hn Hx.
  assert (Hw : parse_width 0 (String (ascii_of_nat (Z.to_nat (48 + n))) (String x rest))
               = (n, String x rest)).
  { cbn [parse_width]. rewrite char_code_digit by lia.
    replace ((48 + n >=? 48) && (48 + n <=? 57)) with true
      by (symmetry; apply andb_true_iff; rewrite Z.geb_leb;
          split; apply Z.leb_le; lia).
    replace ((char_code x >=? 48) && (char_code x <=? 57)) with false.
    - rewrite (int32_small (0 * 10)) by lia. rewrite int32_small by lia.
      f_equal. lia.
    - symmetry. apply andb_false_iff. rewrite Z.geb_leb.
      destruct Hx; [left; apply Z.leb_gt | right; apply Z.leb_gt]; lia. }
  unfold directive. destruct zero; cbn [append zero_flag].
  - change (char_code "0" =? 48) with true. cbv iota. rewrite Hw. reflexivity.
  - rewrite char_code_digit by lia.
    replace (48 + n =? 48) with false by (symmetry; apply Z.eqb_neq; lia).
    rewrite Hw. reflexivity.
Qed.

Lemma printf_end (th : terminal_h) (args : list vararg) (t : Terminal) :
  term_printf th EmptyString args t = Some t.
Proof. now rewrite term_printf_step. Qed.

Ltac printf_run :=
  repeat first
    [ rewrite printf_char by (cbv; discriminate)
    | erewrite printf_percent by (cbv; reflexivity);
      first [ rewrite conversion_x by (cbv; auto)
            | rewrite conversion_d by reflexivity ];
      cbv beta iota
    | rewrite printf_end ].

(** X16. A format without a ['%'] is printed as [term_puts] prints it,
    and no argument is looked at. *)
Theorem printf_plain_text (th : terminal_h) (fmt : string)
    (args : list vararg) (t : Terminal) :
  ~ In 37 (c_str fmt) ->
  term_printf th fmt args t = Some (term_puts th fmt t).
Proof.
  revert t. induction fmt as [|c fmt IH]; intros t H; rewrite term_printf_step;
    [reflexivity|].
  cbn [term_puts c_str] in *.
  destruct (char_code c =? 0) eqn:E0; [reflexivity|].
  destruct (char_code c =? 37) eqn:E37.
  - exfalso. apply H. left. now apply Z.eqb_eq.
  - apply IH. intros Hin. apply H. now right.
Qed.

Lemma printf_plain_text_witness :
  term_printf pocket_term "wait: got ACK" [VInt 7] term0 =
    Some (term_puts pocket_term "wait: got ACK" term0).
Proof.
  apply printf_plain_text.
  cbv. intros H. repeat (destruct H as [H | H]; [discriminate|]). exact H.
Defined.

(** X17. [term_printf] acts on the terminal through [term_putchar] only:
    whatever the format and the arguments, a call that starts with the
    cursor on the screen ends with the cursor on the screen and has
    written inside the [TERM_ROWS * TERM_COLS] cells only. *)
Theorem printf_stays_on_screen (th : terminal_h) (fmt : string)
    (args : list vararg) (t t' : Terminal) :
  screen_ok th ->
  cursor_ok th t ->
  term_printf th fmt args t = Some t' ->
  (exists chars : list Z, t' = term_putchars th chars t) /\
  cursor_ok th t' /\
  (forall x, x < 0 \/ TERM_ROWS th * TERM_COLS th <= x -> vram t' x = vram t x).
Proof.
  intros Hs Hok H.
  destruct (printf_putchars th (S (String.length fmt)) fmt args t t' ltac:(lia) H)
    as (chars & ->).
  split; [now exists chars|].
  now apply term_putchars_keeps.
Qed.

Lemma printf_stays_on_screen_witness :
  cursor_ok pocket_term
    (term_putchar pocket_term 10
       (term_putdec pocket_term 5
          (term_putchar pocket_term 61
             (term_putchar pocket_term 116 (term_at 29 39))))).
Proof.
  apply (printf_stays_on_screen pocket_term
           (String "t" (String "=" (String "%" (String "d" nl))))
           [VInt 5] (term_at 29 39)).
  - exact pocket_screen_ok.
  - apply term_at_ok; lia.
  - unfold nl. printf_run. reflexivity.
Defined.

(** X18. The zero flag of a directive is parsed and never used: a
    directive prints the same with and without it.  A width is used by
    [%x] and [%X] only: before any other conversion character it changes
    nothing. *)
Theorem printf_flag_and_width_ignored (th : terminal_h)
    (pre rest ds : string) (s : ascii) (args : list vararg) (t : Terminal) :
  ~ In 37 (c_str pre) ->
  term_printf th (pre ++ String "%" (String "0" rest)) args t =
    term_printf th (pre ++ String "%" rest) args t /\
  (Forall (fun a => 48 <= char_code a <= 57) (list_ascii_of_string ds) ->
   char_code s < 48 \/ 57 < char_code s ->
   char_code s <> 120 -> char_code s <> 88 ->
   term_printf th (pre ++ String "%" (ds ++ String s rest)) args t =
     term_printf th (pre ++ String "%" (String s rest)) args t).
Proof.
  intros Hpre. split.
  - apply printf_prefix; [|exact Hpre]. clear. intros args t.
    rewrite (term_printf_step th (String "%" (String "0" rest))),
      (term_printf_step th (String "%" rest)).
    change (char_code "%" =? 0) with false. change (char_code "%" =? 37) with true.
    cbv iota.
    destruct (directive_zero_flag rest) as (Hw & Hf).
    destruct (directive (String "0" rest)) as [[z1 w1] f1].
    destruct (directive rest) as [[z2 w2] f2].
    cbn [fst snd] in Hw, Hf. subst w2 f2. reflexivity.
  - intros Hds Hs Hx HX.
    apply printf_prefix; [|exact Hpre]. clear args t Hpre. intros args t.
    destruct (directive_digits s rest ds Hs Hds) as (z1 & w1 & H1).
    destruct (directive_digits s rest EmptyString Hs ltac:(constructor))
      as (z2 & w2 & H2).
    cbn [append] in H2.
    rewrite (printf_percent th _ _ _ _ _ _ _ H1),
      (printf_percent th _ _ _ _ _ _ _ H2).
    rewrite (conversion_width th _ w1 w2) by assumption. reflexivity.
Qed.

Lemma printf_flag_and_width_ignored_witness :
  term_printf pocket_term "t=%08d" [VInt 5] term0 =
    term_printf pocket_term "t=%8d" [VInt 5] term0 /\
  term_printf pocket_term "t=%8d" [VInt 5] term0 =
    term_printf pocket_term "t=%d" [VInt 5] term0.
Proof.
  split.
  - apply (proj1 (printf_flag_and_width_ignored pocket_term "t=" "8d" "" "d"
                    [VInt 5] term0
                    ltac:(cbv; intros H;
                          repeat (destruct H as [H | H]; [discriminate|]);
                          exact H))).
  - apply (proj2 (printf_flag_and_width_ignored pocket_term "t=" "" "8" "d"
                    [VInt 5] term0
                    ltac:(cbv; intros H;
                          repeat (destruct H as [H | H]; [discriminate|]);
                          exact H))).
    + repeat constructor; cbv; discriminate.
    + right. reflexivity.
    + discriminate.
    + discriminate.
Defined.

(** X19. [%x] and [%X] both print upper-case digits.  Without a width
    they print the digits of the value without leading zeros, at least
    one and at most eight, which read back as the value.  With a width of
    one digit [n], with or without the zero flag, they print exactly [n]
    digits, padded with zeros, which read back as the value modulo
    [16 ^ n]: the high digits of a larger value are dropped. *)
Theorem printf_hex (th : terminal_h) (upper zero : bool) (n v : Z)
    (t : Terminal) :
  let x := if upper then "X"%char else "x"%char in
  (exists chars : list Z,
     term_printf th (String "%" (String x "")) [VInt v] t =
       Some (term_putchars th chars t) /\
     hex_value chars = uint32 v /\
     (1 <= List.length chars <= 8)%nat /\
     Forall (fun c => In c hex) chars /\
     (uint32 v <> 0 -> exists c r, chars = c :: r /\ c <> 48)) /\
  (1 <= n <= 8 ->
   exists chars : list Z,
     term_printf th
       (String "%" ((if zero then "0" else "")
                    ++ String (ascii_of_nat (Z.to_nat (48 + n))) (String x "")))
       [VInt v] t = Some (term_putchars th chars t) /\
     Z.of_nat (List.length chars) = n /\
     Forall (fun c => In c hex) chars /\
     hex_value chars = uint32 v mod 16 ^ n).
Proof.
  cbv zeta.
  assert (Hx : char_code (if upper then "X"%char else "x"%char) = 120 \/
               char_code (if upper then "X"%char else "x"%char) = 88)
    by (destruct upper; [right | left]; reflexivity).
  assert (Hnd : char_code (if upper then "X"%char else "x"%char) < 48 \/
                57 < char_code (if upper then "X"%char else "x"%char))
    by (right; destruct Hx as [-> | ->]; lia).
  pose proof (uint32_range v) as Hv.
  split.
  - assert (Hd : directive (String (if upper then "X"%char else "x"%char) "")
                 = (0, 0, String (if upper then "X"%char else "x"%char) ""))
      by (destruct upper; reflexivity).
    rewrite (printf_percent th _ _ _ _ _ _ _ Hd), conversion_x by exact Hx.
    cbv beta iota. rewrite printf_end, term_puthex_chars.
    change (0 =? 0) with true. cbv iota.
    destruct (Z.eqb_spec (uint32 v) 0) as [Hz | Hnz].
    + eexists. split; [reflexivity|].
      destruct (hex_chars_value (uint32 v) (Z.to_nat 1)) as (Hval & Hall).
      rewrite hex_chars_length.
      split; [|split; [simpl; lia | split; [exact Hall | intros H; now destruct H]]].
      rewrite Hval, uint32_idem, Hz. reflexivity.
    + destruct (hex_width_count 8 (uint32 v) 0) as (k & Hk & Hle & Hlt & _ & Hlow).
      { change (16 ^ Z.of_nat 8) with (2 ^ 32). exact Hv. }
      destruct Hlow as (m & -> & Hm); [lia|].
      rewrite Hk. replace (Z.to_nat (0 + Z.of_nat (S m))) with (S m) by lia.
      eexists. split; [reflexivity|].
      destruct (hex_chars_value (uint32 v) (S m)) as (Hval & Hall).
      rewrite hex_chars_length.
      split; [|split; [lia | split; [exact Hall|]]].
      * rewrite Hval, uint32_idem. apply Z.mod_small. lia.
      * intros _. cbn [hex_chars]. eexists. eexists. split; [reflexivity|].
        apply hex_leading_digit.
        rewrite uint32_idem, Z.shiftr_div_pow2 by lia.
        replace (Z.of_nat m * 4) with (4 * Z.of_nat m) by lia.
        rewrite Z.pow_mul_r by lia. change (2 ^ 4) with 16.
        change 15 with (Z.ones 4). rewrite Z.land_ones by lia. change (2 ^ 4) with 16.
        rewrite Nat2Z.inj_succ, Z.pow_succ_r in Hlt by lia.
        pose proof (Z.pow_pos_nonneg 16 (Z.of_nat m) ltac:(lia) ltac:(lia)) as Hp.
        assert (1 <= uint32 v / 16 ^ Z.of_nat m < 16).
        { split; [apply Z.div_le_lower_bound; lia
                 | apply Z.div_lt_upper_bound; lia]. }
        rewrite Z.mod_small by lia. lia.
  - intros Hn.
    rewrite (printf_percent th _ _ _ _ _ _ _
               (directive_width_digit n _ "" zero ltac:(lia) Hnd)),
      conversion_x by exact Hx.
    cbv beta iota. rewrite printf_end, term_puthex_chars.
    replace (n =? 0) with false by (symmetry; apply Z.eqb_neq; lia).
    eexists. split; [reflexivity|].
    destruct (hex_chars_value (uint32 v) (Z.to_nat n)) as (Hval & Hall).
    rewrite hex_chars_length.
    split; [lia|]. split; [exact Hall|].
    rewrite Hval, uint32_idem, Z2Nat.id by lia. reflexivity.
Qed.

Lemma printf_hex_witness :
  exists chars : list Z,
    term_printf pocket_term "%02x" [VInt 511] term0 =
      Some (term_putchars pocket_term chars term0) /\
    Z.of_nat (List.length chars) = 2 /\
    Forall (fun c => In c hex) chars /\
    hex_value chars = uint32 511 mod 16 ^ 2.
Proof.
  apply (proj2 (printf_hex pocket_term false true 2 511 term0)). lia.
Defined.

(** X20. [%u] prints the argument, read as an unsigned 32-bit number, in
    decimal without leading zeros: between one and ten digits, which read
    back as the value.  [%d] prints the same argument as [term_putdec]
    does, so a value of [2 ^ 31] or more appears as the negative number
    with the same 32 bits. *)
Theorem printf_decimal (th : terminal_h) (v : Z) (t : Terminal) :
  (exists chars : list Z,
     term_printf th "%u" [VInt v] t = Some (term_putchars th chars t) /\
     dec_value chars = uint32 v /\
     (1 <= List.length chars <= 10)%nat /\
     Forall (fun c => 48 <= c <= 57) chars /\
     (uint32 v <> 0 -> exists c r, chars = c :: r /\ c <> 48)) /\
  term_printf th "%d" [VInt v] t = Some (term_putdec th v t) /\
  term_putdec th v t = term_putdec th (v - 2 ^ 32) t.
Proof.
  pose proof (uint32_range v) as Hv.
  split; [|split].
  - rewrite (printf_percent th "u" "" "u" 0 0) by reflexivity.
    change (conversion th (char_code "u") 0 [VInt v] t)
      with (Some (@nil vararg,
                  if uint32 v =? 0 then term_putchar th 48 t
                  else term_putchars th (dec_loop (uint32 v) []) t)).
    cbv beta iota. rewrite printf_end.
    destruct (Z.eqb_spec (uint32 v) 0) as [Hz | Hnz].
    + exists [48]. split; [reflexivity|]. rewrite Hz.
      split; [reflexivity|]. split; [simpl; lia|].
      split; [repeat constructor; lia | intros H; now destruct H].
    + exists (dec_loop (uint32 v) []). split; [reflexivity|].
      destruct (dec_loop_digits (S (Z.to_nat (uint32 v))) (uint32 v) [])
        as (Hd & c & r & Hc & Hc1); [lia | lia | constructor|].
      pose proof (dec_loop_length 10 (uint32 v) [] ltac:(simpl; lia)) as Hlen.
      split; [|split; [|split]].
      * unfold dec_value. rewrite (dec_loop_fold (S (Z.to_nat (uint32 v)))) by lia.
        reflexivity.
      * rewrite Hc in *. cbn [List.length] in *. lia.
      * exact Hd.
      * intros _. exists c, r. split; [exact Hc | lia].
  - rewrite (printf_percent th "d" "" "d" 0 0) by reflexivity.
    rewrite conversion_d by reflexivity. cbv beta iota. apply printf_end.
  - unfold term_putdec.
    replace (int32 (v - 2 ^ 32)) with (int32 v); [reflexivity|].
    unfold int32. f_equal.
    replace (v - 2 ^ 32 + 2 ^ 31) with (v + 2 ^ 31 + (-1) * 2 ^ 32) by lia.
    now rewrite Z.mod_add.
Qed.

(** X21. The other conversions: [%s] prints the string and prints
    nothing for a null pointer, [%%] prints one ['%'] and takes no
    argument, and a conversion character that is none of
    [d u x X s c %] is echoed after a ['%'], again without taking an
    argument.  A format that ends inside a directive, after the ['%'], the
    flag or the width, has no defined result: the loop steps over the
    terminator of the format. *)
Theorem printf_other_conversions (th : terminal_h) (rest ds : string)
    (k : ascii) (s : option string) (args : list vararg) (t : Terminal) :
  term_printf th (String "%" (String "s" rest)) (VStr s :: args) t =
    term_printf th rest args
      (match s with Some s => term_puts th s t | None => t end) /\
  term_printf th (String "%" (String "%" rest)) args t =
    term_printf th rest args (term_putchar th 37 t) /\
  (char_code k <> 0 -> char_code k < 48 \/ 57 < char_code k ->
   ~ In (char_code k) [100; 117; 120; 88; 115; 99; 37] ->
   term_printf th (String "%" (String k rest)) args t =
     term_printf th rest args (term_putchars th [37; char_code k] t)) /\
  (Forall (fun a => 48 <= char_code a <= 57) (list_ascii_of_string ds) ->
   term_printf th (String "%" ds) args t = None).
Proof.
  split; [|split; [|split]].
  - rewrite (printf_percent th (String "s" rest) rest "s" 0 0) by reflexivity.
    reflexivity.
  - rewrite (printf_percent th (String "%" rest) rest "%" 0 0) by reflexivity.
    reflexivity.
  - intros H0 Hnd Hk.
    destruct (directive_digits k rest EmptyString Hnd ltac:(constructor))
      as (z & w & Hd).
    cbn [append] in Hd. rewrite (printf_percent th _ _ _ _ _ _ _ Hd).
    unfold conversion.
    replace (char_code k =? 0) with false by (symmetry; now apply Z.eqb_neq).
    replace (char_code k =? 100) with false
      by (symmetry; apply Z.eqb_neq; intros E; apply Hk; simpl; auto).
    replace (char_code k =? 117) with false
      by (symmetry; apply Z.eqb_neq; intros E; apply Hk; simpl; auto).
    replace (char_code k =? 120) with false
      by (symmetry; apply Z.eqb_neq; intros E; apply Hk; simpl; auto).
    replace (char_code k =? 88) with false
      by (symmetry; apply Z.eqb_neq; intros E; apply Hk; simpl; auto 6).
    replace (char_code k =? 115) with false
      by (symmetry; apply Z.eqb_neq; intros E; apply Hk; simpl; auto 7).
    replace (char_code k =? 99) with false
      by (symmetry; apply Z.eqb_neq; intros E; apply Hk; simpl; auto 8).
    replace (char_code k =? 37) with false
      by (symmetry; apply Z.eqb_neq; intros E; apply Hk; simpl; auto 9).
    reflexivity.
  - intros Hds. rewrite term_printf_step.
    change (char_code "%" =? 0) with false. change (char_code "%" =? 37) with true.
    cbv iota.
    assert (Hw : forall (f : string) (w : Z),
               Forall (fun a => 48 <= char_code a <= 57) (list_ascii_of_string f) ->
               snd (parse_width w f) = EmptyString).
    { induction f as [|a f IH]; intros w Hf; [reflexivity|].
      cbn [list_ascii_of_string] in Hf. inversion Hf as [|? ? Ha Hr]; subst.
      cbn [parse_width].
      replace ((char_code a >=? 48) && (char_code a <=? 57)) with true
        by (symmetry; apply andb_true_iff; rewrite Z.geb_leb;
            split; apply Z.leb_le; lia).
      now apply IH. }
    unfold directive.
    destruct ds as [|d ds]; [reflexivity|].
    cbn [zero_flag]. cbn [list_ascii_of_string] in Hds.
    destruct (char_code d =? 48).
    + inversion Hds as [|? ? Ha Hr]; subst.
      specialize (Hw ds 0 Hr).
      destruct (parse_width 0 ds) as [w f]. cbn [snd] in Hw. subst f. reflexivity.
    + specialize (Hw (String d ds) 0 Hds).
      destruct (parse_width 0 (String d ds)) as [w f]. cbn [snd] in Hw. subst f.
      reflexivity.
Qed.

(** X22. Every call of [term_printf] in dataslot.c is well formed: its
    format ends outside a directive and is given an argument for each
    conversion, so the call has a result, for every value of the
    arguments. *)
Theorem driver_formats_defined (th : terminal_h) (m : term_msg) (t : Terminal) :
  (forall p, m = DS_data p -> List.length p = 8%nat) ->
  exists t' : Terminal,
    term_printf th (fst (format_of m)) (snd (format_of m)) t = Some t'.
Proof.
  intros Hp.
  destruct m; cbv beta iota zeta delta [format_of fst snd append nl];
    try (printf_run; eexists; reflexivity).
  specialize (Hp p eq_refl).
  do 8 (destruct p as [|? p]; [discriminate Hp|]).
  destruct p; [|discriminate Hp].
  cbn [map]. printf_run. eexists; reflexivity.
Qed.

Lemma driver_formats_defined_witness :
  exists t' : Terminal,
    term_printf pocket_term (fst (format_of (wait_final_status 15 3)))
      (snd (format_of (wait_final_status 15 3))) term0 = Some t'.
Proof.
  apply driver_formats_defined. intros p H. discriminate H.
Defined.

End TerminalFacts.
